(** * Export client of the Uplift sample application (Node.js version)

    A shallow embedding of [api.js] (the version with retries), [file.js]
    and [app.js]: the retrying request functions, the CSV sink, the status
    poller, the paginated export with its row partitioner, and the
    orchestrating loop; of the version of [api.js] without retries and of
    the stand-alone [dataExportDemo.js]; then the properties of these
    functions.

    The asynchronous code is single threaded and every [await] is sequential,
    so a computation is a function of an immutable environment (what the
    remote service answers, which paths of the disk fail, the content of
    [env.json]) and a mutable state (the number of HTTP calls made so far, the
    directories and files on disk, and the trace of observable events: HTTP
    calls with their replies, timer waits, [console.error] lines, and calls
    of the sink; [console.log] lines are not recorded).
    Loops that the source does not bound ([do ... while] of the poller,
    [while (true)] of the export) take a fuel argument; running out of it is
    the outcome [Diverge], distinct from a result and from a thrown error. *)

From Stdlib Require Import ZArith.
From stdpp Require Import gmap strings list pretty.

Local Open Scope Z_scope.

(** ** JavaScript values *)

(** Scalars that a decoded JSON payload or a property lookup can produce.
    Numbers are restricted to integers. *)
Inductive value : Type :=
  | VUndefined
  | VNull
  | VBool (b : bool)
  | VNum (n : Z)
  | VStr (s : string).

#[global] Instance value_eq_dec : EqDecision value.
Proof. solve_decision. Defined.

(** [ToBoolean]: what [if (v)] and [!v] test. *)
Definition truthy (v : value) : bool :=
  match v with
  | VUndefined | VNull => false
  | VBool b => b
  | VNum n => negb (n =? 0)
  | VStr s => negb (String.eqb s "")
  end.

(** [a === b] on scalars. *)
Definition strict_eq (a b : value) : bool := bool_decide (a = b).

(** [a !== b]. *)
Definition strict_neq (a b : value) : bool := negb (strict_eq a b).

(** String conversion inside a template literal. *)
Definition template (v : value) : string :=
  match v with
  | VUndefined => "undefined"
  | VNull => "null"
  | VBool true => "true"
  | VBool false => "false"
  | VNum n => pretty n
  | VStr s => s
  end.

(** A row is an object whose properties keep their insertion order. *)
Definition row : Type := list (string * value).

(** Property read [r.k]; an absent property reads as [undefined]. *)
Fixpoint prop (k : string) (r : row) : value :=
  match r with
  | [] => VUndefined
  | (k', v) :: r' => if String.eqb k k' then v else prop k r'
  end.

(** [Object.keys(r)]. *)
Definition keys (r : row) : list string := map fst r.

(** ** Errors, requests and replies *)

Inductive error : Type :=
  | AxiosError (message : string) (response_status : option Z)
  | TypeError (message : string)
  | Error (message : string).

Definition error_message (e : error) : string :=
  match e with
  | AxiosError m _ | TypeError m | Error m => m
  end.

(** [error.response?.status] *)
Definition response_status_of (e : error) : option Z :=
  match e with
  | AxiosError _ st => st
  | _ => None
  end.

(** The payload [data] of [createExportJob] in [app.js]. *)
Record export_data : Type := {
  activity : string;
  movement : string;
  startTime : Z;
  endTime : value;
  dateMode : string
}.

(** The three calls that [api.js] hands to axios. *)
Inductive request : Type :=
  | PostExport (url : string) (authorization : string) (data : export_data)
  | GetJob (url : string) (authorization : string)
  | GetJobPage (url : string) (authorization : string) (offset limit : Z).

(** The decoded body of a successful response, with the three fields the
    client reads. [data_rows = None] is a body without a [rows] array. *)
Record body : Type := {
  data_jobId : value;
  data_status : value;
  data_rows : option (list row)
}.

(** What axios does with one call: it resolves with [response.data], or
    rejects with an error that carries the response status when the service
    answered and none when the network failed. [Fulfilled None] is a
    response with an empty body: its [data] is the empty string, which is
    falsy and whose properties read as [undefined]. *)
Inductive reply : Type :=
  | Fulfilled (data : option body)
  | Rejected (message : string) (status : option Z).

(** ** Environment, state and trace *)

(** A record of a CSV file. *)
Inductive csv_record : Type :=
  | Header (columns : list string)
  | Data (cells : list value).

Inductive event : Type :=
  | EvHttp (rq : request) (rp : reply)
  | EvDelay (ms : Z)
  | EvConsoleError (msg : string)
  | EvWriteCsv (rows : list row) (athleteId sessionId : value).

Record environment : Type := {
  (** the reply to the k-th HTTP call of the run *)
  server : nat -> reply;
  (** paths on which a file-system call throws, with the message *)
  fs_fault : string -> option string;
  (** [env.json]: unreadable with a message, or its two entries *)
  env_json : string + (value * value)
}.

Record state : Type := {
  ncalls : nat;
  dirs : gset string;
  files : gmap string (list csv_record);
  log : list event
}.

Definition initial : state :=
  {| ncalls := 0; dirs := ∅; files := ∅; log := [] |}.

Inductive outcome (A : Type) : Type :=
  | Ret (a : A)
  | Throw (e : error)
  | Diverge.
Arguments Ret {A} a.
Arguments Throw {A} e.
Arguments Diverge {A}.

Definition M (A : Type) : Type := environment -> state -> outcome A * state.

Definition ret {A} (a : A) : M A := fun _ st => (Ret a, st).

Definition bind {A B} (c : M A) (k : A -> M B) : M B :=
  fun E st =>
    match c E st with
    | (Ret a, st') => k a E st'
    | (Throw e, st') => (Throw e, st')
    | (Diverge, st') => (Diverge, st')
    end.

Definition throw {A} (e : error) : M A := fun _ st => (Throw e, st).

Definition diverge {A} : M A := fun _ st => (Diverge, st).

(** [try { c } catch (e) { h e }] *)
Definition try_catch {A} (c : M A) (h : error -> M A) : M A :=
  fun E st =>
    match c E st with
    | (Throw e, st') => h e E st'
    | r => r
    end.

Declare Scope js_scope.
Delimit Scope js_scope with js.
Notation "x <- c ;; k" := (bind c (fun x => k))
  (at level 100, c at next level, right associativity) : js_scope.
Notation "c ;;; k" := (bind c (fun _ => k))
  (at level 100, right associativity) : js_scope.
Local Open Scope js_scope.

(** The state with one more event at the end of the trace. *)
Definition add_event (ev : event) (st : state) : state :=
  {| ncalls := ncalls st; dirs := dirs st; files := files st;
     log := log st ++ [ev] |}.

(** The state with one more HTTP call counted. *)
Definition count_call (st : state) : state :=
  {| ncalls := S (ncalls st); dirs := dirs st; files := files st;
     log := log st |}.

Definition emit (ev : event) : M unit :=
  fun _ st => (Ret tt, add_event ev st).

(** [await new Promise(resolve => setTimeout(resolve, ms))] *)
Definition delay (ms : Z) : M unit := emit (EvDelay ms).

(** One axios call: the service's next reply, recorded in the trace. *)
Definition http (rq : request) : M reply :=
  fun E st =>
    let rp := server E (ncalls st) in
    (Ret rp, add_event (EvHttp rq rp) (count_call st)).

(** ** api.js *)

(** [handleError]: one console line per class of failure. *)
Definition handleError (e : error) : M unit :=
  match e with
  | AxiosError _ (Some st) =>
      if st =? 400 then
        emit (EvConsoleError "Bad Request: Please check the job ID or request parameters.")
      else if st =? 401 then
        emit (EvConsoleError "Unauthorized: Check your authorization token.")
      else if st =? 403 then
        emit (EvConsoleError "Forbidden: You do not have access to this resource.")
      else if st =? 404 then
        emit (EvConsoleError "Not Found: The specified job ID does not exist or has no results.")
      else if st =? 429 then
        emit (EvConsoleError "Too Many Requests: You are being rate limited. Try again later.")
      else if st =? 500 then
        emit (EvConsoleError "Internal Server Error: Something went wrong on the server.")
      else
        emit (EvConsoleError ("Error " +:+ pretty st +:+ ":"))
  | _ => emit (EvConsoleError ("Error: " +:+ error_message e))
  end.

(** [error.response?.status === 504] *)
Definition is_504 (e : error) : bool :=
  match response_status_of e with
  | Some st => st =? 504
  | None => false
  end.

(** The closure [makeRequest], which the three exported functions define with
    the same text: they differ in the axios call [rq] and in what they read
    from the response ([extract], evaluated inside the [try], so that what
    it throws is caught there). [retryCount] is the captured counter.
    The recursion is on [fuel]; [Z.to_nat (maxRetries - retryCount)] is
    enough (lemma [makeRequest_total]). *)
Fixpoint makeRequest {A} (rq : request) (extract : option body -> error + A)
    (maxRetries retryDelay : Z) (fuel : nat) (retryCount : Z) : M A :=
  try_catch
    (rp <- http rq ;;
     match rp with
     | Fulfilled d =>
         match extract d with
         | inr a => ret a
         | inl e => throw e
         end
     | Rejected m st => throw (AxiosError m st)
     end)
    (fun e =>
       if is_504 e && (retryCount <? maxRetries) then
         let retryCount := retryCount + 1 in
         let backoffDelay := retryDelay * 2 ^ (retryCount - 1) in
         delay backoffDelay ;;;
         match fuel with
         | O => diverge
         | S fuel' => makeRequest rq extract maxRetries retryDelay fuel' retryCount
         end
       else
         handleError e ;;;
         throw e).

Definition bearer (apiKey : value) : string := "Bearer " +:+ template apiKey.

(** [response.data.jobId]; on an empty body the property of the empty
    string is read, which is [undefined]. *)
Definition read_jobId (d : option body) : error + value :=
  match d with
  | Some b => inr (data_jobId b)
  | None => inr VUndefined
  end.

(** [response.data.status] *)
Definition read_status (d : option body) : error + value :=
  match d with
  | Some b => inr (data_status b)
  | None => inr VUndefined
  end.

(** [response.data] *)
Definition read_data (d : option body) : error + option body := inr d.

Definition createExportJob (apiKey dataURL : value) (data : export_data)
    (maxRetries retryDelay : Z) : M value :=
  makeRequest (PostExport (template dataURL) (bearer apiKey) data) read_jobId
    maxRetries retryDelay (Z.to_nat maxRetries) 0.

Definition getJobStatus (apiKey dataURL jobId : value)
    (maxRetries retryDelay : Z) : M value :=
  if negb (truthy jobId) then ret VUndefined
  else
    let statusUrl := template dataURL +:+ "/job/" +:+ template jobId in
    makeRequest (GetJob statusUrl (bearer apiKey)) read_status
      maxRetries retryDelay (Z.to_nat maxRetries) 0.

Definition getJobResults (apiKey dataURL jobId : value) (offset limit : Z)
    (maxRetries retryDelay : Z) : M (option body) :=
  if negb (truthy jobId) then ret None
  else
    let resultsUrl := template dataURL +:+ "/job/" +:+ template jobId +:+ "/results" in
    makeRequest (GetJobPage resultsUrl (bearer apiKey) offset limit) read_data
      maxRetries retryDelay (Z.to_nat maxRetries) 0.

(** Default values of the parameters [maxRetries] and [retryDelay]. *)
Definition default_maxRetries : Z := 3.
Definition default_retryDelay : Z := 2000.

(** ** file.js *)

(** [readEnvJson]: the parsed [env.json], of which the caller reads the
    entries [UPLIFT_API_KEY] and [UPLIFT_DATA_URL]. *)
Definition readEnvJson : M (value * value) :=
  fun E st =>
    match env_json E with
    | inl m => (Throw (Error ("Error reading or parsing env.json: " +:+ m)), st)
    | inr kv => (Ret kv, st)
    end.

(** [fs.existsSync] on a folder. *)
Definition existsSync (path : string) : M bool :=
  fun _ st => (Ret (bool_decide (path ∈ dirs st)), st).

(** The separator of paths, ["/"]. *)
Definition separator : Ascii.ascii := Ascii.ascii_of_nat 47.

(** The folders above [path]: what [path] reads up to each of its
    separators, but for the working directory and the root, which are there
    already. Paths are taken as written. [pre] is what has been read. *)
Fixpoint ancestors_from (pre path : string) : list string :=
  match path with
  | EmptyString => []
  | String c path' =>
      (if Ascii.eqb c separator && negb (String.eqb pre ".") && negb (String.eqb pre "")
       then [pre] else [])
      ++ ancestors_from (pre +:+ String c EmptyString) path'
  end.

Definition ancestors (path : string) : list string := ancestors_from "" path.

(** [fs.mkdirSync(path, { recursive: true })]: creates the folder, and
    those of the folders above it that are missing. *)
Definition mkdirSync (path : string) : M unit :=
  fun E st =>
    match fs_fault E path with
    | Some m => (Throw (Error m), st)
    | None =>
        (Ret tt, {| ncalls := ncalls st;
                    dirs := {[ path ]} ∪ list_to_set (ancestors path) ∪ dirs st;
                    files := files st; log := log st |})
    end.

(** [fs.appendFileSync]: creates the file when it does not exist, and writes
    [output] after what the file holds otherwise. *)
Definition appendFileSync (path : string) (output : list csv_record) : M unit :=
  fun E st =>
    match fs_fault E path with
    | Some m => (Throw (Error m), st)
    | None =>
        (Ret tt, {| ncalls := ncalls st; dirs := dirs st;
                    files := <[ path := default [] (files st !! path) ++ output ]> (files st);
                    log := log st |})
    end.

(** [stringify(rows, { header: true, columns })] of csv-stringify: a header
    record with the column names, then one record per row with the row's
    value in each column. *)
Definition stringify (rows : list row) (columns : list string) : list csv_record :=
  Header columns :: map (fun r => Data (map (fun c => prop c r) columns)) rows.

(** [writeCsvFile]. The call itself is recorded in the trace. *)
Definition writeCsvFile (rows : list row) (athleteId sessionId : value) : M unit :=
  emit (EvWriteCsv rows athleteId sessionId) ;;;
  let folderPath := "./data/" +:+ template athleteId in
  try_catch
    (ex <- existsSync folderPath ;;
     if negb ex then mkdirSync folderPath else ret tt)
    (fun err =>
       emit (EvConsoleError ("Error creating folder for athleteId " +:+ template athleteId +:+ ":")) ;;;
       throw (Error ("Failed to create folder for athleteId " +:+ template athleteId
                     +:+ ": " +:+ error_message err))) ;;;
  let filePath := folderPath +:+ "/session_" +:+ template sessionId +:+ ".csv" in
  match rows with
  | [] => throw (TypeError "Cannot convert undefined or null to object")
  | row0 :: _ =>
      let headers := keys row0 in
      try_catch
        (let output := stringify rows headers in
         try_catch
           (appendFileSync filePath output)
           (fun fileErr =>
              emit (EvConsoleError ("Error writing to file " +:+ filePath +:+ ":")) ;;;
              throw (Error ("Failed to write to CSV file: " +:+ error_message fileErr))))
        (fun stringifyErr =>
           emit (EvConsoleError "Error stringifying rows:") ;;;
           throw (Error ("Failed to stringify rows for CSV: " +:+ error_message stringifyErr)))
  end.

(** ** app.js *)

(** [checkJobStatus]. Each round of the [do ... while] either leaves the
    function ([Some v] for [return v], or a throw) or reaches the loop
    condition ([None]). *)
Fixpoint checkJobStatus (apiKey dataURL jobId : value) (fuel : nat) : M value :=
  match fuel with
  | O => diverge
  | S fuel' =>
      status <- getJobStatus apiKey dataURL jobId default_maxRetries default_retryDelay ;;
      r <- (if strict_eq status (VStr "COMPLETED") then
              ret (Some (VBool true))
            else if strict_eq status (VStr "FAILED") || strict_eq status (VStr "CANCELED") then
              throw (Error ("Job " +:+ template status +:+ ". Unable to retrieve result."))
            else if strict_eq status (VStr "RUNNING") then
              delay 5000 ;;; ret None
            else
              throw (Error ("Unexpected Job Status: " +:+ template status))) ;;
      match r with
      | Some v => ret v
      | None =>
          if strict_eq status (VStr "RUNNING")
          then checkJobStatus apiKey dataURL jobId fuel'
          else ret VUndefined
      end
  end.

(** The three locals of [handleDataExport] that the row loop updates. *)
Record buffer : Type := {
  sessionId : value;
  athleteId : value;
  rowsToWrite : list row
}.

Definition no_buffer : buffer :=
  {| sessionId := VNull; athleteId := VNull; rowsToWrite := [] |}.

(** [if (rowsToWrite.length > 0) { writeCsvFile(...); rowsToWrite = []; }] *)
Definition saveAccumulated (p : buffer) : M buffer :=
  if (0 <? Z.of_nat (length (rowsToWrite p))) then
    writeCsvFile (rowsToWrite p) (athleteId p) (sessionId p) ;;;
    ret {| sessionId := sessionId p; athleteId := athleteId p; rowsToWrite := [] |}
  else ret p.

(** The body of [for (const row of result.rows)]. *)
Definition processRow (p : buffer) (r : row) : M buffer :=
  let currentSessionId := prop "sessionid" r in
  let currentAthleteId := prop "athleteid" r in
  p1 <- (if truthy (athleteId p) && strict_neq (athleteId p) currentAthleteId
         then saveAccumulated p else ret p) ;;
  p2 <- (if truthy (sessionId p1) && strict_neq (sessionId p1) currentSessionId
         then saveAccumulated p1 else ret p1) ;;
  ret {| sessionId := currentSessionId; athleteId := currentAthleteId;
         rowsToWrite := rowsToWrite p2 ++ [r] |}.

Fixpoint processRows (p : buffer) (rows : list row) : M buffer :=
  match rows with
  | [] => ret p
  | r :: rows' => p' <- processRow p r ;; processRows p' rows'
  end.

(** The [while (true)] of [handleDataExport]. The function that [app.js]
    imports as [getJobResult] is the one [api.js] exports as
    [getJobResults]. *)
Fixpoint fetchPages (apiKey dataURL jobId : value) (limit : Z) (fuel : nat)
    (offset : Z) (p : buffer) : M buffer :=
  match fuel with
  | O => diverge
  | S fuel' =>
      result <- getJobResults apiKey dataURL jobId offset limit
                  default_maxRetries default_retryDelay ;;
      match result with
      | None => ret p
      | Some b =>
          match data_rows b with
          | None => throw (TypeError "Cannot read properties of undefined (reading 'length')")
          | Some rows =>
              if Z.of_nat (length rows) =? 0 then ret p
              else
                p' <- processRows p rows ;;
                let offset := offset + Z.of_nat (length rows) in
                delay 1000 ;;;
                fetchPages apiKey dataURL jobId limit fuel' offset p'
          end
      end
  end.

Definition handleDataExport (apiKey dataURL jobId : value) (offset limit : Z)
    (fuel : nat) : M unit :=
  try_catch
    (p <- fetchPages apiKey dataURL jobId limit fuel offset no_buffer ;;
     if 0 <? Z.of_nat (length (rowsToWrite p)) then
       writeCsvFile (rowsToWrite p) (athleteId p) (sessionId p)
     else ret tt)
    (fun error =>
       emit (EvConsoleError "Error during data export:") ;;;
       throw (Error "Failed to export data due to an error in fetching or saving data.")).

Definition categories : list (string * string) :=
  [("baseball", "hitting"); ("baseball", "pitching")].

(** The body of [for (const category of categories)]. *)
Definition exportCategory (apiKey dataURL : value) (category : string * string)
    (fuel : nat) : M unit :=
  let offset := 0 in
  let limit := 500 in
  try_catch
    (let data := {| activity := category.1; movement := category.2;
                    startTime := 1604807785; endTime := VUndefined;
                    dateMode := "last_modified" |} in
     jobId <- createExportJob apiKey dataURL data default_maxRetries default_retryDelay ;;
     if truthy jobId then
       status <- checkJobStatus apiKey dataURL jobId fuel ;;
       if truthy status then handleDataExport apiKey dataURL jobId offset limit fuel
       else ret tt
     else ret tt)
    (fun error =>
       emit (EvConsoleError ("Error processing category: " +:+ category.1 +:+ " - "
                             +:+ category.2 +:+ ":")) ;;;
       throw error).

Fixpoint exportCategories (apiKey dataURL : value) (cs : list (string * string))
    (fuel : nat) : M unit :=
  match cs with
  | [] => ret tt
  | category :: cs' =>
      exportCategory apiKey dataURL category fuel ;;;
      exportCategories apiKey dataURL cs' fuel
  end.

Definition handleExportProcess (fuel : nat) : M unit :=
  kv <- readEnvJson ;;
  let apiKey := kv.1 in
  let dataURL := kv.2 in
  if negb (truthy apiKey) || negb (truthy dataURL) then
    throw (Error "Missing API Key or Data URL from env.json.")
  else
    exportCategories apiKey dataURL categories fuel.

(** ** api.js without retries *)

(** The second version of [api.js]: the same three functions, each a single
    attempt. Its [handleError] has the text of the one above. *)
Module NoRetry.

Definition createExportJob (apiKey dataURL : value) (data : export_data) : M value :=
  try_catch
    (rp <- http (PostExport (template dataURL) (bearer apiKey) data) ;;
     match rp with
     | Fulfilled d => match read_jobId d with inr a => ret a | inl e => throw e end
     | Rejected m st => throw (AxiosError m st)
     end)
    (fun error => handleError error ;;; throw error).

Definition getJobStatus (apiKey dataURL jobId : value) : M value :=
  if negb (truthy jobId) then ret VUndefined
  else
    let statusUrl := template dataURL +:+ "/job/" +:+ template jobId in
    try_catch
      (rp <- http (GetJob statusUrl (bearer apiKey)) ;;
       match rp with
       | Fulfilled d => match read_status d with inr a => ret a | inl e => throw e end
       | Rejected m st => throw (AxiosError m st)
       end)
      (fun error => handleError error ;;; throw error).

Definition getJobResults (apiKey dataURL jobId : value) (offset limit : Z)
    : M (option body) :=
  if negb (truthy jobId) then ret None
  else
    let resultsUrl := template dataURL +:+ "/job/" +:+ template jobId +:+ "/results" in
    try_catch
      (rp <- http (GetJobPage resultsUrl (bearer apiKey) offset limit) ;;
       match rp with
       | Fulfilled d => ret d
       | Rejected m st => throw (AxiosError m st)
       end)
      (fun error => handleError error ;;; throw error).

End NoRetry.

(** ** dataExportDemo.js *)

(** The stand-alone demo. [token] and [exportUrl] are the two values that
    the script reads from the process environment. *)
Module Demo.

Definition handleError (e : error) : M unit :=
  match e with
  | AxiosError _ (Some st) =>
      if st =? 400 then
        emit (EvConsoleError "Bad Request: Please check the job ID or request parameters.")
      else if st =? 401 then
        emit (EvConsoleError "Unauthorized: Check your authorization token.")
      else if st =? 403 then
        emit (EvConsoleError "Forbidden: You do not have access to this resource.")
      else if st =? 404 then
        emit (EvConsoleError "Not Found: The specified job ID does not exist or has no result.")
      else if st =? 429 then
        emit (EvConsoleError "Too Many Requests: You are being rate limited. Try again later.")
      else if st =? 500 then
        emit (EvConsoleError "Internal Server Error: Something went wrong on the server.")
      else
        emit (EvConsoleError ("Error " +:+ pretty st +:+ ":"))
  | _ => emit (EvConsoleError ("Error: " +:+ error_message e))
  end.

Definition createExportJob (token exportUrl : value) (data : export_data) : M value :=
  try_catch
    (rp <- http (PostExport (template exportUrl) (bearer token) data) ;;
     match rp with
     | Fulfilled d => match read_jobId d with inr a => ret a | inl e => throw e end
     | Rejected m st => throw (AxiosError m st)
     end)
    (fun error => handleError error ;;; throw error).

Definition getJobStatus (token exportUrl jobId : value) : M value :=
  if negb (truthy jobId) then ret VUndefined
  else
    let statusUrl := template exportUrl +:+ "/job/" +:+ template jobId in
    try_catch
      (rp <- http (GetJob statusUrl (bearer token)) ;;
       match rp with
       | Fulfilled d => match read_status d with inr a => ret a | inl e => throw e end
       | Rejected m st => throw (AxiosError m st)
       end)
      (fun error => handleError error ;;; throw error).

Definition getJobResult (token exportUrl jobId : value) (offset limit : Z)
    : M (option body) :=
  if negb (truthy jobId) then ret None
  else
    let resultUrl := template exportUrl +:+ "/job/" +:+ template jobId +:+ "/result" in
    try_catch
      (rp <- http (GetJobPage resultUrl (bearer token) offset limit) ;;
       match rp with
       | Fulfilled d => ret d
       | Rejected m st => throw (AxiosError m st)
       end)
      (fun error => handleError error ;;; throw error).

(** The [do ... while] of [getExportData]. A round leaves the function with
    the value it returns ([inl]), or reaches the loop condition ([inr]);
    the function returns [result], still [undefined], when the condition
    fails. *)
Fixpoint pollAndFetch (token exportUrl jobId : value) (offset limit : Z) (fuel : nat)
    : M (option body) :=
  match fuel with
  | O => diverge
  | S fuel' =>
      status <- getJobStatus token exportUrl jobId ;;
      r <- (if strict_eq status (VStr "COMPLETED") then
              result <- getJobResult token exportUrl jobId offset limit ;;
              ret (inl result)
            else if strict_eq status (VStr "FAILED") || strict_eq status (VStr "CANCELED") then
              emit (EvConsoleError ("Job " +:+ template status
                                    +:+ ". Unable to retrieve result.")) ;;;
              ret (inl None)
            else if strict_eq status (VStr "RUNNING") then
              delay 5000 ;;; ret (inr tt)
            else
              emit (EvConsoleError ("Unexpected Job Status: " +:+ template status)) ;;;
              ret (inl None)) ;;
      match r with
      | inl result => ret result
      | inr _ =>
          if strict_eq status (VStr "RUNNING")
          then pollAndFetch token exportUrl jobId offset limit fuel'
          else ret None
      end
  end.

Definition getExportData (token exportUrl jobId : value) (offset limit : Z) (fuel : nat)
    : M (option body) :=
  try_catch
    (pollAndFetch token exportUrl jobId offset limit fuel)
    (fun error =>
       emit (EvConsoleError
               "An error occurred while checking job status or retrieving result.") ;;;
       ret None).

(** The [do ... while] over the pages of a job, in the loop of the script. *)
Fixpoint readPages (token exportUrl jobId : value) (limit : Z) (fuel : nat) (offset : Z)
    : M unit :=
  match fuel with
  | O => diverge
  | S fuel' =>
      result <- getExportData token exportUrl jobId offset limit fuel ;;
      match result with
      | None => ret tt
      | Some b =>
          match data_rows b with
          | None => throw (TypeError "Cannot read properties of undefined (reading 'length')")
          | Some rows =>
              let offset := offset + Z.of_nat (length rows) in
              if 0 <? Z.of_nat (length rows)
              then readPages token exportUrl jobId limit fuel' offset
              else ret tt
          end
      end
  end.

(** The body of the loop over the categories, and the loop. *)
Definition exportCategory (token exportUrl : value) (e : string * string) (fuel : nat)
    : M unit :=
  let offset := 0 in
  let limit := 500 in
  jobId <- createExportJob token exportUrl
             {| activity := e.1; movement := e.2; startTime := 1604807785;
                endTime := VUndefined; dateMode := "last_modified" |} ;;
  if truthy jobId then readPages token exportUrl jobId limit fuel offset
  else ret tt.

Fixpoint exportCategories (token exportUrl : value) (cs : list (string * string))
    (fuel : nat) : M unit :=
  match cs with
  | [] => ret tt
  | e :: cs' =>
      exportCategory token exportUrl e fuel ;;;
      exportCategories token exportUrl cs' fuel
  end.

End Demo.

(** * Vocabulary of the properties *)

(** ** Observations on a trace *)

(** The backoff and pacing delays of a trace, in order. *)
Definition delays (t : list event) : list Z :=
  omap (fun ev => match ev with EvDelay ms => Some ms | _ => None end) t.

(** The requests of a trace, in order. *)
Definition requests (t : list event) : list request :=
  omap (fun ev => match ev with EvHttp rq _ => Some rq | _ => None end) t.

(** The offsets of the result-page requests of a trace, in order. *)
Definition page_offsets (t : list event) : list Z :=
  omap (fun ev => match ev with
                  | EvHttp (GetJobPage _ _ offset _) _ => Some offset
                  | _ => None
                  end) t.

(** The sink calls of a trace, in order. *)
Definition sink_calls (t : list event) : list (list row * value * value) :=
  omap (fun ev => match ev with
                  | EvWriteCsv rows a s => Some (rows, a, s)
                  | _ => None
                  end) t.

(** The rows handed to the sink, in order. *)
Definition written (t : list event) : list row :=
  concat (map (fun c => c.1.1) (sink_calls t)).

(** The statuses that the service answered to status polls, in order. *)
Definition polled_statuses (t : list event) : list value :=
  omap (fun ev => match ev with
                  | EvHttp (GetJob _ _) (Fulfilled (Some b)) => Some (data_status b)
                  | _ => None
                  end) t.

(** [spec c P]: from any state and in any environment, [c] extends the trace
    by some [t] and ends with an outcome [r] such that [P t r]. *)
Definition spec {A} (c : M A) (P : list event -> outcome A -> Prop) : Prop :=
  forall E st, exists t, log (c E st).2 = log st ++ t /\ P t (c E st).1.

(** What the [try] block of [makeRequest] makes of a reply. *)
Definition settle {A} (extract : option body -> error + A) (rp : reply) : outcome A :=
  match rp with
  | Fulfilled d => match extract d with inr a => Ret a | inl e => Throw e end
  | Rejected m status => Throw (AxiosError m status)
  end.

(** The traces of [makeRequest] started with the counter at [retryCount]:
    retries, each a failed call and its backoff delay, then a last call
    that succeeds, or fails and is reported. *)
Inductive request_trace {A} (rq : request) (extract : option body -> error + A)
    (maxRetries retryDelay : Z) : Z -> list event -> outcome A -> Prop :=
  | rt_done retryCount rp a :
      settle extract rp = Ret a ->
      request_trace rq extract maxRetries retryDelay retryCount [EvHttp rq rp] (Ret a)
  | rt_failed retryCount rp e msg :
      settle extract rp = Throw e ->
      is_504 e && (retryCount <? maxRetries) = false ->
      handleError e = emit (EvConsoleError msg) ->
      request_trace rq extract maxRetries retryDelay retryCount
        [EvHttp rq rp; EvConsoleError msg] (Throw e)
  | rt_retry retryCount rp e t r :
      settle extract rp = Throw e ->
      is_504 e = true ->
      retryCount < maxRetries ->
      request_trace rq extract maxRetries retryDelay (retryCount + 1) t r ->
      request_trace rq extract maxRetries retryDelay retryCount
        (EvHttp rq rp :: EvDelay (retryDelay * 2 ^ (retryCount + 1 - 1)) :: t) r.

(** The delay before retry number [k] is [retryDelay * 2^(k-1)]: the delays
    of [n] retries made after [retryCount] earlier ones. *)
Fixpoint backoffs (retryDelay retryCount : Z) (n : nat) : list Z :=
  match n with
  | O => []
  | S n' => retryDelay * 2 ^ (retryCount + 1 - 1) :: backoffs retryDelay (retryCount + 1) n'
  end.

(** One client operation makes at most [maxRetries] retries. *)
Definition retries_bounded {A} (maxRetries retryDelay : Z) (c : M A) : Prop :=
  forall E st, exists t,
    log (c E st).2 = log st ++ t /\
    ncalls (c E st).2 = (ncalls st + length (requests t))%nat /\
    (c E st).1 <> Diverge /\
    (length (requests t) <= Z.to_nat maxRetries + 1)%nat /\
    (length (delays t) <= Z.to_nat maxRetries)%nat /\
    delays t = backoffs retryDelay 0 (length (delays t)).

(** The result of an attempt on which the call [rq] is rejected and not
    retried: the rejection is thrown, and the trace gains the call and the
    console line [msg]. *)
Definition fails_at {A} (rq : request) (m : string) (status : option Z)
    (msg : string) (st : state) : outcome A * state :=
  (Throw (AxiosError m status),
   add_event (EvConsoleError msg)
     (add_event (EvHttp rq (Rejected m status)) (count_call st))).

(** ** Polling *)

(** An event other than a status poll that the service answered. *)
Definition unanswered (ev : event) : Prop :=
  match ev with
  | EvHttp (GetJob _ _) (Fulfilled (Some _)) => False
  | _ => True
  end.

(** [status === 'FAILED' || status === 'CANCELED'] *)
Definition terminal_failure (status : value) : bool :=
  strict_eq status (VStr "FAILED") || strict_eq status (VStr "CANCELED").

(** A status poll that the service answered with FAILED or CANCELED. *)
Definition is_terminal_poll (ev : event) : bool :=
  match ev with
  | EvHttp (GetJob _ _) (Fulfilled (Some b)) => terminal_failure (data_status b)
  | _ => false
  end.

(** The error that the poller throws on a status that is neither COMPLETED
    nor RUNNING. *)
Definition status_error (status : value) : error :=
  if terminal_failure status
  then Error ("Job " +:+ template status +:+ ". Unable to retrieve result.")
  else Error ("Unexpected Job Status: " +:+ template status).

(** Console output: neither a request, nor a wait, nor a sink call. *)
Definition silent (ev : event) : Prop :=
  match ev with
  | EvConsoleError _ => True
  | _ => False
  end.

(** No status poll of the trace was answered with FAILED or CANCELED. *)
Definition calm (t : list event) : Prop :=
  Forall (fun ev => is_terminal_poll ev = false) t.

(** Either no poll was answered with FAILED or CANCELED, or the run threw
    and everything after the first such poll is console output. *)
Definition halted {A} (t : list event) (r : outcome A) : Prop :=
  calm t \/
  exists pre ev post e,
    t = pre ++ ev :: post /\ calm pre /\ Forall silent post /\ r = Throw e.

(** [emits Q c]: every event that [c] adds to the trace satisfies [Q]. *)
Definition emits {A} (Q : event -> Prop) (c : M A) : Prop :=
  spec c (fun t _ => Forall Q t).

(** [halts c]: what [c] adds to the trace is [halted]. *)
Definition halts {A} (c : M A) : Prop := spec c halted.

(** ** Failure of a category *)

(** The payload that the loop of [handleExportProcess] submits for a
    category. *)
Definition category_data (category : string * string) : export_data :=
  {| activity := category.1; movement := category.2; startTime := 1604807785;
     endTime := VUndefined; dateMode := "last_modified" |}.

(** The category fails with [e], leaving the state [st']: in the submission
    of its job, in the polling of that job, or in the export of its rows. *)
Inductive category_fails (apiKey dataURL : value) (category : string * string)
    (fuel : nat) (E : environment) (st : state) (e : error) (st' : state) : Prop :=
  | submission_fails :
      createExportJob apiKey dataURL (category_data category)
        default_maxRetries default_retryDelay E st = (Throw e, st') ->
      category_fails apiKey dataURL category fuel E st e st'
  | polling_fails jobId st1 :
      createExportJob apiKey dataURL (category_data category)
        default_maxRetries default_retryDelay E st = (Ret jobId, st1) ->
      truthy jobId = true ->
      checkJobStatus apiKey dataURL jobId fuel E st1 = (Throw e, st') ->
      category_fails apiKey dataURL category fuel E st e st'
  | export_fails jobId st1 status st2 :
      createExportJob apiKey dataURL (category_data category)
        default_maxRetries default_retryDelay E st = (Ret jobId, st1) ->
      truthy jobId = true ->
      checkJobStatus apiKey dataURL jobId fuel E st1 = (Ret status, st2) ->
      handleDataExport apiKey dataURL jobId 0 500 fuel E st2 = (Throw e, st') ->
      category_fails apiKey dataURL category fuel E st e st'.

(** The console line of the [catch] of the loop body. *)
Definition category_error_line (category : string * string) : event :=
  EvConsoleError ("Error processing category: " +:+ category.1 +:+ " - "
                  +:+ category.2 +:+ ":").

(** ** The sink and the partitioner as pure functions *)

(** The folder and the file of a session. *)
Definition folder_of (a : value) : string := "./data/" +:+ template a.

Definition file_of (a s : value) : string :=
  folder_of a +:+ "/session_" +:+ template s +:+ ".csv".

(** No separator in [s]. *)
Fixpoint no_separator (s : string) : bool :=
  match s with
  | EmptyString => true
  | String c s' => negb (Ascii.eqb c separator) && no_separator s'
  end.

(** [s] names one folder or file: it is a single segment of a path, and
    neither of the two that stand for a folder named elsewhere. *)
Definition plain_name (s : string) : Prop :=
  no_separator s = true /\ s <> "" /\ s <> "." /\ s <> "..".

(** The state that a call of [writeCsvFile] leaves when the disk does not
    fail. *)
Definition after_write (rows : list row) (a s : value) (st : state) : state :=
  {| ncalls := ncalls st;
     dirs := if bool_decide (folder_of a ∈ dirs st) then dirs st
             else {[ folder_of a ]} ∪ list_to_set (ancestors (folder_of a)) ∪ dirs st;
     files := <[ file_of a s :=
                 default [] (files st !! file_of a s)
                 ++ stringify rows (keys (default [] (head rows))) ]> (files st);
     log := log st ++ [EvWriteCsv rows a s] |}.

(** A sink call: the rows and the key they are written under. *)
Definition call : Type := list row * value * value.

(** The event that records a sink call. *)
Definition call_event (c : call) : event := EvWriteCsv c.1.1 c.1.2 c.2.

Definition write_all (cs : list call) (st : state) : state :=
  foldl (fun st c => after_write c.1.1 c.1.2 c.2 st) st cs.

(** The partition key of a row. *)
Definition key (r : row) : value * value := (prop "athleteid" r, prop "sessionid" r).

(** Whether [processRow] saves the accumulated rows before it buffers [r]. *)
Definition flushes (p : buffer) (r : row) : bool :=
  (truthy (athleteId p) && strict_neq (athleteId p) (prop "athleteid" r)
   || truthy (sessionId p) && strict_neq (sessionId p) (prop "sessionid" r))
  && (0 <? Z.of_nat (length (rowsToWrite p))).

(** The sink call that [processRow] makes, if any. *)
Definition flush_of (p : buffer) (r : row) : list call :=
  if flushes p r then [(rowsToWrite p, athleteId p, sessionId p)] else [].

(** The locals after [processRow]. *)
Definition next_buffer (p : buffer) (r : row) : buffer :=
  {| sessionId := prop "sessionid" r; athleteId := prop "athleteid" r;
     rowsToWrite := (if flushes p r then [] else rowsToWrite p) ++ [r] |}.

(** The sink calls made while the rows are processed, and the locals at the
    end. *)
Fixpoint partition (p : buffer) (rows : list row) : list call * buffer :=
  match rows with
  | [] => ([], p)
  | r :: rows' =>
      let res := partition (next_buffer p r) rows' in
      (flush_of p r ++ res.1, res.2)
  end.

(** The last sink call of [handleDataExport], for what is left. *)
Definition final_flush (p : buffer) : list call :=
  if 0 <? Z.of_nat (length (rowsToWrite p))
  then [(rowsToWrite p, athleteId p, sessionId p)] else [].

(** All the sink calls of an export whose pages hold [rows]. *)
Definition export_calls (rows : list row) : list call :=
  (partition no_buffer rows).1 ++ final_flush (partition no_buffer rows).2.

(** The offsets at which pages are asked for when [pages] are received from
    [offset] on: one per page, and one more for the page that ends the
    export. *)
Fixpoint page_starts (offset : Z) (pages : list (list row)) : list Z :=
  offset ::
  match pages with
  | [] => []
  | page :: pages' => page_starts (offset + Z.of_nat (length page)) pages'
  end.

(** A reply that ends the export: no body, or no rows. *)
Definition ends_export (rp : reply) : Prop :=
  rp = Fulfilled None \/
  exists b, rp = Fulfilled (Some b) /\ data_rows b = Some [].

(** From its [k]-th call on, the service answers with one non-empty page
    after the other, then with a reply that ends the export. *)
Fixpoint serves_pages (E : environment) (k : nat) (pages : list (list row)) : Prop :=
  match pages with
  | [] => ends_export (server E k)
  | page :: pages' =>
      page <> [] /\
      (exists b, server E k = Fulfilled (Some b) /\ data_rows b = Some page) /\
      serves_pages E (S k) pages'
  end.

(** Maximal runs of consecutive rows with the same key. *)
Fixpoint runs (rows : list row) : list (list row) :=
  match rows with
  | [] => []
  | r :: rows' =>
      match runs rows' with
      | (r' :: g) :: gs =>
          if bool_decide (key r = key r') then (r :: r' :: g) :: gs
          else [r] :: (r' :: g) :: gs
      | _ => [[r]]
      end
  end.

(** The sink call that covers a run: its rows, under the key of its rows. *)
Definition call_of_run (g : list row) : call :=
  match g with
  | [] => ([], VUndefined, VUndefined)
  | r :: _ => (g, prop "athleteid" r, prop "sessionid" r)
  end.

(** Both ids of the row are truthy. *)
Definition truthy_key (r : row) : Prop :=
  truthy (prop "athleteid" r) = true /\ truthy (prop "sessionid" r) = true.

(** From its [k]-th call on, the service answers status polls with
    [statuses], in order. *)
Fixpoint serves_statuses (E : environment) (k : nat) (statuses : list value) : Prop :=
  match statuses with
  | [] => True
  | status :: statuses' =>
      (exists b, server E k = Fulfilled (Some b) /\ data_status b = status) /\
      serves_statuses E (S k) statuses'
  end.

(** The service answers its [k]-th call with the id of a new job. *)
Definition serves_job (E : environment) (k : nat) (jobId : value) : Prop :=
  exists b, server E k = Fulfilled (Some b) /\ data_jobId b = jobId.

(** The rows buffered all bear the key held in the locals, and their ids are
    truthy. *)
Definition one_key_open (p : buffer) : Prop :=
  Forall (fun r => key r = (athleteId p, sessionId p) /\ truthy_key r) (rowsToWrite p).

(** The rows of a sink call all bear the key they are written under. *)
Definition one_key_call (c : call) : Prop :=
  Forall (fun r => key r = (c.1.2, c.2)) c.1.1.

(** ** Fixtures for concrete runs *)

(** A service that answers the calls of a run with the replies of [l], in
    order, and is unreachable afterwards. *)
Definition replay (l : list reply) : nat -> reply :=
  fun k => nth k l (Rejected "Network Error" None).

(** An environment with that service, a disk that never fails, and an
    [env.json] with both entries. *)
Definition replay_env (l : list reply) : environment :=
  {| server := replay l; fs_fault := fun _ => None;
     env_json := inr (VStr "key", VStr "https://data.example") |}.

Definition job_reply (jobId : value) : reply :=
  Fulfilled (Some {| data_jobId := jobId; data_status := VUndefined; data_rows := None |}).

Definition status_reply (status : value) : reply :=
  Fulfilled (Some {| data_jobId := VUndefined; data_status := status; data_rows := None |}).

Definition page_reply (rows : list row) : reply :=
  Fulfilled (Some {| data_jobId := VUndefined; data_status := VUndefined;
                     data_rows := Some rows |}).

Definition gateway_timeout : reply :=
  Rejected "Request failed with status code 504" (Some 504).

(** A row of athlete [a] and session [s] with one measurement. *)
Definition sample_row (a s : value) (n : Z) : row :=
  [("athleteid", a); ("sessionid", s); ("metric", VNum n)].

(** A page of [n] rows of one session. *)
Definition sample_page (a s : value) (n : nat) : list row :=
  map (fun i => sample_row a s (Z.of_nat i)) (seq 0 n).

(** ** Gateway timeouts *)

(** From its [k]-th call on, the service answers [n] calls with 504. *)
Definition times_out (E : environment) (k n : nat) : Prop :=
  forall i, (i < n)%nat -> exists m, server E (k + i) = Rejected m (Some 504).

(** The state after [n] attempts of the call [rq] that were answered 504 and
    retried, the counter being [retryCount] before the first of them. *)
Fixpoint after_timeouts (rq : request) (retryDelay : Z) (E : environment)
    (retryCount : Z) (n : nat) (st : state) : state :=
  match n with
  | O => st
  | S n' =>
      after_timeouts rq retryDelay E (retryCount + 1) n'
        (add_event (EvDelay (retryDelay * 2 ^ (retryCount + 1 - 1)))
           (add_event (EvHttp rq (server E (ncalls st))) (count_call st)))
  end.

(** From its [k]-th call on, the service serves the pages, each after some
    calls (at most three) answered 504, and then a reply that ends the
    export, after [n_end] such calls. *)
Fixpoint serves_pages_retrying (E : environment) (k : nat)
    (pages : list (nat * list row)) (n_end : nat) : Prop :=
  match pages with
  | [] =>
      (n_end <= 3)%nat /\ times_out E k n_end /\ ends_export (server E (k + n_end))
  | (n, page) :: pages' =>
      (n <= 3)%nat /\ times_out E k n /\ page <> [] /\
      (exists b, server E (k + n) = Fulfilled (Some b) /\ data_rows b = Some page) /\
      serves_pages_retrying E (k + n + 1) pages' n_end
  end.

(** The offsets of the page requests then: each one repeated once per
    timeout. *)
Fixpoint retried_starts (offset : Z) (pages : list (nat * list row)) (n_end : nat)
    : list Z :=
  match pages with
  | [] => replicate (S n_end) offset
  | (n, page) :: pages' =>
      replicate (S n) offset
      ++ retried_starts (offset + Z.of_nat (length page)) pages' n_end
  end.

(** ** Exports that fail *)

(** From its [k]-th call on, the service serves the non-empty [pages] and
    then answers [last]. *)
Fixpoint serves_pages_then (E : environment) (k : nat) (pages : list (list row))
    (last : reply) : Prop :=
  match pages with
  | [] => server E k = last
  | page :: pages' =>
      page <> [] /\
      (exists b, server E k = Fulfilled (Some b) /\ data_rows b = Some page) /\
      serves_pages_then E (S k) pages' last
  end.

(** A reply on which a page request fails for good: a rejection other than
    504, or a body without a [rows] array. *)
Definition fails_page (rp : reply) : Prop :=
  (exists m status, rp = Rejected m status /\ status <> Some 504) \/
  (exists b, rp = Fulfilled (Some b) /\ data_rows b = None).

(** ** Where the requests go *)

(** The request is one that the client makes for the API key and the data
    URL: it carries the bearer token, and it goes to the data URL, to the
    path of a job under it, or to the results of a job with the page size
    500 and an offset that is not negative. *)
Definition addressed (apiKey dataURL : value) (rq : request) : Prop :=
  match rq with
  | PostExport url auth _ => url = template dataURL /\ auth = bearer apiKey
  | GetJob url auth =>
      auth = bearer apiKey /\
      exists jobId, truthy jobId = true /\
                    url = template dataURL +:+ "/job/" +:+ template jobId
  | GetJobPage url auth offset limit =>
      auth = bearer apiKey /\ limit = 500 /\ 0 <= offset /\
      exists jobId, truthy jobId = true /\
                    url = template dataURL +:+ "/job/" +:+ template jobId +:+ "/results"
  end.

Definition addressed_event (apiKey dataURL : value) (ev : event) : Prop :=
  match ev with
  | EvHttp rq _ => addressed apiKey dataURL rq
  | _ => True
  end.

(** ** What happens to the disk *)

(** The disk of [st'] extends the disk of [st]: a file of [st] is still
    there and has kept its content as a prefix; a file whose content differs
    is the file of a session; and no folder has gone. *)
Definition disk_grows (st st' : state) : Prop :=
  (forall path old,
     files st !! path = Some old ->
     exists more, files st' !! path = Some (old ++ more)) /\
  (forall path,
     files st' !! path = files st !! path \/ exists a s, path = file_of a s) /\
  dirs st ⊆ dirs st'.

(** [c] only ever extends the disk. *)
Definition append_only {A} (c : M A) : Prop :=
  forall E st, disk_grows st (c E st).2.

(** ** The demo script *)

(** A reply to a status poll on which the demo gives the job up: anything
    but a body whose status is COMPLETED or RUNNING. *)
Definition gives_up (rp : reply) : Prop :=
  forall b, rp = Fulfilled (Some b) ->
            data_status b <> VStr "COMPLETED" /\ data_status b <> VStr "RUNNING".

(** From its [k]-th call on, the service answers in turn a status poll with
    COMPLETED and a page request with the next non-empty page, and at last
    a poll with COMPLETED and a page request with a reply that ends the
    export. *)
Fixpoint serves_polled_pages (E : environment) (k : nat) (pages : list (list row))
    : Prop :=
  match pages with
  | [] =>
      (exists b, server E k = Fulfilled (Some b) /\ data_status b = VStr "COMPLETED") /\
      ends_export (server E (S k))
  | page :: pages' =>
      page <> [] /\
      (exists b, server E k = Fulfilled (Some b) /\ data_status b = VStr "COMPLETED") /\
      (exists b, server E (S k) = Fulfilled (Some b) /\ data_rows b = Some page) /\
      serves_polled_pages E (S (S k)) pages'
  end.

(** The single attempt that a function of the version of [api.js] without
    retries makes of the call [rq]. *)
Definition single_attempt {A} (rq : request) (extract : option body -> error + A)
    : M A :=
  try_catch
    (rp <- http rq ;;
     match rp with
     | Fulfilled d => match extract d with inr a => ret a | inl e => throw e end
     | Rejected m st => throw (AxiosError m st)
     end)
    (fun error => handleError error ;;; throw error).

(** * Properties *)

(** ** Observations of a concatenation *)

Lemma delays_app t1 t2 : delays (t1 ++ t2) = delays t1 ++ delays t2.
Proof. apply omap_app. Qed.

Lemma requests_app t1 t2 : requests (t1 ++ t2) = requests t1 ++ requests t2.
Proof. apply omap_app. Qed.

Lemma page_offsets_app t1 t2 :
  page_offsets (t1 ++ t2) = page_offsets t1 ++ page_offsets t2.
Proof. apply omap_app. Qed.

Lemma sink_calls_app t1 t2 : sink_calls (t1 ++ t2) = sink_calls t1 ++ sink_calls t2.
Proof. apply omap_app. Qed.

Lemma written_app t1 t2 : written (t1 ++ t2) = written t1 ++ written t2.
Proof. unfold written. by rewrite sink_calls_app, map_app, concat_app. Qed.

Lemma polled_statuses_app t1 t2 :
  polled_statuses (t1 ++ t2) = polled_statuses t1 ++ polled_statuses t2.
Proof. apply omap_app. Qed.

(** ** Rules for [spec] *)

Lemma spec_conseq {A} (c : M A) (P Q : list event -> outcome A -> Prop) :
  spec c P -> (forall t r, P t r -> Q t r) -> spec c Q.
Proof. intros Hc HPQ E st. destruct (Hc E st) as (t & Hl & HP). eauto. Qed.

Lemma spec_ret {A} (a : A) : spec (ret a) (fun t r => t = [] /\ r = Ret a).
Proof. intros E st. exists []. cbn. by rewrite app_nil_r. Qed.

Lemma spec_throw {A} e : spec (@throw A e) (fun t r => t = [] /\ r = Throw e).
Proof. intros E st. exists []. cbn. by rewrite app_nil_r. Qed.

Lemma spec_diverge {A} : spec (@diverge A) (fun t r => t = [] /\ r = Diverge).
Proof. intros E st. exists []. cbn. by rewrite app_nil_r. Qed.

Lemma spec_emit ev : spec (emit ev) (fun t r => t = [ev] /\ r = Ret tt).
Proof. intros E st. exists [ev]. by cbn. Qed.

Lemma spec_http rq :
  spec (http rq) (fun t r => exists rp, t = [EvHttp rq rp] /\ r = Ret rp).
Proof. intros E st. eexists. cbn. eauto. Qed.

Lemma spec_bind {A B} (c : M A) (k : A -> M B) P Q :
  spec c P -> (forall a, spec (k a) (Q a)) ->
  spec (bind c k)
    (fun t r => exists t1 r1, P t1 r1 /\
       match r1 with
       | Ret a => exists t2, Q a t2 r /\ t = t1 ++ t2
       | Throw e => t = t1 /\ r = Throw e
       | Diverge => t = t1 /\ r = Diverge
       end).
Proof.
  intros Hc Hk E st. unfold bind.
  destruct (Hc E st) as (t1 & Hl1 & HP).
  destruct (c E st) as [[a|e|] st1]; cbn in *.
  - destruct (Hk a E st1) as (t2 & Hl2 & HQ).
    exists (t1 ++ t2). rewrite Hl2, Hl1, app_assoc. split; [done|].
    exists t1, (Ret a). eauto.
  - exists t1. split; [done|]. exists t1, (Throw e). eauto.
  - exists t1. split; [done|]. exists t1, Diverge. eauto.
Qed.

Lemma spec_try_catch {A} (c : M A) (h : error -> M A) P Q :
  spec c P -> (forall e, spec (h e) (Q e)) ->
  spec (try_catch c h)
    (fun t r => exists t1 r1, P t1 r1 /\
       match r1 with
       | Throw e => exists t2, Q e t2 r /\ t = t1 ++ t2
       | _ => t = t1 /\ r = r1
       end).
Proof.
  intros Hc Hh E st. unfold try_catch.
  destruct (Hc E st) as (t1 & Hl1 & HP).
  destruct (c E st) as [[a|e|] st1]; cbn in *.
  - exists t1. split; [done|]. exists t1, (Ret a). eauto.
  - destruct (Hh e E st1) as (t2 & Hl2 & HQ).
    exists (t1 ++ t2). rewrite Hl2, Hl1, app_assoc. split; [done|].
    exists t1, (Throw e). eauto.
  - exists t1. split; [done|]. exists t1, Diverge. eauto.
Qed.

(** ** The retrying request *)

Lemma handleError_emits e :
  exists msg, handleError e = emit (EvConsoleError msg).
Proof.
  destruct e as [m [st|]| |]; cbn [handleError]; eauto.
  repeat case_match; eauto.
Qed.

Section MakeRequest.
Context {A : Type}.
Variable rq : request.
Variable extract : option body -> error + A.
Variables maxRetries retryDelay : Z.

(** One unfolding of the closure, for any fuel. *)
Lemma makeRequest_eq fuel retryCount E st :
  makeRequest rq extract maxRetries retryDelay fuel retryCount E st =
  let st1 := add_event (EvHttp rq (server E (ncalls st))) (count_call st) in
  match settle extract (server E (ncalls st)) with
  | Ret a => (Ret a, st1)
  | Throw e =>
      if is_504 e && (retryCount <? maxRetries) then
        let st2 := add_event (EvDelay (retryDelay * 2 ^ (retryCount + 1 - 1))) st1 in
        match fuel with
        | O => (Diverge, st2)
        | S fuel' =>
            makeRequest rq extract maxRetries retryDelay fuel' (retryCount + 1) E st2
        end
      else (handleError e ;;; throw e) E st1
  | Diverge => (Diverge, st1)
  end.
Proof.
  destruct fuel; cbn; unfold try_catch, bind, http, settle;
    destruct (server E (ncalls st)) as [d|m status]; cbn;
    try destruct (extract d); cbn; try reflexivity;
    repeat case_match; try reflexivity; simplify_eq.
Qed.

Lemma settle_not_diverge rp : settle extract rp <> Diverge.
Proof. unfold settle. by repeat case_match. Qed.

Lemma makeRequest_trace fuel : forall retryCount E st,
  maxRetries - retryCount <= Z.of_nat fuel ->
  exists t,
    log (makeRequest rq extract maxRetries retryDelay fuel retryCount E st).2
      = log st ++ t /\
    ncalls (makeRequest rq extract maxRetries retryDelay fuel retryCount E st).2
      = (ncalls st + length (requests t))%nat /\
    request_trace rq extract maxRetries retryDelay retryCount t
      (makeRequest rq extract maxRetries retryDelay fuel retryCount E st).1.
Proof.
  induction fuel as [|fuel IH]; intros retryCount E st Hfuel;
    rewrite makeRequest_eq; cbv zeta;
    destruct (settle extract (server E (ncalls st))) as [a|e|] eqn:Hs.
  1,4: exists [EvHttp rq (server E (ncalls st))]; cbn;
       split_and!; [done | lia | by constructor].
  2,4: by apply settle_not_diverge in Hs.
  - assert (Hge : (retryCount <? maxRetries) = false) by (apply Z.ltb_ge; lia).
    rewrite Hge, andb_false_r.
    destruct (handleError_emits e) as [msg Hmsg].
    rewrite Hmsg. exists [EvHttp rq (server E (ncalls st)); EvConsoleError msg].
    cbn. rewrite <- app_assoc. cbn.
    split_and!; [done | lia |]. eapply rt_failed; eauto. by rewrite Hge, andb_false_r.
  - destruct (is_504 e && (retryCount <? maxRetries)) eqn:Hre.
    + apply andb_true_iff in Hre as [H504 Hlt]. apply Z.ltb_lt in Hlt.
      edestruct (IH (retryCount + 1) E) as (t & Hl & Hn & Ht); [|
      exists (EvHttp rq (server E (ncalls st))
                :: EvDelay (retryDelay * 2 ^ (retryCount + 1 - 1)) :: t);
      rewrite Hl, Hn; cbn; rewrite <- !app_assoc; cbn;
      split_and!; [done | unfold requests; lia | eapply rt_retry; eauto] ].
      lia.
    + destruct (handleError_emits e) as [msg Hmsg].
      rewrite Hmsg. exists [EvHttp rq (server E (ncalls st)); EvConsoleError msg].
      cbn. rewrite <- app_assoc. cbn.
      split_and!; [done | lia |]. eapply rt_failed; eauto.
Qed.

(** A trace of the closure holds at most one call and one delay per retry
    still allowed, and one last call; it never runs out of fuel. *)
Lemma request_trace_bounds retryCount t r :
  request_trace rq extract maxRetries retryDelay retryCount t r ->
  r <> Diverge /\
  (length (requests t) <= Z.to_nat (maxRetries - retryCount) + 1)%nat /\
  (length (delays t) <= Z.to_nat (maxRetries - retryCount))%nat.
Proof.
  induction 1 as [rc rp a Hs|rc rp e msg Hs Hno Hmsg|rc rp e t r Hs H504 Hlt Ht IH];
    unfold requests, delays in *; cbn.
  - repeat split; [done|lia..].
  - repeat split; [done|lia..].
  - destruct IH as (Hr & Hq & Hd). repeat split; [done|lia..].
Qed.

Lemma request_trace_delays retryCount t r :
  request_trace rq extract maxRetries retryDelay retryCount t r ->
  delays t = backoffs retryDelay retryCount (length (delays t)).
Proof.
  induction 1 as [| |rc rp e t r Hs H504 Hlt Ht IH]; cbn; [done..|].
  f_equal. exact IH.
Qed.

Lemma makeRequest_retries_bounded :
  retries_bounded maxRetries retryDelay
    (makeRequest rq extract maxRetries retryDelay (Z.to_nat maxRetries) 0).
Proof.
  intros E st.
  destruct (makeRequest_trace (Z.to_nat maxRetries) 0 E st) as (t & Hl & Hn & Ht); [lia|].
  exists t. pose proof (request_trace_bounds _ _ _ Ht) as (Hr & Hq & Hd).
  rewrite Z.sub_0_r in Hq, Hd.
  split_and!; try done. by eapply request_trace_delays.
Qed.

Lemma makeRequest_fulfilled fuel retryCount E st d a :
  server E (ncalls st) = Fulfilled d ->
  extract d = inr a ->
  makeRequest rq extract maxRetries retryDelay fuel retryCount E st =
    (Ret a, add_event (EvHttp rq (Fulfilled d)) (count_call st)).
Proof.
  intros Hs Hx. rewrite makeRequest_eq. unfold settle. by rewrite Hs, Hx.
Qed.

Lemma makeRequest_retry fuel retryCount E st m :
  server E (ncalls st) = Rejected m (Some 504) ->
  retryCount < maxRetries ->
  makeRequest rq extract maxRetries retryDelay (S fuel) retryCount E st =
    makeRequest rq extract maxRetries retryDelay fuel (retryCount + 1) E
      (add_event (EvDelay (retryDelay * 2 ^ (retryCount + 1 - 1)))
         (add_event (EvHttp rq (Rejected m (Some 504))) (count_call st))).
Proof.
  intros Hs Hlt. rewrite makeRequest_eq. unfold settle. rewrite Hs.
  apply Z.ltb_lt in Hlt. cbn [is_504 response_status_of]. by rewrite Hlt.
Qed.

Lemma makeRequest_rejected fuel retryCount E st m status :
  server E (ncalls st) = Rejected m status ->
  status <> Some 504 ->
  exists msg,
    handleError (AxiosError m status) = emit (EvConsoleError msg) /\
    makeRequest rq extract maxRetries retryDelay fuel retryCount E st =
      (Throw (AxiosError m status),
       add_event (EvConsoleError msg)
         (add_event (EvHttp rq (Rejected m status)) (count_call st))).
Proof.
  intros Hs Hno. destruct (handleError_emits (AxiosError m status)) as [msg Hmsg].
  exists msg. split; [exact Hmsg|].
  rewrite makeRequest_eq. unfold settle. rewrite Hs.
  assert (is_504 (AxiosError m status) = false) as ->.
  { unfold is_504; cbn. destruct status as [s|]; [|done].
    apply Z.eqb_neq. congruence. }
  cbn [andb]. by rewrite Hmsg.
Qed.
End MakeRequest.

Lemma emit_console_inj msg msg' :
  emit (EvConsoleError msg) = emit (EvConsoleError msg') -> msg = msg'.
Proof.
  intros H.
  apply (f_equal (fun c : M unit => log (c (replay_env []) initial).2)) in H.
  cbn in H. congruence.
Qed.

(** C7. A call that fails with a status other than 504, or without any
    response, ends the operation on that attempt: the error is reported on
    the console with the line of its class and thrown again; the trace gains
    the call and that line only, hence no delay and no further call. This
    holds at any value of the retry counter, and so for [createExportJob],
    [getJobStatus] and [getJobResults] from their first attempt on. *)
Theorem terminal_failure_not_retried
    {A} (rq : request) (extract : option body -> error + A)
    (maxRetries retryDelay : Z) (fuel : nat) (retryCount : Z)
    (E : environment) (st : state) (m : string) (status : option Z) :
  server E (ncalls st) = Rejected m status ->
  status <> Some 504 ->
  exists msg,
    makeRequest rq extract maxRetries retryDelay fuel retryCount E st
    = fails_at rq m status msg st /\
    (forall apiKey dataURL data,
       createExportJob apiKey dataURL data maxRetries retryDelay E st
       = fails_at (PostExport (template dataURL) (bearer apiKey) data) m status msg st) /\
    (forall apiKey dataURL jobId, truthy jobId = true ->
       getJobStatus apiKey dataURL jobId maxRetries retryDelay E st
       = fails_at
           (GetJob (template dataURL +:+ "/job/" +:+ template jobId) (bearer apiKey))
           m status msg st) /\
    (forall apiKey dataURL jobId offset limit, truthy jobId = true ->
       getJobResults apiKey dataURL jobId offset limit maxRetries retryDelay E st
       = fails_at
           (GetJobPage (template dataURL +:+ "/job/" +:+ template jobId +:+ "/results")
              (bearer apiKey) offset limit)
           m status msg st) /\
    (status = Some 400 ->
       msg = "Bad Request: Please check the job ID or request parameters.") /\
    (status = Some 401 -> msg = "Unauthorized: Check your authorization token.") /\
    (status = Some 403 ->
       msg = "Forbidden: You do not have access to this resource.") /\
    (status = Some 404 ->
       msg = "Not Found: The specified job ID does not exist or has no results.") /\
    (status = Some 429 ->
       msg = "Too Many Requests: You are being rate limited. Try again later.") /\
    (status = Some 500 ->
       msg = "Internal Server Error: Something went wrong on the server.") /\
    (status = None -> msg = "Error: " +:+ m).
Proof.
  intros Hs Hno.
  destruct (makeRequest_rejected rq extract maxRetries retryDelay fuel retryCount
              E st m status Hs Hno) as (msg & Hmsg & Hrun).
  exists msg. unfold fails_at. split_and!; try exact Hrun.
  - intros apiKey dataURL data. unfold createExportJob.
    destruct (makeRequest_rejected (PostExport (template dataURL) (bearer apiKey) data)
                read_jobId maxRetries retryDelay (Z.to_nat maxRetries) 0
                E st m status Hs Hno) as (msg' & Hmsg' & ->).
    rewrite Hmsg in Hmsg'. apply emit_console_inj in Hmsg'. by subst.
  - intros apiKey dataURL jobId Hj. unfold getJobStatus. rewrite Hj. cbn [negb].
    destruct (makeRequest_rejected
                (GetJob (template dataURL +:+ "/job/" +:+ template jobId) (bearer apiKey))
                read_status maxRetries retryDelay (Z.to_nat maxRetries) 0
                E st m status Hs Hno) as (msg' & Hmsg' & ->).
    rewrite Hmsg in Hmsg'. apply emit_console_inj in Hmsg'. by subst.
  - intros apiKey dataURL jobId offset limit Hj. unfold getJobResults.
    rewrite Hj. cbn [negb].
    destruct (makeRequest_rejected
                (GetJobPage (template dataURL +:+ "/job/" +:+ template jobId +:+ "/results")
                   (bearer apiKey) offset limit)
                read_data maxRetries retryDelay (Z.to_nat maxRetries) 0
                E st m status Hs Hno) as (msg' & Hmsg' & ->).
    rewrite Hmsg in Hmsg'. apply emit_console_inj in Hmsg'. by subst.
  - intros ->. by apply emit_console_inj in Hmsg.
  - intros ->. by apply emit_console_inj in Hmsg.
  - intros ->. by apply emit_console_inj in Hmsg.
  - intros ->. by apply emit_console_inj in Hmsg.
  - intros ->. by apply emit_console_inj in Hmsg.
  - intros ->. by apply emit_console_inj in Hmsg.
  - intros ->. by apply emit_console_inj in Hmsg.
Qed.

(** A 401 on the first attempt of a status fetch. *)
Lemma terminal_failure_not_retried_witness :
  let E := replay_env [Rejected "Request failed with status code 401" (Some 401)] in
  exists msg,
    getJobStatus (VStr "key") (VStr "u") (VStr "job-1")
      default_maxRetries default_retryDelay E initial
    = fails_at (GetJob "u/job/job-1" "Bearer key")
        "Request failed with status code 401" (Some 401) msg initial /\
    msg = "Unauthorized: Check your authorization token.".
Proof.
  intros E.
  destruct (terminal_failure_not_retried
              (GetJob "u/job/job-1" "Bearer key") read_status
              default_maxRetries default_retryDelay 3 0 E initial
              "Request failed with status code 401" (Some 401))
    as (msg & _ & _ & Hst & _ & _ & H401 & _).
  - reflexivity.
  - discriminate.
  - exists msg. split.
    + exact (Hst (VStr "key") (VStr "u") (VStr "job-1") eq_refl).
    + exact (H401 eq_refl).
Defined.

Lemma ret_retries_bounded {A} maxRetries retryDelay (a : A) :
  retries_bounded maxRetries retryDelay (ret a).
Proof.
  intros E st. exists []. cbn. rewrite app_nil_r.
  split_and!; try done; lia.
Qed.

(** C2. A 504 met while the counter is below [maxRetries] is retried: the
    counter goes up to [attempt], the operation waits
    [retryDelay * 2^(attempt-1)] and calls again. The three operations make
    at most [maxRetries] retries, hence at most [maxRetries + 1] calls, and
    their delays are the first backoffs, 2000, 4000 and 8000 ms with the
    default values. A status fetch answered by two 504s and then COMPLETED
    waits 2000 and 4000 ms and returns COMPLETED, on which [checkJobStatus]
    returns [true]. *)
Theorem gateway_timeout_retried_with_backoff :
  (forall A (rq : request) (extract : option body -> error + A)
          maxRetries retryDelay fuel retryCount E st m,
     server E (ncalls st) = Rejected m (Some 504) ->
     retryCount < maxRetries ->
     let attempt := retryCount + 1 in
     makeRequest rq extract maxRetries retryDelay (S fuel) retryCount E st =
       makeRequest rq extract maxRetries retryDelay fuel attempt E
         (add_event (EvDelay (retryDelay * 2 ^ (attempt - 1)))
            (add_event (EvHttp rq (Rejected m (Some 504))) (count_call st)))) /\
  (forall apiKey dataURL data jobId offset limit maxRetries retryDelay,
     retries_bounded maxRetries retryDelay
       (createExportJob apiKey dataURL data maxRetries retryDelay) /\
     retries_bounded maxRetries retryDelay
       (getJobStatus apiKey dataURL jobId maxRetries retryDelay) /\
     retries_bounded maxRetries retryDelay
       (getJobResults apiKey dataURL jobId offset limit maxRetries retryDelay)) /\
  backoffs default_retryDelay 0 (Z.to_nat default_maxRetries) = [2000; 4000; 8000] /\
  (forall apiKey dataURL jobId E st m1 m2 b fuel,
     truthy jobId = true ->
     server E (ncalls st) = Rejected m1 (Some 504) ->
     server E (S (ncalls st)) = Rejected m2 (Some 504) ->
     server E (S (S (ncalls st))) = Fulfilled (Some b) ->
     data_status b = VStr "COMPLETED" ->
     let rq := GetJob (template dataURL +:+ "/job/" +:+ template jobId) (bearer apiKey) in
     let st' :=
       add_event (EvHttp rq (Fulfilled (Some b)))
         (count_call
            (add_event (EvDelay 4000)
               (add_event (EvHttp rq (Rejected m2 (Some 504)))
                  (count_call
                     (add_event (EvDelay 2000)
                        (add_event (EvHttp rq (Rejected m1 (Some 504)))
                           (count_call st))))))) in
     getJobStatus apiKey dataURL jobId default_maxRetries default_retryDelay E st
       = (Ret (VStr "COMPLETED"), st') /\
     delays (log st') = delays (log st) ++ [2000; 4000] /\
     checkJobStatus apiKey dataURL jobId (S fuel) E st = (Ret (VBool true), st')).
Proof.
  split_and!.
  - intros A rq extract maxRetries retryDelay fuel retryCount E st m Hs Hlt attempt.
    by apply makeRequest_retry.
  - intros apiKey dataURL data jobId offset limit maxRetries retryDelay.
    unfold createExportJob, getJobStatus, getJobResults.
    split_and!; [|destruct (truthy jobId); cbn [negb]..];
      auto using makeRequest_retries_bounded, ret_retries_bounded.
  - reflexivity.
  - intros apiKey dataURL jobId E st m1 m2 b fuel Hj H1 H2 H3 Hb rq st'.
    assert (Hget : getJobStatus apiKey dataURL jobId default_maxRetries
                     default_retryDelay E st = (Ret (VStr "COMPLETED"), st')).
    { unfold getJobStatus. rewrite Hj. cbn [negb]. fold rq.
      change (Z.to_nat default_maxRetries) with 3%nat.
      rewrite (makeRequest_retry _ _ _ _ _ _ _ _ m1 H1) by done.
      erewrite (makeRequest_retry _ _ _ _ _ _ _ _ m2); [|exact H2|done].
      erewrite makeRequest_fulfilled; [|exact H3|cbn; by rewrite Hb].
      reflexivity. }
    split_and!; [exact Hget| |].
    + subst st'. cbn. rewrite <- !app_assoc. cbn.
      rewrite !delays_app. reflexivity.
    + cbn [checkJobStatus]. unfold bind at 1. rewrite Hget. reflexivity.
Qed.

(** Two gateway timeouts, then COMPLETED. *)
Lemma gateway_timeout_retried_with_backoff_witness :
  let E := replay_env [gateway_timeout; gateway_timeout; status_reply (VStr "COMPLETED")] in
  (getJobStatus (VStr "key") (VStr "u") (VStr "job-1")
     default_maxRetries default_retryDelay E initial).1 = Ret (VStr "COMPLETED") /\
  delays (log (getJobStatus (VStr "key") (VStr "u") (VStr "job-1")
                 default_maxRetries default_retryDelay E initial).2) = [2000; 4000] /\
  (checkJobStatus (VStr "key") (VStr "u") (VStr "job-1") 1 E initial).1 = Ret (VBool true).
Proof.
  intros E.
  destruct gateway_timeout_retried_with_backoff as (_ & _ & _ & H).
  destruct (H (VStr "key") (VStr "u") (VStr "job-1") E initial
              "Request failed with status code 504"
              "Request failed with status code 504"
              {| data_jobId := VUndefined; data_status := VStr "COMPLETED";
                 data_rows := None |} 0%nat
              eq_refl eq_refl eq_refl eq_refl eq_refl) as (Hget & Hd & Hcheck).
  rewrite Hget, Hcheck. split_and!; [reflexivity|exact Hd|reflexivity].
Defined.

(** ** The status poller *)

Lemma unanswered_polled t : Forall unanswered t -> polled_statuses t = [].
Proof.
  induction 1 as [|ev t Hev Ht IH]; [done|].
  unfold polled_statuses in *. cbn. rewrite IH.
  destruct ev as [[]| | |]; try done. by destruct rp as [[]|].
Qed.

Lemma unanswered_calm t : Forall unanswered t -> calm t.
Proof.
  intros H. eapply Forall_impl; [exact H|].
  intros [[]| | |]; try done. by destruct rp as [[]|].
Qed.

Lemma silent_calm t : Forall silent t -> calm t.
Proof. intros H. eapply Forall_impl; [exact H|]. by intros [[]| | |]. Qed.

Lemma status_trace_shape url auth maxRetries retryDelay retryCount t r :
  request_trace (GetJob url auth) read_status maxRetries retryDelay retryCount t r ->
  match r with
  | Ret s =>
      (exists pre b,
         t = pre ++ [EvHttp (GetJob url auth) (Fulfilled (Some b))] /\
         Forall unanswered pre /\ s = data_status b) \/
      (Forall unanswered t /\ s = VUndefined)
  | _ => Forall unanswered t
  end.
Proof.
  induction 1 as [rc rp a Hs|rc rp e msg Hs Hno Hmsg|rc rp e t r Hs H504 Hlt Ht IH].
  - destruct rp as [[b|]|]; cbn in Hs; try done; simplify_eq.
    + left. by exists [], b.
    + right. by repeat constructor.
  - destruct rp as [[b|]|]; cbn in Hs; try done; by repeat constructor.
  - assert (Hrp : unanswered (EvHttp (GetJob url auth) rp))
      by (destruct rp as [[b|]|]; cbn in Hs; done).
    destruct r as [s| |].
    + destruct IH as [(pre & b & -> & Hpre & ->)|[Ht' ->]].
      * left.
        exists (EvHttp (GetJob url auth) rp
                  :: EvDelay (retryDelay * 2 ^ (rc + 1 - 1)) :: pre), b.
        split_and!; [done| |done]. by repeat constructor.
      * right. split; [|done]. by repeat constructor.
    + by repeat constructor.
    + by repeat constructor.
Qed.

(** A status fetch either is answered, by the last event of its trace, and
    returns the answered status; or returns [undefined] without any
    answered poll, for want of a job id or of a body in the reply; or throws
    without any answered poll. *)
Lemma getJobStatus_trace apiKey dataURL jobId maxRetries retryDelay :
  spec (getJobStatus apiKey dataURL jobId maxRetries retryDelay)
    (fun t r =>
       match r with
       | Ret s =>
           (exists pre url auth b,
              t = pre ++ [EvHttp (GetJob url auth) (Fulfilled (Some b))] /\
              Forall unanswered pre /\ s = data_status b) \/
           (Forall unanswered t /\ s = VUndefined)
       | Throw _ => Forall unanswered t
       | Diverge => False
       end).
Proof.
  intros E st. unfold getJobStatus. destruct (truthy jobId); cbn [negb].
  - edestruct (makeRequest_trace
                 (GetJob (template dataURL +:+ "/job/" +:+ template jobId) (bearer apiKey))
                 read_status maxRetries retryDelay (Z.to_nat maxRetries) 0 E st)
      as (t & Hl & _ & Ht); [lia|].
    exists t. split; [done|].
    pose proof (request_trace_bounds _ _ _ _ _ _ _ Ht) as (Hnd & _).
    apply status_trace_shape in Ht.
    destruct (makeRequest _ _ _ _ _ _ E st).1 as [s| |]; [|done..].
    destruct Ht as [(pre & b & -> & Hpre & ->)|[Ht ->]]; [|by right].
    left. by eexists pre, _, _, b.
  - exists []. cbn. rewrite app_nil_r. split; [done|]. by right.
Qed.

(** One round of the [do ... while]. *)
Lemma checkJobStatus_eq apiKey dataURL jobId fuel E st :
  checkJobStatus apiKey dataURL jobId (S fuel) E st =
  match getJobStatus apiKey dataURL jobId default_maxRetries default_retryDelay E st with
  | (Ret status, st1) =>
      if strict_eq status (VStr "COMPLETED") then (Ret (VBool true), st1)
      else if terminal_failure status then
        (Throw (Error ("Job " +:+ template status +:+ ". Unable to retrieve result.")), st1)
      else if strict_eq status (VStr "RUNNING") then
        checkJobStatus apiKey dataURL jobId fuel E (add_event (EvDelay 5000) st1)
      else (Throw (Error ("Unexpected Job Status: " +:+ template status)), st1)
  | (Throw e, st1) => (Throw e, st1)
  | (Diverge, st1) => (Diverge, st1)
  end.
Proof.
  cbn [checkJobStatus]. unfold bind at 1.
  destruct (getJobStatus _ _ _ _ _ E st) as [[status|e|] st1]; [|done..].
  unfold terminal_failure.
  destruct (strict_eq status (VStr "COMPLETED")); [done|].
  destruct (strict_eq status (VStr "FAILED") || strict_eq status (VStr "CANCELED")); [done|].
  destruct (strict_eq status (VStr "RUNNING")) eqn:Hrun; [|done].
  reflexivity.
Qed.

(** C3. What [checkJobStatus] does with the status that a poll returns:
    COMPLETED makes it return [true]; FAILED and CANCELED make it throw an
    error that names the state, in the state the poll left, so without any
    further poll; RUNNING makes it wait 5000 ms and go on polling; any other
    value, [undefined] included, makes it throw "Unexpected Job Status". *)
Theorem checkJobStatus_by_status
    (apiKey dataURL jobId : value) (fuel : nat) (E : environment)
    (st st1 : state) (status : value) :
  getJobStatus apiKey dataURL jobId default_maxRetries default_retryDelay E st
    = (Ret status, st1) ->
  (status = VStr "COMPLETED" ->
     checkJobStatus apiKey dataURL jobId (S fuel) E st = (Ret (VBool true), st1)) /\
  (status = VStr "FAILED" ->
     checkJobStatus apiKey dataURL jobId (S fuel) E st
     = (Throw (Error "Job FAILED. Unable to retrieve result."), st1)) /\
  (status = VStr "CANCELED" ->
     checkJobStatus apiKey dataURL jobId (S fuel) E st
     = (Throw (Error "Job CANCELED. Unable to retrieve result."), st1)) /\
  (status = VStr "RUNNING" ->
     checkJobStatus apiKey dataURL jobId (S fuel) E st
     = checkJobStatus apiKey dataURL jobId fuel E (add_event (EvDelay 5000) st1)) /\
  (status <> VStr "COMPLETED" -> status <> VStr "FAILED" ->
   status <> VStr "CANCELED" -> status <> VStr "RUNNING" ->
     checkJobStatus apiKey dataURL jobId (S fuel) E st
     = (Throw (Error ("Unexpected Job Status: " +:+ template status)), st1)) /\
  (status = VUndefined ->
     checkJobStatus apiKey dataURL jobId (S fuel) E st
     = (Throw (Error "Unexpected Job Status: undefined"), st1)).
Proof.
  intros Hget. rewrite checkJobStatus_eq, Hget.
  split_and!; try (by intros ->).
  intros H1 H2 H3 H4. unfold terminal_failure, strict_eq.
  by rewrite !bool_decide_eq_false_2.
Qed.

(** The first poll is answered RUNNING and the second FAILED. *)
Lemma checkJobStatus_by_status_witness :
  let E := replay_env [status_reply (VStr "RUNNING"); status_reply (VStr "FAILED")] in
  let rq := GetJob "u/job/job-1" "Bearer key" in
  let st1 := add_event (EvHttp rq (status_reply (VStr "RUNNING"))) (count_call initial) in
  let st2 := add_event (EvDelay 5000) st1 in
  let st3 := add_event (EvHttp rq (status_reply (VStr "FAILED"))) (count_call st2) in
  checkJobStatus (VStr "key") (VStr "u") (VStr "job-1") 2 E initial
  = (Throw (Error "Job FAILED. Unable to retrieve result."), st3).
Proof.
  intros E rq st1 st2 st3.
  destruct (checkJobStatus_by_status (VStr "key") (VStr "u") (VStr "job-1") 1 E
              initial st1 (VStr "RUNNING") eq_refl) as (_ & _ & _ & Hrun & _).
  destruct (checkJobStatus_by_status (VStr "key") (VStr "u") (VStr "job-1") 0 E
              st2 st3 (VStr "FAILED") eq_refl) as (_ & Hfail & _).
  rewrite (Hrun eq_refl). exact (Hfail eq_refl).
Defined.

(** ** Computations whose events all satisfy a predicate *)

Section Emits.
Variable Q : event -> Prop.

Lemma emits_ret {A} (a : A) : emits Q (ret a).
Proof. eapply spec_conseq; [apply spec_ret|]. by intros t r [-> _]. Qed.

Lemma emits_throw {A} e : emits Q (@throw A e).
Proof. eapply spec_conseq; [apply spec_throw|]. by intros t r [-> _]. Qed.

Lemma emits_diverge {A} : emits Q (@diverge A).
Proof. eapply spec_conseq; [apply spec_diverge|]. by intros t r [-> _]. Qed.

Lemma emits_emit ev : Q ev -> emits Q (emit ev).
Proof.
  intros Hev. eapply spec_conseq; [apply spec_emit|].
  intros t r [-> _]. by constructor.
Qed.

Lemma emits_delay ms : Q (EvDelay ms) -> emits Q (delay ms).
Proof. apply emits_emit. Qed.

Lemma emits_bind {A B} (c : M A) (k : A -> M B) :
  emits Q c -> (forall a, emits Q (k a)) -> emits Q (bind c k).
Proof.
  intros Hc Hk.
  eapply spec_conseq;
    [exact (spec_bind c k (fun t _ => Forall Q t) (fun _ t _ => Forall Q t) Hc Hk)|]; cbn.
  intros t r (t1 & r1 & H1 & H). destruct r1 as [a|e|].
  - destruct H as (t2 & H2 & ->). by apply Forall_app.
  - by destruct H as [-> _].
  - by destruct H as [-> _].
Qed.

Lemma emits_try_catch {A} (c : M A) (h : error -> M A) :
  emits Q c -> (forall e, emits Q (h e)) -> emits Q (try_catch c h).
Proof.
  intros Hc Hh.
  eapply spec_conseq;
    [exact (spec_try_catch c h (fun t _ => Forall Q t) (fun _ t _ => Forall Q t) Hc Hh)|]; cbn.
  intros t r (t1 & r1 & H1 & H). destruct r1 as [a|e|].
  - by destruct H as [-> _].
  - destruct H as (t2 & H2 & ->). by apply Forall_app.
  - by destruct H as [-> _].
Qed.

Lemma emits_handleError e : (forall msg, Q (EvConsoleError msg)) -> emits Q (handleError e).
Proof. intros HQ. destruct (handleError_emits e) as [msg ->]. apply emits_emit, HQ. Qed.

Lemma emits_makeRequest {A} rq (extract : option body -> error + A)
    maxRetries retryDelay fuel retryCount :
  (forall rp, Q (EvHttp rq rp)) ->
  (forall ms, Q (EvDelay ms)) ->
  (forall msg, Q (EvConsoleError msg)) ->
  emits Q (makeRequest rq extract maxRetries retryDelay fuel retryCount).
Proof.
  intros Hrq Hd Hc. revert retryCount.
  induction fuel as [|fuel IH]; intros retryCount; cbn [makeRequest].
  all: apply emits_try_catch; [|intros e; case_match].
  all: repeat first
    [ apply emits_bind; [|intros ?]
    | apply emits_delay | apply emits_handleError | apply emits_throw
    | apply emits_diverge | apply emits_ret | apply IH
    | (intros E st; eexists [_]; cbn; split; [done|]; by repeat constructor)
    | case_match ]; auto.
Qed.

Lemma emits_createExportJob apiKey dataURL data maxRetries retryDelay :
  (forall url auth rp, Q (EvHttp (PostExport url auth data) rp)) ->
  (forall ms, Q (EvDelay ms)) ->
  (forall msg, Q (EvConsoleError msg)) ->
  emits Q (createExportJob apiKey dataURL data maxRetries retryDelay).
Proof. intros. by apply emits_makeRequest. Qed.

Lemma emits_getJobResults apiKey dataURL jobId offset limit maxRetries retryDelay :
  (forall url auth rp, Q (EvHttp (GetJobPage url auth offset limit) rp)) ->
  (forall ms, Q (EvDelay ms)) ->
  (forall msg, Q (EvConsoleError msg)) ->
  emits Q (getJobResults apiKey dataURL jobId offset limit maxRetries retryDelay).
Proof.
  intros. unfold getJobResults. case_match; [apply emits_ret|by apply emits_makeRequest].
Qed.

Lemma emits_pure {A} (c : M A) :
  (forall E st, (c E st).2 = st) -> emits Q c.
Proof.
  intros Hc E st. exists []. rewrite Hc, app_nil_r. by split.
Qed.

Lemma emits_writeCsvFile rows a s :
  Q (EvWriteCsv rows a s) ->
  (forall msg, Q (EvConsoleError msg)) ->
  emits Q (writeCsvFile rows a s).
Proof.
  intros Hw Hc. unfold writeCsvFile.
  assert (Hmk : forall path, emits Q (mkdirSync path)).
  { intros path E st. exists []. unfold mkdirSync.
    destruct (fs_fault E path); cbn; rewrite app_nil_r; by split. }
  assert (Hap : forall path out, emits Q (appendFileSync path out)).
  { intros path out E st. exists []. unfold appendFileSync.
    destruct (fs_fault E path); cbn; rewrite app_nil_r; by split. }
  repeat first
    [ apply emits_bind; [|intros ?]
    | apply emits_try_catch; [|intros ?]
    | apply emits_emit | apply emits_throw | apply emits_ret
    | apply Hmk | apply Hap
    | (apply emits_pure; by intros)
    | case_match ]; auto.
Qed.
End Emits.

Section EmitsExport.
Variable Q : event -> Prop.
Hypothesis Q_write : forall rows a s, Q (EvWriteCsv rows a s).
Hypothesis Q_console : forall msg, Q (EvConsoleError msg).
Hypothesis Q_delay : forall ms, Q (EvDelay ms).
Hypothesis Q_page : forall url auth offset limit rp,
  Q (EvHttp (GetJobPage url auth offset limit) rp).

Lemma emits_saveAccumulated p : emits Q (saveAccumulated p).
Proof.
  unfold saveAccumulated. case_match; [|apply emits_ret].
  apply emits_bind; [by apply emits_writeCsvFile|intros _; apply emits_ret].
Qed.

Lemma emits_processRow p r : emits Q (processRow p r).
Proof.
  unfold processRow.
  repeat first
    [ apply emits_bind; [|intros ?]
    | apply emits_saveAccumulated | apply emits_ret | case_match ].
Qed.

Lemma emits_processRows rows : forall p, emits Q (processRows p rows).
Proof.
  induction rows as [|r rows IH]; intros p; cbn [processRows].
  - apply emits_ret.
  - apply emits_bind; [apply emits_processRow|intros p'; apply IH].
Qed.

Lemma emits_fetchPages apiKey dataURL jobId limit fuel :
  forall offset p, emits Q (fetchPages apiKey dataURL jobId limit fuel offset p).
Proof.
  induction fuel as [|fuel IH]; intros offset p; cbn [fetchPages].
  - apply emits_diverge.
  - apply emits_bind; [by apply emits_getJobResults|intros result].
    repeat first
      [ apply emits_bind; [|intros ?]
      | apply emits_processRows | apply emits_delay | apply emits_ret
      | apply emits_throw | apply IH | case_match ]; auto.
Qed.

Lemma emits_handleDataExport apiKey dataURL jobId offset limit fuel :
  emits Q (handleDataExport apiKey dataURL jobId offset limit fuel).
Proof.
  unfold handleDataExport. apply emits_try_catch.
  - apply emits_bind; [apply emits_fetchPages|intros p].
    case_match; [by apply emits_writeCsvFile|apply emits_ret].
  - intros e. apply emits_bind; [by apply emits_emit|intros _; apply emits_throw].
Qed.
End EmitsExport.

(** ** Runs that halt on a terminal job state *)

Lemma calm_emits {A} (c : M A) :
  emits (fun ev => is_terminal_poll ev = false) c -> halts c.
Proof. intros Hc. eapply spec_conseq; [exact Hc|]. intros t r Ht. by left. Qed.

Lemma halted_app {A} t1 t2 (r : outcome A) :
  calm t1 -> halted t2 r -> halted (t1 ++ t2) r.
Proof.
  intros H1 [H2|(pre & ev & post & e & -> & Hpre & Hpost & ->)].
  - left. by apply Forall_app.
  - right. exists (t1 ++ pre), ev, post, e. rewrite <- app_assoc.
    split_and!; try done. by apply Forall_app.
Qed.

Lemma halted_ret_calm {A} t (a : A) : halted t (Ret a) -> calm t.
Proof. by intros [H|(pre & ev & post & e & _ & _ & _ & ?)]. Qed.

Lemma halted_diverge_calm {A} t : halted t (@Diverge A) -> calm t.
Proof. by intros [H|(pre & ev & post & e & _ & _ & _ & ?)]. Qed.

Lemma halts_bind {A B} (c : M A) (k : A -> M B) :
  halts c -> (forall a, halts (k a)) -> halts (bind c k).
Proof.
  intros Hc Hk.
  eapply spec_conseq; [exact (spec_bind c k halted (fun _ => halted) Hc Hk)|]; cbn.
  intros t r (t1 & r1 & H1 & H). destruct r1 as [a|e|].
  - destruct H as (t2 & H2 & ->). apply halted_app; [|done].
    by eapply halted_ret_calm.
  - destruct H as [-> ->].
    destruct H1 as [H1|(pre & ev & post & e' & -> & Hpre & Hpost & _)]; [by left|].
    right. by exists pre, ev, post, e.
  - destruct H as [-> ->]. left. by eapply halted_diverge_calm.
Qed.

(** A handler that only writes to the console and throws. *)
Lemma halts_try_catch {A} (c : M A) (h : error -> M A) :
  halts c ->
  (forall e, spec (h e) (fun t r => Forall silent t /\ exists e', r = Throw e')) ->
  halts (try_catch c h).
Proof.
  intros Hc Hh.
  eapply spec_conseq; [exact (spec_try_catch c h halted _ Hc Hh)|]; cbn.
  intros t r (t1 & r1 & H1 & H). destruct r1 as [a|e|].
  - by destruct H as [-> ->].
  - destruct H as (t2 & [Hsil (e' & ->)] & ->).
    destruct H1 as [H1|(pre & ev & post & e'' & -> & Hpre & Hpost & _)].
    + left. apply Forall_app. split; [done|]. by apply silent_calm.
    + right. exists pre, ev, (post ++ t2), e'. rewrite <- app_assoc.
      split_and!; try done. by apply Forall_app.
  - by destruct H as [-> ->].
Qed.

Lemma checkJobStatus_halts apiKey dataURL jobId fuel :
  halts (checkJobStatus apiKey dataURL jobId fuel).
Proof.
  induction fuel as [|fuel IH]; intros E st.
  - exists []. cbn. rewrite app_nil_r. split; [done|]. left. constructor.
  - rewrite checkJobStatus_eq.
    destruct (getJobStatus_trace apiKey dataURL jobId default_maxRetries
                default_retryDelay E st) as (t1 & Hl1 & Ht1).
    destruct (getJobStatus _ _ _ _ _ E st) as [[status|e|] st1]; cbn in Hl1, Ht1.
    + destruct (strict_eq status (VStr "COMPLETED")) eqn:Hc;
        [|destruct (terminal_failure status) eqn:Hf;
          [|destruct (strict_eq status (VStr "RUNNING")) eqn:Hr]].
      * exists t1. split; [done|]. left. cbn.
        destruct Ht1 as [(pre & url & auth & b & -> & Hpre & ->)|[Hun _]]; [|by apply unanswered_calm].
        apply Forall_app. split; [by apply unanswered_calm|].
        repeat constructor. cbn. unfold terminal_failure.
        apply bool_decide_eq_true in Hc. by rewrite Hc.
      * exists t1. split; [done|]. cbn.
        destruct Ht1 as [(pre & url & auth & b & -> & Hpre & ->)|[Hun _]];
          [|left; by apply unanswered_calm].
        right. exists pre, (EvHttp (GetJob url auth) (Fulfilled (Some b))), [], 
          (Error ("Job " +:+ template (data_status b) +:+ ". Unable to retrieve result.")).
        split_and!; try done. by apply unanswered_calm.
      * destruct (IH E (add_event (EvDelay 5000) st1)) as (t2 & Hl2 & Ht2).
        exists (t1 ++ EvDelay 5000 :: t2). split.
        { rewrite Hl2. cbn. rewrite Hl1, <- !app_assoc. done. }
        apply halted_app.
        { destruct Ht1 as [(pre & url & auth & b & -> & Hpre & ->)|[Hun _]]; [|by apply unanswered_calm].
          apply Forall_app. split; [by apply unanswered_calm|].
          repeat constructor. exact Hf. }
        apply (halted_app [EvDelay 5000]); [by repeat constructor|done].
      * exists t1. split; [done|]. left. cbn.
        destruct Ht1 as [(pre & url & auth & b & -> & Hpre & ->)|[Hun _]]; [|by apply unanswered_calm].
        apply Forall_app. split; [by apply unanswered_calm|].
        repeat constructor. exact Hf.
    + exists t1. split; [done|]. left. by apply unanswered_calm.
    + done.
Qed.

Lemma is_terminal_poll_answered ev : is_terminal_poll ev = true -> ~ silent ev.
Proof. destruct ev; cbn; [by intros _ []|discriminate..]. Qed.

Lemma exportCategory_halts apiKey dataURL category fuel :
  halts (exportCategory apiKey dataURL category fuel).
Proof.
  unfold exportCategory. apply halts_try_catch.
  - apply halts_bind.
    { apply calm_emits. by apply emits_createExportJob. }
    intros jobId. case_match; [|apply calm_emits, emits_ret].
    apply halts_bind; [apply checkJobStatus_halts|].
    intros status. case_match; apply calm_emits; [|apply emits_ret].
    by apply emits_handleDataExport.
  - intros e. eapply spec_conseq.
    { apply spec_bind; [apply spec_emit|intros ?; apply spec_throw]. }
    cbn. intros t r (t1 & r1 & [? ?] & Hk). subst t1 r1.
    destruct Hk as (t2 & [? ?] & ?). subst t2 r t.
    split; [by repeat constructor|by eexists].
Qed.

Lemma exportCategories_halts apiKey dataURL cs fuel :
  halts (exportCategories apiKey dataURL cs fuel).
Proof.
  induction cs as [|category cs IH]; cbn [exportCategories].
  - apply calm_emits, emits_ret.
  - apply halts_bind; [apply exportCategory_halts|by intros _].
Qed.

Lemma handleExportProcess_halts fuel : halts (handleExportProcess fuel).
Proof.
  unfold handleExportProcess. apply halts_bind.
  - apply calm_emits, emits_pure. intros E st. unfold readEnvJson. by case_match.
  - intros kv. case_match; [apply calm_emits, emits_throw|].
    apply exportCategories_halts.
Qed.

(** In a halted trace, what follows a terminal poll is console output. *)
Lemma halted_after_terminal {A} t (r : outcome A) pre ev post :
  halted t r ->
  t = pre ++ ev :: post ->
  is_terminal_poll ev = true ->
  Forall silent post /\ exists e, r = Throw e.
Proof.
  intros [Hcalm|(pre' & ev' & post' & e & -> & Hpre & Hpost & ->)] Ht Hev.
  - subst t. apply Forall_app in Hcalm as [_ Hcalm].
    apply Forall_cons in Hcalm as [Hcalm _]. congruence.
  - split; [|by eexists].
    revert pre' Hpre Ht. induction pre as [|x pre IH]; intros pre' Hpre Ht.
    + destruct pre' as [|x' pre']; cbn in Ht.
      * by simplify_eq.
      * simplify_eq. apply Forall_cons in Hpre as [Hx _]. congruence.
    + destruct pre' as [|x' pre']; cbn in Ht; simplify_eq.
      * assert (Hin : ev ∈ pre ++ ev :: post) by set_solver.
        rewrite Forall_forall in Hpost. apply Hpost in Hin.
        by apply is_terminal_poll_answered in Hev.
      * apply Forall_cons in Hpre as [_ Hpre]. by eapply IH.
Qed.

(** C8. Once a status poll of a run of [handleExportProcess] is answered
    FAILED or CANCELED, the run throws, and the only events after that poll
    are console lines: no further status request, no result fetch, no sink
    call and no wait. *)
Theorem terminal_status_halts_run
    (fuel : nat) (E : environment) (st : state)
    (pre : list event) (ev : event) (post : list event) :
  log (handleExportProcess fuel E st).2 = log st ++ pre ++ ev :: post ->
  is_terminal_poll ev = true ->
  Forall silent post /\
  requests post = [] /\ page_offsets post = [] /\ sink_calls post = [] /\
  exists e, (handleExportProcess fuel E st).1 = Throw e.
Proof.
  intros Hlog Hev.
  destruct (handleExportProcess_halts fuel E st) as (t & Hl & Ht).
  rewrite Hl in Hlog. apply app_inv_head in Hlog.
  destruct (halted_after_terminal _ _ _ _ _ Ht Hlog Hev) as [Hsil He].
  split_and!; try done.
  all: clear -Hsil; induction Hsil as [|x post Hx _ IH]; [done|];
    destruct x; try done; exact IH.
Qed.

(** A FAILED answer to the second poll of the first job; the replies left
    over are never asked for. *)
Lemma terminal_status_halts_run_witness :
  let E := replay_env [job_reply (VStr "job-1"); status_reply (VStr "RUNNING");
                       status_reply (VStr "FAILED");
                       page_reply [sample_row (VStr "A") (VStr "S1") 1];
                       page_reply []] in
  let post := [EvConsoleError "Error processing category: baseball - hitting:"] in
  Forall silent post /\
  requests post = [] /\ page_offsets post = [] /\ sink_calls post = [] /\
  exists e, (handleExportProcess 5 E initial).1 = Throw e.
Proof.
  intros E post.
  apply (terminal_status_halts_run 5 E initial
           [EvHttp (PostExport "https://data.example" "Bearer key"
                      {| activity := "baseball"; movement := "hitting";
                         startTime := 1604807785; endTime := VUndefined;
                         dateMode := "last_modified" |})
                   (job_reply (VStr "job-1"));
            EvHttp (GetJob "https://data.example/job/job-1" "Bearer key")
                   (status_reply (VStr "RUNNING"));
            EvDelay 5000]
           (EvHttp (GetJob "https://data.example/job/job-1" "Bearer key")
                   (status_reply (VStr "FAILED")))
           post).
  - vm_compute. reflexivity.
  - reflexivity.
Defined.

(** The outcomes of the poller: a return value that is [true], a throw, or,
    when the fuel runs out, as many polls answered RUNNING as the fuel
    allowed. *)
Lemma checkJobStatus_outcome apiKey dataURL jobId fuel : forall E st,
  match (checkJobStatus apiKey dataURL jobId fuel E st).1 with
  | Ret v => v = VBool true
  | Throw _ => True
  | Diverge =>
      exists t,
        log (checkJobStatus apiKey dataURL jobId fuel E st).2 = log st ++ t /\
        polled_statuses t = repeat (VStr "RUNNING") fuel
  end.
Proof.
  induction fuel as [|fuel IH]; intros E st.
  - cbn. exists []. by rewrite app_nil_r.
  - rewrite checkJobStatus_eq.
    destruct (getJobStatus_trace apiKey dataURL jobId default_maxRetries
                default_retryDelay E st) as (t1 & Hl1 & Ht1).
    destruct (getJobStatus _ _ _ _ _ E st) as [[status|e|] st1]; cbn in Hl1, Ht1;
      [|done..].
    destruct (strict_eq status (VStr "COMPLETED")); [done|].
    destruct (terminal_failure status); [done|].
    destruct (strict_eq status (VStr "RUNNING")) eqn:Hr; [|done].
    apply bool_decide_eq_true in Hr. subst status.
    specialize (IH E (add_event (EvDelay 5000) st1)).
    destruct (checkJobStatus _ _ _ fuel E _) as [[v|e|] st2]; cbn in IH |- *; try done.
    destruct IH as (t2 & Hl2 & Ht2).
    destruct Ht1 as [(pre & url & auth & b & -> & Hpre & Hb)|[_ ?]]; [|done].
    exists ((pre ++ [EvHttp (GetJob url auth) (Fulfilled (Some b))]) ++ EvDelay 5000 :: t2).
    split.
    + rewrite Hl2, Hl1, <- !app_assoc. done.
    + rewrite !polled_statuses_app, (unanswered_polled pre Hpre).
      change (EvDelay 5000 :: t2) with ([EvDelay 5000] ++ t2).
      rewrite polled_statuses_app, Ht2. cbn. by rewrite <- Hb.
Qed.

(** What a status fetch throws is the rejection of its request. *)
Lemma status_trace_error url auth maxRetries retryDelay retryCount t e :
  request_trace (GetJob url auth) read_status maxRetries retryDelay retryCount t (Throw e) ->
  exists m status, e = AxiosError m status.
Proof.
  remember (Throw e) as r eqn:Hr.
  induction 1 as [rc rp a Hs|rc rp e' msg Hs Hno Hmsg|rc rp e' t r Hs H504 Hlt Ht IH].
  - done.
  - simplify_eq. destruct rp as [[b|]|m status]; cbn in Hs; simplify_eq. by eexists _, _.
  - by apply IH.
Qed.

Lemma getJobStatus_throws apiKey dataURL jobId maxRetries retryDelay E st e st' :
  getJobStatus apiKey dataURL jobId maxRetries retryDelay E st = (Throw e, st') ->
  exists m status, e = AxiosError m status.
Proof.
  unfold getJobStatus. destruct (truthy jobId); cbn [negb]; [|done].
  intros Hrun.
  edestruct (makeRequest_trace
               (GetJob (template dataURL +:+ "/job/" +:+ template jobId) (bearer apiKey))
               read_status maxRetries retryDelay (Z.to_nat maxRetries) 0 E st)
    as (t & _ & _ & Ht); [lia|].
  cbv zeta in Hrun. rewrite Hrun in Ht. by eapply status_trace_error.
Qed.

(** The runs of the poller, by the statuses that the polls were answered
    with. A run that returns has polled RUNNING some times and then
    COMPLETED, with its last request. A run that throws has polled RUNNING
    some times and then either a status that is neither COMPLETED nor
    RUNNING, of which the error tells, or nothing: the status request was
    rejected, or no status was there to read. *)
Lemma checkJobStatus_polled apiKey dataURL jobId fuel : forall E st,
  exists t,
    log (checkJobStatus apiKey dataURL jobId fuel E st).2 = log st ++ t /\
    match (checkJobStatus apiKey dataURL jobId fuel E st).1 with
    | Ret v =>
        v = VBool true /\
        exists n pre url auth b,
          t = pre ++ [EvHttp (GetJob url auth) (Fulfilled (Some b))] /\
          data_status b = VStr "COMPLETED" /\
          polled_statuses pre = repeat (VStr "RUNNING") n
    | Throw e =>
        exists n,
          (exists status,
             polled_statuses t = repeat (VStr "RUNNING") n ++ [status] /\
             status <> VStr "COMPLETED" /\ status <> VStr "RUNNING" /\
             e = status_error status) \/
          (polled_statuses t = repeat (VStr "RUNNING") n /\
           (e = Error "Unexpected Job Status: undefined" \/
            exists m status, e = AxiosError m status))
    | Diverge => polled_statuses t = repeat (VStr "RUNNING") fuel
    end.
Proof.
  induction fuel as [|fuel IH]; intros E st.
  - cbn. exists []. by rewrite app_nil_r.
  - rewrite checkJobStatus_eq.
    destruct (getJobStatus_trace apiKey dataURL jobId default_maxRetries
                default_retryDelay E st) as (t1 & Hl1 & Ht1).
    pose proof (getJobStatus_throws apiKey dataURL jobId default_maxRetries
                  default_retryDelay E st) as Hthrows.
    destruct (getJobStatus _ _ _ _ _ E st) as [[status|e|] st1]; cbn in Hl1, Ht1;
      [| |done].
    + destruct Ht1 as [(pre & url & auth & b & -> & Hpre & ->)|[Hun ->]].
      * assert (Hp : polled_statuses (pre ++ [EvHttp (GetJob url auth) (Fulfilled (Some b))])
                     = [data_status b]).
        { by rewrite polled_statuses_app, (unanswered_polled pre Hpre). }
        destruct (strict_eq (data_status b) (VStr "COMPLETED")) eqn:Hc;
          [|destruct (terminal_failure (data_status b)) eqn:Hf;
            [|destruct (strict_eq (data_status b) (VStr "RUNNING")) eqn:Hr]].
        -- apply bool_decide_eq_true in Hc. eexists. split; [exact Hl1|].
           cbn. split; [done|]. exists 0%nat, pre, url, auth, b.
           split_and!; [done|done|]. by apply unanswered_polled.
        -- apply bool_decide_eq_false in Hc. eexists. split; [exact Hl1|].
           cbn. exists 0%nat. left. exists (data_status b).
           split_and!; [done|done| |by unfold status_error; rewrite Hf].
           intros Hrun. by rewrite Hrun in Hf.
        -- apply bool_decide_eq_true in Hr.
           destruct (IH E (add_event (EvDelay 5000) st1)) as (t2 & Hl2 & Ht2).
           exists ((pre ++ [EvHttp (GetJob url auth) (Fulfilled (Some b))])
                   ++ EvDelay 5000 :: t2).
           split; [rewrite Hl2; cbn; rewrite Hl1, <- !app_assoc; done|].
           assert (Hq : forall t', polled_statuses
                          ((pre ++ [EvHttp (GetJob url auth) (Fulfilled (Some b))])
                           ++ EvDelay 5000 :: t')
                        = VStr "RUNNING" :: polled_statuses t').
           { intros t'. rewrite polled_statuses_app, Hp, Hr.
             change (EvDelay 5000 :: t') with ([EvDelay 5000] ++ t').
             by rewrite polled_statuses_app. }
           destruct (checkJobStatus _ _ _ fuel E _).1 as [v|e|].
           ++ destruct Ht2 as (-> & n & pre2 & url2 & auth2 & b2 & -> & Hb2 & Hpre2).
              split; [done|].
              exists (S n), ((pre ++ [EvHttp (GetJob url auth) (Fulfilled (Some b))])
                             ++ EvDelay 5000 :: pre2), url2, auth2, b2.
              split_and!; [by rewrite <- !app_assoc|done|]. by rewrite Hq, Hpre2.
           ++ destruct Ht2 as (n & [(s & Hs & Hsc & Hsr & ->)|[Hs He]]); exists (S n).
              ** left. exists s. split_and!; try done. by rewrite Hq, Hs.
              ** right. split; [|done]. by rewrite Hq, Hs.
           ++ by rewrite Hq, Ht2.
        -- apply bool_decide_eq_false in Hc. apply bool_decide_eq_false in Hr.
           eexists. split; [exact Hl1|].
           cbn. exists 0%nat. left. exists (data_status b).
           split_and!; [done|done|done|by unfold status_error; rewrite Hf].
      * eexists. split; [exact Hl1|]. cbn. exists 0%nat. right.
        split; [by apply unanswered_polled|by left].
    + eexists. split; [exact Hl1|]. cbn. exists 0%nat. right.
      split; [by apply unanswered_polled|]. right. by eapply Hthrows.
Qed.

(** C10. [checkJobStatus] returns nothing but [true], and only after
    COMPLETED: in a run that returns, the polls answered before the last
    request all said RUNNING and the last request is a poll answered
    COMPLETED. A run that throws has polled a status that is neither
    COMPLETED nor RUNNING (its error names it), or its status request was
    rejected, or there was no status to read; so a run in which a poll is
    answered with anything but RUNNING or COMPLETED throws. With the fuel
    used up, every poll so far said RUNNING. So when the poller returns
    for the job that [createExportJob] submitted, the guard [if (status)]
    passes and the category goes on with [handleDataExport] from the state
    that polling left. *)
Theorem checkJobStatus_never_falsy
    (apiKey dataURL jobId : value) (fuel : nat) (E : environment) (st : state) :
  (exists t,
     log (checkJobStatus apiKey dataURL jobId fuel E st).2 = log st ++ t /\
     match (checkJobStatus apiKey dataURL jobId fuel E st).1 with
     | Ret v =>
         v = VBool true /\
         exists n pre url auth b,
           t = pre ++ [EvHttp (GetJob url auth) (Fulfilled (Some b))] /\
           data_status b = VStr "COMPLETED" /\
           polled_statuses pre = repeat (VStr "RUNNING") n
     | Throw e =>
         exists n,
           (exists status,
              polled_statuses t = repeat (VStr "RUNNING") n ++ [status] /\
              status <> VStr "COMPLETED" /\ status <> VStr "RUNNING" /\
              e = status_error status) \/
           (polled_statuses t = repeat (VStr "RUNNING") n /\
            (e = Error "Unexpected Job Status: undefined" \/
             exists m status, e = AxiosError m status))
     | Diverge => polled_statuses t = repeat (VStr "RUNNING") fuel
     end /\
     (forall status,
        status ∈ polled_statuses t ->
        status <> VStr "RUNNING" -> status <> VStr "COMPLETED" ->
        exists e, (checkJobStatus apiKey dataURL jobId fuel E st).1 = Throw e)) /\
  forall category st0 v st2,
    createExportJob apiKey dataURL (category_data category)
      default_maxRetries default_retryDelay E st0 = (Ret jobId, st) ->
    truthy jobId = true ->
    checkJobStatus apiKey dataURL jobId fuel E st = (Ret v, st2) ->
    exportCategory apiKey dataURL category fuel E st0 =
      match handleDataExport apiKey dataURL jobId 0 500 fuel E st2 with
      | (Throw e, st3) => (Throw e, add_event (category_error_line category) st3)
      | r => r
      end.
Proof.
  split.
  - destruct (checkJobStatus_polled apiKey dataURL jobId fuel E st) as (t & Hl & Ht).
    exists t. split_and!; [done|done|].
    intros status Hin Hr Hc.
    destruct (checkJobStatus _ _ _ fuel E st).1 as [v|e|]; [|by eexists|].
    + destruct Ht as (_ & n & pre & url & auth & b & -> & Hb & Hpre).
      rewrite polled_statuses_app, Hpre in Hin. unfold polled_statuses in Hin.
      cbn in Hin. rewrite Hb in Hin.
      apply elem_of_app in Hin as [Hin|Hin].
      * apply list_elem_of_In, repeat_spec in Hin. done.
      * apply list_elem_of_singleton in Hin. done.
    + rewrite Ht in Hin. apply list_elem_of_In, repeat_spec in Hin. done.
  - intros category st0 v st2 Hcreate Hj Hcheck.
    pose proof (checkJobStatus_outcome apiKey dataURL jobId fuel E st) as Hv.
    rewrite Hcheck in Hv. cbn in Hv. subst v.
    unfold exportCategory, try_catch. cbv zeta. fold (category_data category).
    unfold bind at 1. rewrite Hcreate, Hj. unfold bind at 1. rewrite Hcheck. cbn [truthy].
    by destruct (handleDataExport _ _ _ _ _ _ E st2) as [[[]|e|] st3].
Qed.

(** A job reported COMPLETED at the first poll, with one page of rows. *)
Lemma checkJobStatus_never_falsy_witness :
  let E := replay_env [job_reply (VStr "job-1"); status_reply (VStr "COMPLETED");
                       page_reply [sample_row (VStr "A") (VStr "S1") 1];
                       page_reply []] in
  let st1 := add_event
               (EvHttp (PostExport "u" "Bearer key" (category_data ("baseball", "hitting")))
                  (job_reply (VStr "job-1")))
               (count_call initial) in
  (exportCategory (VStr "key") (VStr "u") ("baseball", "hitting") 3 E initial).1 = Ret tt /\
  written (log (exportCategory (VStr "key") (VStr "u") ("baseball", "hitting") 3
                  E initial).2)
  = [sample_row (VStr "A") (VStr "S1") 1] /\
  exists pre url auth b,
    log (checkJobStatus (VStr "key") (VStr "u") (VStr "job-1") 3 E st1).2
    = log st1 ++ pre ++ [EvHttp (GetJob url auth) (Fulfilled (Some b))] /\
    data_status b = VStr "COMPLETED".
Proof.
  intros E st1.
  pose (st2 := add_event (EvHttp (GetJob "u/job/job-1" "Bearer key")
                            (status_reply (VStr "COMPLETED"))) (count_call st1)).
  assert (Hrun : checkJobStatus (VStr "key") (VStr "u") (VStr "job-1") 3 E st1
                 = (Ret (VBool true), st2)) by reflexivity.
  destruct (checkJobStatus_never_falsy (VStr "key") (VStr "u") (VStr "job-1") 3 E st1)
    as [(t & Hl & Ht & _) H].
  rewrite (H ("baseball", "hitting") initial (VBool true) st2 eq_refl eq_refl Hrun).
  rewrite Hrun in Ht. cbn [fst] in Ht.
  destruct Ht as (_ & n & pre & url & auth & b & -> & Hb & _).
  split_and!; [vm_compute; reflexivity..|].
  by exists pre, url, auth, b.
Defined.

(** ** The orchestrator *)

Lemma exportCategories_app apiKey dataURL cs1 cs2 fuel E st :
  exportCategories apiKey dataURL (cs1 ++ cs2) fuel E st =
  (exportCategories apiKey dataURL cs1 fuel ;;;
   exportCategories apiKey dataURL cs2 fuel) E st.
Proof.
  revert st. induction cs1 as [|c cs1 IH]; intros st; cbn [app exportCategories].
  - reflexivity.
  - unfold bind in *.
    destruct (exportCategory apiKey dataURL c fuel E st) as [[[]|e|] st1]; [|done..].
    apply IH.
Qed.

Lemma exportCategory_fails apiKey dataURL category fuel E st e st' :
  category_fails apiKey dataURL category fuel E st e st' ->
  exportCategory apiKey dataURL category fuel E st =
    (Throw e, add_event (category_error_line category) st').
Proof.
  unfold exportCategory, try_catch. cbv zeta. fold (category_data category).
  intros [Hc|jobId st1 Hc Hj Hp|jobId st1 status st2 Hc Hj Hp Hx];
    unfold bind at 1; rewrite Hc; [done|rewrite Hj..].
  - unfold bind at 1. by rewrite Hp.
  - unfold bind at 1. rewrite Hp.
    pose proof (checkJobStatus_outcome apiKey dataURL jobId fuel E st1) as Hv.
    rewrite Hp in Hv. cbn in Hv. subst status. cbn [truthy]. by rewrite Hx.
Qed.

(** C9. The loop of [handleExportProcess] runs the categories one after the
    other in the order of the list. When the categories before one have
    succeeded and that one fails, in the submission of its job, in the
    polling of it or in the export of its rows, the loop throws that error
    from the state the failure left, with one more console line: nothing is
    submitted or processed for the categories after it. So does
    [handleExportProcess], whose list is [categories]. *)
Theorem failure_aborts_run
    (apiKey dataURL : value) (before : list (string * string))
    (category : string * string) (after : list (string * string))
    (fuel : nat) (E : environment) (st st1 : state) (e : error) (st2 : state) :
  exportCategories apiKey dataURL before fuel E st = (Ret tt, st1) ->
  category_fails apiKey dataURL category fuel E st1 e st2 ->
  exportCategories apiKey dataURL (before ++ category :: after) fuel E st
    = (Throw e, add_event (category_error_line category) st2) /\
  (forall cs1 cs2 E' st',
     exportCategories apiKey dataURL (cs1 ++ cs2) fuel E' st' =
     (exportCategories apiKey dataURL cs1 fuel ;;;
      exportCategories apiKey dataURL cs2 fuel) E' st') /\
  (env_json E = inr (apiKey, dataURL) ->
   truthy apiKey = true -> truthy dataURL = true ->
   categories = before ++ category :: after ->
   handleExportProcess fuel E st
     = (Throw e, add_event (category_error_line category) st2)).
Proof.
  intros Hbefore Hfail.
  assert (Hrun : exportCategories apiKey dataURL (before ++ category :: after) fuel E st
                 = (Throw e, add_event (category_error_line category) st2)).
  { rewrite exportCategories_app. unfold bind at 1. rewrite Hbefore.
    cbn [exportCategories]. unfold bind at 1.
    by rewrite (exportCategory_fails _ _ _ _ _ _ _ _ Hfail). }
  split_and!; [exact Hrun|intros; apply exportCategories_app|].
  intros Henv Hk Hu Hcs. unfold handleExportProcess, bind at 1, readEnvJson.
  rewrite Henv. cbn [fst snd]. rewrite Hk, Hu, Hcs. exact Hrun.
Qed.

(** The first category is exported; the submission of the second is
    answered 401; the replies left over are never asked for. *)
Lemma failure_aborts_run_witness :
  let E := replay_env [job_reply (VStr "job-1"); status_reply (VStr "COMPLETED");
                       page_reply [];
                       Rejected "Request failed with status code 401" (Some 401);
                       status_reply (VStr "COMPLETED")] in
  (handleExportProcess 3 E initial).1
    = Throw (AxiosError "Request failed with status code 401" (Some 401)) /\
  ncalls (handleExportProcess 3 E initial).2 = 4%nat /\
  last (log (handleExportProcess 3 E initial).2)
    = Some (category_error_line ("baseball", "pitching")).
Proof.
  intros E.
  pose (st1 := (exportCategories (VStr "key") (VStr "https://data.example")
                  [("baseball", "hitting")] 3 E initial).2).
  pose (e := AxiosError "Request failed with status code 401" (Some 401)).
  pose (st2 := (createExportJob (VStr "key") (VStr "https://data.example")
                  (category_data ("baseball", "pitching"))
                  default_maxRetries default_retryDelay E st1).2).
  destruct (failure_aborts_run (VStr "key") (VStr "https://data.example")
              [("baseball", "hitting")] ("baseball", "pitching") []
              3 E initial st1 e st2) as (_ & _ & H).
  - vm_compute. reflexivity.
  - apply submission_fails. vm_compute. reflexivity.
  - rewrite (H eq_refl eq_refl eq_refl eq_refl).
    vm_compute. split_and!; reflexivity.
Defined.

(** ** The sink *)

Section QuietDisk.
Variable E : environment.
Hypothesis disk_ok : forall path, fs_fault E path = None.

Lemma writeCsvFile_ok rows a s st :
  rows <> [] ->
  writeCsvFile rows a s E st = (Ret tt, after_write rows a s st).
Proof.
  intros Hrows. destruct rows as [|row0 rows]; [done|].
  unfold writeCsvFile, after_write, try_catch, bind, emit, existsSync, mkdirSync,
    appendFileSync, ret. cbn -[stringify bool_decide].
  fold (folder_of a). fold (file_of a s).
  destruct (bool_decide (folder_of a ∈ dirs st)); cbn -[stringify];
    rewrite ?disk_ok; reflexivity.
Qed.

Lemma log_write_all cs st :
  log (write_all cs st) = log st ++ map call_event cs.
Proof.
  revert st. induction cs as [|c cs IH]; intros st; cbn.
  - by rewrite app_nil_r.
  - unfold write_all in IH. rewrite IH. cbn. by rewrite <- app_assoc.
Qed.

Lemma ncalls_write_all cs st : ncalls (write_all cs st) = ncalls st.
Proof.
  revert st. induction cs as [|c cs IH]; intros st; cbn; [done|].
  unfold write_all in IH. by rewrite IH.
Qed.

Lemma write_all_app cs1 cs2 st :
  write_all (cs1 ++ cs2) st = write_all cs2 (write_all cs1 st).
Proof. apply foldl_app. Qed.

(** ** The partitioner *)

Lemma saveAccumulated_empty sid aid st :
  saveAccumulated {| sessionId := sid; athleteId := aid; rowsToWrite := [] |} E st
  = (Ret {| sessionId := sid; athleteId := aid; rowsToWrite := [] |}, st).
Proof. reflexivity. Qed.

Lemma saveAccumulated_nonempty sid aid r0 rs st :
  saveAccumulated {| sessionId := sid; athleteId := aid; rowsToWrite := r0 :: rs |} E st
  = (Ret {| sessionId := sid; athleteId := aid; rowsToWrite := [] |},
     after_write (r0 :: rs) aid sid st).
Proof.
  unfold saveAccumulated. cbn [sessionId athleteId rowsToWrite].
  assert ((0 <? Z.of_nat (length (r0 :: rs))) = true) as -> by (by apply Z.ltb_lt).
  unfold bind. by rewrite writeCsvFile_ok.
Qed.

Lemma processRow_run p r st :
  processRow p r E st = (Ret (next_buffer p r), write_all (flush_of p r) st).
Proof.
  destruct p as [sid aid buf].
  unfold processRow, next_buffer, flush_of, flushes. cbv zeta.
  cbn [sessionId athleteId rowsToWrite].
  destruct (truthy aid && strict_neq aid (prop "athleteid" r)) eqn:Ha;
    destruct (truthy sid && strict_neq sid (prop "sessionid" r)) eqn:Hs;
    destruct buf as [|r0 rs];
    try change (0 <? Z.of_nat (length [])) with false;
    try (assert ((0 <? Z.of_nat (length (r0 :: rs))) = true) as -> by (by apply Z.ltb_lt));
    cbn [andb orb];
    unfold bind at 1;
    rewrite ?saveAccumulated_empty, ?saveAccumulated_nonempty; unfold ret at 1;
    cbn [sessionId athleteId rowsToWrite]; rewrite Hs;
    unfold bind at 1;
    rewrite ?saveAccumulated_empty, ?saveAccumulated_nonempty; try unfold ret at 1;
    reflexivity.
Qed.

Lemma processRows_run rows : forall p st,
  processRows p rows E st
  = (Ret (partition p rows).2, write_all (partition p rows).1 st).
Proof.
  induction rows as [|r rows IH]; intros p st; cbn [processRows partition].
  - reflexivity.
  - unfold bind. rewrite processRow_run, IH. cbn [fst snd].
    by rewrite write_all_app.
Qed.
End QuietDisk.

(** Processing the rows of two pages one after the other is processing the
    rows of both in one go. *)
Lemma processRows_app rows1 rows2 : forall p E st,
  processRows p (rows1 ++ rows2) E st
  = (p' <- processRows p rows1 ;; processRows p' rows2) E st.
Proof.
  induction rows1 as [|r rows1 IH]; intros p E st; cbn [app processRows].
  - reflexivity.
  - unfold bind in *. destruct (processRow p r E st) as [[p'|e|] st1]; [|done..].
    apply IH.
Qed.

Lemma partition_app rows1 rows2 : forall p,
  partition p (rows1 ++ rows2)
  = ((partition p rows1).1 ++ (partition (partition p rows1).2 rows2).1,
     (partition (partition p rows1).2 rows2).2).
Proof.
  induction rows1 as [|r rows1 IH]; intros p; cbn [app partition fst snd].
  - by destruct (partition p rows2).
  - rewrite IH. cbn. by rewrite app_assoc.
Qed.

(** No row is lost or repeated: the rows of the sink calls, then the rows
    still buffered, are the rows buffered before, then the rows processed. *)
Lemma partition_conserves rows : forall p,
  concat (map (fun c : call => c.1.1) (partition p rows).1) ++ rowsToWrite (partition p rows).2
  = rowsToWrite p ++ rows.
Proof.
  induction rows as [|r rows IH]; intros p; cbn [partition fst snd].
  - by rewrite app_nil_r.
  - rewrite map_app, concat_app, <- app_assoc, IH.
    unfold flush_of, next_buffer. cbn [rowsToWrite].
    destruct (flushes p r); cbn; by rewrite ?app_nil_r, <- ?app_assoc.
Qed.

Lemma partition_buffer_nonempty rows p :
  rows <> [] -> rowsToWrite (partition p rows).2 <> [].
Proof.
  revert p. induction rows as [|r rows IH]; intros p Hrows; [done|].
  cbn [partition snd]. destruct rows as [|r' rows].
  - cbn. by destruct (if flushes p r then [] else rowsToWrite p).
  - by apply IH.
Qed.

Lemma export_calls_conserve rows :
  concat (map (fun c : call => c.1.1) (export_calls rows)) = rows.
Proof.
  unfold export_calls, final_flush. rewrite map_app, concat_app.
  pose proof (partition_conserves rows no_buffer) as H. cbn [no_buffer rowsToWrite app] in H.
  destruct (rowsToWrite (partition no_buffer rows).2) as [|r0 rs] eqn:Hbuf.
  - cbn. by rewrite app_nil_r in *.
  - assert ((0 <? Z.of_nat (length (r0 :: rs))) = true) as -> by (by apply Z.ltb_lt).
    cbn. by rewrite app_nil_r.
Qed.

(** ** The paginated export *)

Lemma sink_calls_call_events cs : sink_calls (map call_event cs) = cs.
Proof.
  induction cs as [|[[rows a] s] cs IH]; [done|].
  unfold sink_calls in *. cbn. by rewrite IH.
Qed.

Lemma page_offsets_call_events cs : page_offsets (map call_event cs) = [].
Proof. by induction cs. Qed.

Lemma delays_call_events cs : delays (map call_event cs) = [].
Proof. by induction cs. Qed.

Lemma polled_statuses_call_events cs : polled_statuses (map call_event cs) = [].
Proof. by induction cs. Qed.

Section ExportRun.
Variable E : environment.
Hypothesis disk_ok : forall path, fs_fault E path = None.
Variables apiKey dataURL jobId : value.
Hypothesis job_known : truthy jobId = true.
Variable limit : Z.

Lemma getJobResults_fulfilled offset st d :
  server E (ncalls st) = Fulfilled d ->
  getJobResults apiKey dataURL jobId offset limit default_maxRetries default_retryDelay E st
  = (Ret d,
     add_event
       (EvHttp (GetJobPage (template dataURL +:+ "/job/" +:+ template jobId +:+ "/results")
                  (bearer apiKey) offset limit) (Fulfilled d))
       (count_call st)).
Proof.
  intros Hs. unfold getJobResults. rewrite job_known. cbn [negb].
  by erewrite makeRequest_fulfilled.
Qed.

(** When the service serves [pages] and then ends the export, the loop asks
    for a page at each of [page_starts], waits 1000 ms after each page that
    has rows, and makes the sink calls of the partitioner on the rows of all
    the pages in order. *)
Lemma fetchPages_run pages : forall fuel offset p st,
  (length pages < fuel)%nat ->
  serves_pages E (ncalls st) pages ->
  exists t st',
    fetchPages apiKey dataURL jobId limit fuel offset p E st
    = (Ret (partition p (concat pages)).2, st') /\
    log st' = log st ++ t /\
    ncalls st' = (ncalls st + S (length pages))%nat /\
    page_offsets t = page_starts offset pages /\
    sink_calls t = (partition p (concat pages)).1 /\
    delays t = repeat 1000 (length pages) /\
    polled_statuses t = [].
Proof.
  induction pages as [|page pages IH]; intros fuel offset p st Hfuel Hserve;
    (destruct fuel as [|fuel]; [cbn in Hfuel; lia|]); cbn [fetchPages].
  - cbn in Hserve. unfold bind.
    destruct Hserve as [Hs|(b & Hs & Hb)];
      rewrite (getJobResults_fulfilled _ _ _ Hs); [|rewrite Hb];
      cbn -[template String.append];
      (eexists [_], _; split_and!; [reflexivity|reflexivity|cbn; lia|reflexivity..]).
  - cbn [serves_pages] in Hserve. destruct Hserve as (Hne & (b & Hs & Hb) & Hrest).
    unfold bind at 1. rewrite (getJobResults_fulfilled _ _ _ Hs), Hb.
    assert ((Z.of_nat (length page) =? 0) = false) as ->.
    { apply Z.eqb_neq. destruct page; [done|cbn; lia]. }
    unfold bind at 1. rewrite (processRows_run E disk_ok).
    unfold bind at 1. unfold delay, emit.
    set (st1 := add_event (EvDelay 1000) _).
    assert (Hn1 : ncalls st1 = S (ncalls st)) by (subst st1; cbn; by rewrite ncalls_write_all).
    rewrite <- Hn1 in Hrest.
    destruct (IH fuel (offset + Z.of_nat (length page)) (partition p page).2 st1)
      as (t & st' & Hrun & Hl & Hn & Ho & Hc & Hd & Hq); [cbn in Hfuel; lia|done|].
    cbn [concat]. rewrite partition_app. cbn [fst snd].
    exists (EvHttp (GetJobPage (template dataURL +:+ "/job/" +:+ template jobId
                                  +:+ "/results") (bearer apiKey) offset limit)
              (Fulfilled (Some b))
            :: map call_event (partition p page).1 ++ EvDelay 1000 :: t), st'.
    split_and!.
    + exact Hrun.
    + rewrite Hl. subst st1. cbn. rewrite log_write_all. cbn.
      by rewrite <- !app_assoc.
    + rewrite Hn, Hn1. cbn. lia.
    + change (page_offsets (?x :: ?l)) with (offset :: page_offsets l).
      rewrite page_offsets_app, page_offsets_call_events. cbn [app page_starts].
      f_equal. exact Ho.
    + change (sink_calls (EvHttp ?a ?b :: ?l)) with (sink_calls l).
      rewrite sink_calls_app, sink_calls_call_events. f_equal. exact Hc.
    + change (delays (EvHttp ?a ?b :: ?l)) with (delays l).
      rewrite delays_app, delays_call_events. cbn [app length repeat].
      change (delays (EvDelay 1000 :: t)) with (1000 :: delays t). by rewrite Hd.
    + change (polled_statuses (EvHttp ?a ?b :: ?l)) with (polled_statuses l).
      rewrite polled_statuses_app, polled_statuses_call_events. exact Hq.
Qed.

(** The export of a job whose result is [pages]: it returns, it has asked for
    a page at each of [page_starts], and its sink calls are [export_calls] of
    the rows, the last of them made after the last request. *)
Lemma handleDataExport_run pages fuel offset st :
  (length pages < fuel)%nat ->
  serves_pages E (ncalls st) pages ->
  exists t st',
    handleDataExport apiKey dataURL jobId offset limit fuel E st = (Ret tt, st') /\
    log st'
      = log st ++ t ++ map call_event (final_flush (partition no_buffer (concat pages)).2) /\
    ncalls st' = (ncalls st + S (length pages))%nat /\
    page_offsets t = page_starts offset pages /\
    sink_calls t = (partition no_buffer (concat pages)).1 /\
    delays t = repeat 1000 (length pages) /\
    polled_statuses t = [].
Proof.
  intros Hfuel Hserve.
  destruct (fetchPages_run pages fuel offset no_buffer st Hfuel Hserve)
    as (t & st' & Hrun & Hl & Hn & Ho & Hc & Hd & Hq).
  exists t. unfold handleDataExport, try_catch. unfold bind at 1.
  rewrite Hrun. unfold final_flush.
  destruct (rowsToWrite (partition no_buffer (concat pages)).2) as [|r0 rs] eqn:Hbuf.
  - exists st'. cbn. rewrite app_nil_r. by split_and!.
  - assert ((0 <? Z.of_nat (length (r0 :: rs))) = true) as -> by (by apply Z.ltb_lt).
    rewrite (writeCsvFile_ok E disk_ok) by done.
    eexists. split; [reflexivity|]. split_and!; try done.
    cbn [after_write log map call_event fst snd]. by rewrite Hl, <- app_assoc.
Qed.
End ExportRun.

(** ** A whole category *)

Section Category.
Variable E : environment.
Hypothesis disk_ok : forall path, fs_fault E path = None.
Variables apiKey dataURL jobId : value.
Hypothesis job_known : truthy jobId = true.

Lemma getJobStatus_fulfilled st b :
  server E (ncalls st) = Fulfilled (Some b) ->
  getJobStatus apiKey dataURL jobId default_maxRetries default_retryDelay E st
  = (Ret (data_status b),
     add_event
       (EvHttp (GetJob (template dataURL +:+ "/job/" +:+ template jobId) (bearer apiKey))
          (Fulfilled (Some b)))
       (count_call st)).
Proof.
  intros Hs. unfold getJobStatus. rewrite job_known. cbn [negb].
  by erewrite makeRequest_fulfilled.
Qed.

(** Polls answered RUNNING [n] times and then COMPLETED: the poller waits
    5000 ms after each of the former and returns [true] on the latter. *)
Lemma checkJobStatus_completes n : forall fuel st,
  (n < fuel)%nat ->
  serves_statuses E (ncalls st) (repeat (VStr "RUNNING") n ++ [VStr "COMPLETED"]) ->
  exists t st',
    checkJobStatus apiKey dataURL jobId fuel E st = (Ret (VBool true), st') /\
    log st' = log st ++ t /\
    ncalls st' = (ncalls st + S n)%nat /\
    polled_statuses t = repeat (VStr "RUNNING") n ++ [VStr "COMPLETED"] /\
    delays t = repeat 5000 n /\
    page_offsets t = [] /\ sink_calls t = [].
Proof.
  induction n as [|n IH]; intros fuel st Hfuel Hserve;
    (destruct fuel as [|fuel]; [lia|]);
    cbn [repeat app serves_statuses] in Hserve;
    destruct Hserve as ((b & Hs & Hb) & Hrest);
    rewrite checkJobStatus_eq, (getJobStatus_fulfilled st b Hs), Hb;
    cbn [strict_eq terminal_failure bool_decide decide_rel orb].
  - eexists [_], _. split; [reflexivity|].
    split_and!; try reflexivity; [cbn; lia|]. cbn. by rewrite Hb.
  - change (strict_eq (VStr "RUNNING") (VStr "COMPLETED")) with false.
    change (terminal_failure (VStr "RUNNING")) with false.
    change (strict_eq (VStr "RUNNING") (VStr "RUNNING")) with true. cbv iota.
    set (st1 := add_event (EvDelay 5000) _) in *.
    destruct (IH fuel st1) as (t & st' & Hrun' & Hl & Hn & Hp & Hd & Ho & Hc);
      [lia|exact Hrest|].
    exists (EvHttp (GetJob (template dataURL +:+ "/job/" +:+ template jobId)
                      (bearer apiKey)) (Fulfilled (Some b)) :: EvDelay 5000 :: t), st'.
    split; [exact Hrun'|]. split_and!.
    + rewrite Hl. subst st1. cbn. by rewrite <- !app_assoc.
    + rewrite Hn. subst st1. cbn. lia.
    + change (polled_statuses (?x :: ?y :: t)) with (data_status b :: polled_statuses t).
      by rewrite Hp, Hb.
    + change (delays (?x :: ?y :: t)) with (5000 :: delays t). by rewrite Hd.
    + exact Ho.
    + exact Hc.
Qed.

(** A job that is submitted, reported RUNNING [n] times and then COMPLETED,
    and whose result is [pages]: the category returns after one submission,
    [n + 1] polls and one request per page and one more; every row of the
    pages is handed to the sink once, in order; and when there are rows the
    last event of the run is a sink call. *)
Lemma exportCategory_completes category n pages fuel st :
  (n < fuel)%nat -> (length pages < fuel)%nat ->
  serves_job E (ncalls st) jobId ->
  serves_statuses E (S (ncalls st)) (repeat (VStr "RUNNING") n ++ [VStr "COMPLETED"]) ->
  serves_pages E (S (ncalls st) + S n) pages ->
  exists t st',
    exportCategory apiKey dataURL category fuel E st = (Ret tt, st') /\
    log st'
      = log st ++ t ++ map call_event (final_flush (partition no_buffer (concat pages)).2) /\
    ncalls st' = (ncalls st + (1 + S n + S (length pages)))%nat /\
    polled_statuses t = repeat (VStr "RUNNING") n ++ [VStr "COMPLETED"] /\
    page_offsets t = page_starts 0 pages /\
    sink_calls t = (partition no_buffer (concat pages)).1 /\
    delays t = repeat 5000 n ++ repeat 1000 (length pages).
Proof.
  intros Hn Hp (b0 & Hs0 & Hb0) Hstat Hpages.
  unfold exportCategory, try_catch. cbv zeta. fold (category_data category).
  unfold bind at 1. unfold createExportJob.
  erewrite makeRequest_fulfilled; [|exact Hs0|reflexivity]. rewrite Hb0, job_known.
  set (st1 := add_event _ (count_call st)).
  destruct (checkJobStatus_completes n fuel st1 Hn Hstat)
    as (t1 & st2 & Hrun1 & Hl1 & Hn1 & Hp1 & Hd1 & Ho1 & Hc1).
  unfold bind at 1. rewrite Hrun1. cbn [truthy].
  assert (Hn2 : ncalls st2 = (S (ncalls st) + S n)%nat) by (rewrite Hn1; by subst st1).
  rewrite <- Hn2 in Hpages.
  destruct (handleDataExport_run E disk_ok apiKey dataURL jobId job_known 500
              pages fuel 0 st2 Hp Hpages)
    as (t2 & st3 & Hrun2 & Hl2 & Hn3 & Ho2 & Hc2 & Hd2 & Hq2).
  rewrite Hrun2.
  exists (EvHttp (PostExport (template dataURL) (bearer apiKey) (category_data category))
            (Fulfilled (Some b0)) :: t1 ++ t2), st3.
  split; [reflexivity|]. split_and!.
  - rewrite Hl2, Hl1. subst st1. cbn. by rewrite <- !app_assoc.
  - rewrite Hn3, Hn2. lia.
  - change (polled_statuses (?x :: ?l)) with (polled_statuses l).
    by rewrite polled_statuses_app, Hp1, Hq2, app_nil_r.
  - change (page_offsets (?x :: ?l)) with (page_offsets l).
    by rewrite page_offsets_app, Ho1, Ho2.
  - change (sink_calls (?x :: ?l)) with (sink_calls l).
    by rewrite sink_calls_app, Hc1, Hc2.
  - change (delays (?x :: ?l)) with (delays l).
    by rewrite delays_app, Hd1, Hd2.
Qed.
End Category.

Lemma sink_calls_export_calls t pages :
  sink_calls t = (partition no_buffer (concat pages)).1 ->
  sink_calls (t ++ map call_event (final_flush (partition no_buffer (concat pages)).2))
  = export_calls (concat pages).
Proof.
  intros Hc. by rewrite sink_calls_app, sink_calls_call_events, Hc.
Qed.

(** C5, as the code has it. For a job reported RUNNING, RUNNING and then
    COMPLETED, whose result is a page of 500 rows and then a page of 137,
    the category makes three result requests, at the offsets 0, 500 and 637:
    the third one is answered by the page without rows that ends the export.
    The 637 rows are handed to the sink, in order, and the last sink call is
    the last event of the run, so it comes after the last request. *)
Theorem two_page_export
    (apiKey dataURL jobId : value) (category : string * string)
    (p1 p2 : list row) (fuel : nat) (E : environment) (st : state) :
  (forall path, fs_fault E path = None) ->
  truthy jobId = true ->
  (3 <= fuel)%nat ->
  serves_job E (ncalls st) jobId ->
  serves_statuses E (S (ncalls st)) [VStr "RUNNING"; VStr "RUNNING"; VStr "COMPLETED"] ->
  serves_pages E (S (ncalls st) + 3) [p1; p2] ->
  length p1 = 500%nat ->
  length p2 = 137%nat ->
  exists t rows a s st',
    exportCategory apiKey dataURL category fuel E st = (Ret tt, st') /\
    log st' = log st ++ t ++ [EvWriteCsv rows a s] /\
    rows <> [] /\
    polled_statuses t = [VStr "RUNNING"; VStr "RUNNING"; VStr "COMPLETED"] /\
    page_offsets t = [0; 500; 637] /\
    page_offsets (t ++ [EvWriteCsv rows a s]) = [0; 500; 637] /\
    written (t ++ [EvWriteCsv rows a s]) = p1 ++ p2 /\
    length (written (t ++ [EvWriteCsv rows a s])) = 637%nat.
Proof.
  intros Hdisk Hj Hfuel Hjob Hstat Hpages H1 H2.
  destruct (exportCategory_completes E Hdisk apiKey dataURL jobId Hj category
              2 [p1; p2] fuel st) as (t & st' & Hrun & Hl & Hn & Hp & Ho & Hc & Hd);
    [lia|cbn; lia|done..|].
  pose proof (sink_calls_export_calls t [p1; p2] Hc) as Hcalls.
  assert (Hbuf : rowsToWrite (partition no_buffer (concat [p1; p2])).2 <> []).
  { apply partition_buffer_nonempty. destruct p1; [done|by cbn]. }
  unfold final_flush in Hl, Hcalls.
  destruct (rowsToWrite (partition no_buffer (concat [p1; p2])).2) as [|r0 rs] eqn:Hb;
    [done|].
  assert ((0 <? Z.of_nat (length (r0 :: rs))) = true) as Hlen by (by apply Z.ltb_lt).
  rewrite Hlen in Hl, Hcalls. unfold call_event in Hl, Hcalls.
  cbn [map fst snd] in Hl, Hcalls.
  exists t, (r0 :: rs), (athleteId (partition no_buffer (concat [p1; p2])).2),
    (sessionId (partition no_buffer (concat [p1; p2])).2), st'.
  assert (Hw : written (t ++ [EvWriteCsv (r0 :: rs)
                  (athleteId (partition no_buffer (concat [p1; p2])).2)
                  (sessionId (partition no_buffer (concat [p1; p2])).2)]) = p1 ++ p2).
  { unfold written. rewrite Hcalls, export_calls_conserve. cbn. by rewrite app_nil_r. }
  assert (Hoff : page_offsets t = [0; 500; 637]).
  { rewrite Ho. cbn [page_starts]. rewrite H1, H2. reflexivity. }
  split_and!; try done.
  - by rewrite page_offsets_app, Hoff.
  - rewrite Hw, length_app. lia.
Qed.

(** Pages of 500 and 137 rows of one session. *)
Lemma two_page_export_witness :
  let p1 := sample_page (VStr "A") (VStr "S1") 500 in
  let p2 := sample_page (VStr "A") (VStr "S1") 137 in
  let E := replay_env [job_reply (VStr "job-1"); status_reply (VStr "RUNNING");
                       status_reply (VStr "RUNNING"); status_reply (VStr "COMPLETED");
                       page_reply p1; page_reply p2; page_reply []] in
  exists t rows a s st',
    exportCategory (VStr "key") (VStr "u") ("baseball", "hitting") 3 E initial
      = (Ret tt, st') /\
    log st' = log initial ++ t ++ [EvWriteCsv rows a s] /\
    rows <> [] /\
    polled_statuses t = [VStr "RUNNING"; VStr "RUNNING"; VStr "COMPLETED"] /\
    page_offsets t = [0; 500; 637] /\
    page_offsets (t ++ [EvWriteCsv rows a s]) = [0; 500; 637] /\
    written (t ++ [EvWriteCsv rows a s]) = p1 ++ p2 /\
    length (written (t ++ [EvWriteCsv rows a s])) = 637%nat.
Proof.
  intros p1 p2 E.
  apply (two_page_export (VStr "key") (VStr "u") (VStr "job-1") ("baseball", "hitting")
           p1 p2 3 E initial).
  - reflexivity.
  - reflexivity.
  - lia.
  - eexists. split; reflexivity.
  - repeat split; eexists; split; reflexivity.
  - repeat split; try discriminate; try (eexists; split; reflexivity).
    right. eexists. split; reflexivity.
  - reflexivity.
  - reflexivity.
Defined.

(** C5, as the spec has it, fails: with these two pages the third request,
    at offset 637, is made. *)
Lemma two_page_export_counterexample :
  let p1 := sample_page (VStr "A") (VStr "S1") 500 in
  let p2 := sample_page (VStr "A") (VStr "S1") 137 in
  let E := replay_env [job_reply (VStr "job-1"); status_reply (VStr "RUNNING");
                       status_reply (VStr "RUNNING"); status_reply (VStr "COMPLETED");
                       page_reply p1; page_reply p2; page_reply []] in
  let run := exportCategory (VStr "key") (VStr "u") ("baseball", "hitting") 3 E initial in
  run.1 = Ret tt /\
  polled_statuses (log run.2) = [VStr "RUNNING"; VStr "RUNNING"; VStr "COMPLETED"] /\
  length (written (log run.2)) = 637%nat /\
  page_offsets (log run.2) = [0; 500; 637] /\
  page_offsets (log run.2) <> [0; 500].
Proof.
  vm_compute. split_and!; try reflexivity. discriminate.
Qed.

(** ** Runs of rows with the same key *)

Lemma runs_cons r rows : exists g gs, runs (r :: rows) = (r :: g) :: gs.
Proof.
  cbn [runs]. destruct (runs rows) as [|[|r' g] gs]; [by eexists _, _..|].
  case_bool_decide; by eexists _, _.
Qed.

Lemma runs_one_key k b :
  b <> [] -> Forall (fun r => key r = k) b -> runs b = [b].
Proof.
  induction b as [|x b IH]; intros Hne Hb; [done|].
  apply Forall_cons in Hb as [Hx Hb]. destruct b as [|y b]; [done|].
  change (runs (x :: y :: b)) with
    (match runs (y :: b) with
     | (r' :: g) :: gs =>
         if bool_decide (key x = key r') then (x :: r' :: g) :: gs
         else [x] :: (r' :: g) :: gs
     | _ => [[x]]
     end).
  rewrite IH by done.
  apply Forall_cons in Hb as [Hy _]. by rewrite bool_decide_eq_true_2 by congruence.
Qed.

Lemma runs_break k b r rows :
  b <> [] -> Forall (fun r' => key r' = k) b -> key r <> k ->
  runs (b ++ r :: rows) = b :: runs (r :: rows).
Proof.
  induction b as [|x b IH]; intros Hne Hb Hr; [done|].
  apply Forall_cons in Hb as [Hx Hb]. destruct b as [|y b].
  - change ([x] ++ r :: rows) with (x :: r :: rows).
    destruct (runs_cons r rows) as (g & gs & Hrun).
    change (runs (x :: r :: rows)) with
      (match runs (r :: rows) with
       | (r' :: g) :: gs =>
           if bool_decide (key x = key r') then (x :: r' :: g) :: gs
           else [x] :: (r' :: g) :: gs
       | _ => [[x]]
       end).
    rewrite Hrun. by rewrite bool_decide_eq_false_2 by congruence.
  - change ((x :: y :: b) ++ r :: rows) with (x :: (y :: b) ++ r :: rows).
    apply Forall_cons in Hb as [Hy Hb].
    change (runs (x :: (y :: b) ++ r :: rows)) with
      (match runs ((y :: b) ++ r :: rows) with
       | (r' :: g) :: gs =>
           if bool_decide (key x = key r') then (x :: r' :: g) :: gs
           else [x] :: (r' :: g) :: gs
       | _ => [[x]]
       end).
    rewrite IH by (try done; by constructor).
    by rewrite bool_decide_eq_true_2 by congruence.
Qed.

(** With truthy ids in the buffer, [processRow] saves the buffer exactly when
    the key of the row differs from the key of the buffer. *)
Lemma flushes_iff_key_differs p r :
  one_key_open p -> rowsToWrite p <> [] ->
  flushes p r = bool_decide (key r <> (athleteId p, sessionId p)).
Proof.
  intros Hp Hne. unfold flushes, key.
  destruct (rowsToWrite p) as [|r0 rs] eqn:Hbuf; [done|].
  assert ((0 <? Z.of_nat (length (r0 :: rs))) = true) as -> by (by apply Z.ltb_lt).
  rewrite andb_true_r.
  unfold one_key_open in Hp. rewrite Hbuf in Hp.
  apply Forall_cons in Hp as [[Hk [Ha Hs]] _]. unfold key in Hk.
  injection Hk as Hka Hks. rewrite <- Hka, <- Hks, Ha, Hs. cbn [andb].
  unfold strict_neq, strict_eq.
  repeat case_bool_decide; cbn; try done; congruence.
Qed.

Lemma next_buffer_one_key p r :
  one_key_open p -> truthy_key r -> one_key_open (next_buffer p r).
Proof.
  intros Hp Hr. unfold one_key_open, next_buffer. cbn [rowsToWrite athleteId sessionId].
  destruct (rowsToWrite p) as [|r0 rs] eqn:Hbuf.
  - destruct (flushes p r); cbn [app]; by apply Forall_singleton.
  - rewrite flushes_iff_key_differs by (try done; by rewrite Hbuf).
    case_bool_decide as Hk; cbn [app]; [by apply Forall_singleton|].
    change (r0 :: rs ++ [r]) with ((r0 :: rs) ++ [r]). rewrite <- Hbuf.
    apply Forall_app. split; [|by apply Forall_singleton].
    unfold one_key_open in Hp. eapply Forall_impl; [exact Hp|].
    cbn. intros x [Hx Hx']. split; [|done]. by rewrite Hx, <- Hk.
Qed.

(** "Exactly one key open": while the rows of a stream with truthy ids are
    processed, the rows buffered all bear one key. *)
Lemma partition_one_key rows : forall p,
  one_key_open p -> Forall truthy_key rows -> one_key_open (partition p rows).2.
Proof.
  induction rows as [|r rows IH]; intros p Hp Hrows; [done|].
  apply Forall_cons in Hrows as [Hr Hrows]. cbn [partition snd].
  apply IH; [by apply next_buffer_one_key|done].
Qed.

Lemma partition_runs rows : forall p,
  one_key_open p -> Forall truthy_key rows ->
  (partition p rows).1 ++ final_flush (partition p rows).2
  = map call_of_run (runs (rowsToWrite p ++ rows)).
Proof.
  induction rows as [|r rows IH]; intros p Hp Hrows.
  - cbn [partition fst snd app]. rewrite app_nil_r. unfold final_flush.
    destruct (rowsToWrite p) as [|r0 rs] eqn:Hbuf; [done|].
    assert ((0 <? Z.of_nat (length (r0 :: rs))) = true) as -> by (by apply Z.ltb_lt).
    unfold one_key_open in Hp. rewrite Hbuf in Hp.
    rewrite (runs_one_key (athleteId p, sessionId p)); [|done|].
    + apply Forall_cons in Hp as [[Hk _] _].
      unfold key in Hk. injection Hk as Ha Hs. cbn [map call_of_run]. by rewrite Ha, Hs.
    + eapply Forall_impl; [exact Hp|]. by intros x [? _].
  - apply Forall_cons in Hrows as [Hr Hrows]. cbn [partition fst snd].
    rewrite <- app_assoc, IH by (try done; by apply next_buffer_one_key).
    unfold flush_of, next_buffer. cbn [rowsToWrite].
    destruct (rowsToWrite p) as [|r0 rs] eqn:Hbuf.
    + assert (flushes p r = false) as ->; [|done].
      unfold flushes. rewrite Hbuf. by rewrite andb_false_r.
    + rewrite flushes_iff_key_differs by (try done; by rewrite Hbuf).
      assert (Hkeys : Forall (fun r' => key r' = (athleteId p, sessionId p)) (r0 :: rs)).
      { unfold one_key_open in Hp. rewrite Hbuf in Hp.
        eapply Forall_impl; [exact Hp|]. by intros x [? _]. }
      case_bool_decide as Hk.
      * rewrite (runs_break (athleteId p, sessionId p) (r0 :: rs) r rows) by done.
        cbn [app map]. f_equal. apply Forall_cons in Hkeys as [Hk0 _].
        unfold key in Hk0. injection Hk0 as Ha Hs. cbn [call_of_run]. by rewrite Ha, Hs.
      * by rewrite <- app_assoc.
Qed.

(** On a stream whose ids are all truthy, the sink calls of an export are
    the maximal runs of rows with the same key, each under its key. *)
Lemma export_calls_runs rows :
  Forall truthy_key rows -> export_calls rows = map call_of_run (runs rows).
Proof.
  intros Hrows. unfold export_calls.
  rewrite (partition_runs rows no_buffer); [done|by constructor|done].
Qed.

(** ** What reaches the sink *)

Section Delivery.
Variable E : environment.
Hypothesis disk_ok : forall path, fs_fault E path = None.
Variables apiKey dataURL jobId : value.
Hypothesis job_known : truthy jobId = true.

(** Whatever the ids of the rows, an export that ends hands every row of
    its pages to the sink once, in the order of arrival. *)
Lemma handleDataExport_delivers_all_rows pages fuel offset limit st :
  (length pages < fuel)%nat ->
  serves_pages E (ncalls st) pages ->
  exists t st',
    handleDataExport apiKey dataURL jobId offset limit fuel E st = (Ret tt, st') /\
    log st' = log st ++ t /\
    sink_calls t = export_calls (concat pages) /\
    written t = concat pages.
Proof.
  intros Hfuel Hserve.
  destruct (handleDataExport_run E disk_ok apiKey dataURL jobId job_known limit
              pages fuel offset st Hfuel Hserve)
    as (t & st' & Hrun & Hl & _ & _ & Hc & _).
  eexists _, st'. split_and!; [exact Hrun|exact Hl|by apply sink_calls_export_calls|].
  unfold written. by rewrite (sink_calls_export_calls _ _ Hc), export_calls_conserve.
Qed.

(** When the ids of all the rows are truthy, the sink calls of an export
    that ends are the maximal runs of rows with the same key, in order, each
    under the key of its rows. *)
Lemma handleDataExport_flushes_runs pages fuel offset limit st :
  (length pages < fuel)%nat ->
  serves_pages E (ncalls st) pages ->
  Forall truthy_key (concat pages) ->
  exists t st',
    handleDataExport apiKey dataURL jobId offset limit fuel E st = (Ret tt, st') /\
    log st' = log st ++ t /\
    sink_calls t = map call_of_run (runs (concat pages)).
Proof.
  intros Hfuel Hserve Hkeys.
  destruct (handleDataExport_delivers_all_rows pages fuel offset limit st Hfuel Hserve)
    as (t & st' & Hrun & Hl & Hc & _).
  exists t, st'. split_and!; [done..|]. by rewrite Hc, export_calls_runs.
Qed.

(** When a request for a page fails, the export throws after a console
    line, without saving the rows that are buffered. *)
Lemma handleDataExport_failure_skips_flush fuel offset limit st e st1 :
  fetchPages apiKey dataURL jobId limit fuel offset no_buffer E st = (Throw e, st1) ->
  handleDataExport apiKey dataURL jobId offset limit fuel E st
  = (Throw (Error "Failed to export data due to an error in fetching or saving data."),
     add_event (EvConsoleError "Error during data export:") st1).
Proof.
  intros Hfetch. unfold handleDataExport, try_catch. unfold bind at 1.
  by rewrite Hfetch.
Qed.

(** A call of the sink on a file that exists appends a header record and
    the records of the rows to it. *)
Lemma writeCsvFile_appends_header row0 rows a s st old :
  files st !! file_of a s = Some old ->
  exists st',
    writeCsvFile (row0 :: rows) a s E st = (Ret tt, st') /\
    files st' !! file_of a s
    = Some (old ++ Header (keys row0)
                :: map (fun r => Data (map (fun c => prop c r) (keys row0))) (row0 :: rows)).
Proof.
  intros Hold. eexists. split; [by apply writeCsvFile_ok|].
  cbn [after_write files]. by rewrite lookup_insert_eq, Hold.
Qed.
End Delivery.

Lemma runs_one_key_each rows :
  Forall (fun g => exists r g', g = r :: g' /\ Forall (fun x => key x = key r) g)
    (runs rows).
Proof.
  induction rows as [|r rows IH]; [constructor|].
  cbn [runs]. destruct (runs rows) as [|[|r' g] gs].
  - repeat constructor. exists r, []. by repeat constructor.
  - repeat constructor. exists r, []. by repeat constructor.
  - apply Forall_cons in IH as [(r0 & g0 & Hg & Hkeys) IH]. simplify_eq.
    case_bool_decide as Hk.
    + constructor; [|done]. exists r, (r0 :: g0). split; [done|].
      constructor; [done|]. eapply Forall_impl; [exact Hkeys|].
      cbn. intros x Hx. by rewrite Hx.
    + constructor; [exists r, []; by repeat constructor|].
      constructor; [|done]. by exists r0, g0.
Qed.

Lemma runs_calls_one_key rows : Forall one_key_call (map call_of_run (runs rows)).
Proof.
  apply Forall_map. eapply Forall_impl; [apply runs_one_key_each|].
  cbn. intros g (r & g' & -> & Hkeys). exact Hkeys.
Qed.

Section OneKeyOpen.
Variable E : environment.
Hypothesis disk_ok : forall path, fs_fault E path = None.

(** A row that bears the key of the buffer is buffered; a row that bears
    another key is buffered alone, after the buffer was saved under its own
    key. *)
Lemma processRow_one_key p r st :
  one_key_open p -> rowsToWrite p <> [] ->
  processRow p r E st =
    if bool_decide (key r = (athleteId p, sessionId p)) then
      (Ret {| sessionId := prop "sessionid" r; athleteId := prop "athleteid" r;
              rowsToWrite := rowsToWrite p ++ [r] |}, st)
    else
      (Ret {| sessionId := prop "sessionid" r; athleteId := prop "athleteid" r;
              rowsToWrite := [r] |},
       after_write (rowsToWrite p) (athleteId p) (sessionId p) st).
Proof.
  intros Hp Hne. rewrite (processRow_run E disk_ok).
  unfold next_buffer, flush_of. rewrite (flushes_iff_key_differs p r Hp Hne).
  by repeat case_bool_decide.
Qed.

(** C1, as the code has it. For an export that ends, the service having
    served pages and then the page that ends the export, and for rows whose
    athlete and session ids are all truthy: every row of the pages reaches
    the sink once, in order; the sink calls are the maximal runs of rows
    with the same key, so the last buffer is saved once; every sink call
    holds rows of the key it is made under; after any prefix of the stream
    the rows buffered bear one key; and the next row is added to them when
    it bears that key, and otherwise buffered alone after they were saved
    under their key. *)
Theorem one_partition_key_open
    (apiKey dataURL jobId : value) (pages : list (list row)) (fuel : nat)
    (offset limit : Z) (st : state) :
  truthy jobId = true ->
  (length pages < fuel)%nat ->
  serves_pages E (ncalls st) pages ->
  Forall truthy_key (concat pages) ->
  exists t st',
    handleDataExport apiKey dataURL jobId offset limit fuel E st = (Ret tt, st') /\
    log st' = log st ++ t /\
    written t = concat pages /\
    sink_calls t = map call_of_run (runs (concat pages)) /\
    Forall one_key_call (sink_calls t) /\
    forall prefix rest st0,
      concat pages = prefix ++ rest ->
      exists p st1,
        processRows no_buffer prefix E st0 = (Ret p, st1) /\
        one_key_open p /\
        forall r rest',
          rest = r :: rest' -> rowsToWrite p <> [] ->
          processRow p r E st1 =
            if bool_decide (key r = (athleteId p, sessionId p)) then
              (Ret {| sessionId := prop "sessionid" r; athleteId := prop "athleteid" r;
                      rowsToWrite := rowsToWrite p ++ [r] |}, st1)
            else
              (Ret {| sessionId := prop "sessionid" r; athleteId := prop "athleteid" r;
                      rowsToWrite := [r] |},
               after_write (rowsToWrite p) (athleteId p) (sessionId p) st1).
Proof.
  intros Hj Hfuel Hserve Hkeys.
  destruct (handleDataExport_delivers_all_rows E disk_ok apiKey dataURL jobId Hj
              pages fuel offset limit st Hfuel Hserve)
    as (t & st' & Hrun & Hl & Hc & Hw).
  rewrite export_calls_runs in Hc by done.
  exists t, st'. split_and!; try done.
  - rewrite Hc. apply runs_calls_one_key.
  - intros prefix rest st0 Hsplit.
    rewrite Hsplit in Hkeys. apply Forall_app in Hkeys as [Hpre _].
    eexists _, _. split; [apply (processRows_run E disk_ok)|].
    assert (Hp : one_key_open (partition no_buffer prefix).2)
      by (apply partition_one_key; [constructor|done]).
    split; [exact Hp|]. intros r rest' _ Hne. by apply processRow_one_key.
Qed.
End OneKeyOpen.

(** The stream of three rows A/S1, two rows A/S2 and one row B/S2, served
    as two pages. *)
Lemma one_partition_key_open_witness :
  let a1 := sample_page (VStr "A") (VStr "S1") 3 in
  let a2 := sample_page (VStr "A") (VStr "S2") 2 in
  let b2 := sample_page (VStr "B") (VStr "S2") 1 in
  let E := replay_env [page_reply (a1 ++ a2); page_reply b2; page_reply []] in
  exists t st',
    handleDataExport (VStr "key") (VStr "u") (VStr "job-1") 0 500 3 E initial
      = (Ret tt, st') /\
    log st' = log initial ++ t /\
    written t = a1 ++ a2 ++ b2 /\
    sink_calls t
      = [(a1, VStr "A", VStr "S1"); (a2, VStr "A", VStr "S2"); (b2, VStr "B", VStr "S2")] /\
    Forall one_key_call (sink_calls t).
Proof.
  intros a1 a2 b2 E.
  destruct (one_partition_key_open E (fun _ => eq_refl)
              (VStr "key") (VStr "u") (VStr "job-1") [a1 ++ a2; b2] 3 0 500 initial)
    as (t & st' & Hrun & Hl & Hw & Hc & Hk & _).
  - reflexivity.
  - cbn. lia.
  - repeat split; try discriminate; try (eexists; split; reflexivity).
    right. eexists. split; reflexivity.
  - repeat constructor.
  - exists t, st'. split_and!; [exact Hrun|exact Hl|exact Hw|exact Hc|exact Hk].
Defined.

(** C1, as the spec has it, fails twice. When a request for a further page
    fails, the export throws and the rows buffered from the pages before are
    never handed to the sink. And when a session id is falsy ([null] here),
    the row after it is buffered with it although it bears another key, and
    one sink call receives the rows of both keys. *)
Lemma one_partition_key_open_counterexample :
  let r1 := sample_row (VStr "A") (VStr "S1") 1 in
  let r2 := sample_row (VStr "A") (VStr "S1") 2 in
  let E := replay_env [page_reply [r1; r2];
                       Rejected "Request failed with status code 500" (Some 500)] in
  let run := handleDataExport (VStr "key") (VStr "u") (VStr "job-1") 0 500 3 E initial in
  let n1 := sample_row (VStr "A") VNull 1 in
  let n2 := sample_row (VStr "A") (VStr "S2") 2 in
  let E' := replay_env [page_reply [n1; n2]; page_reply []] in
  let run' := handleDataExport (VStr "key") (VStr "u") (VStr "job-1") 0 500 3 E' initial in
  (run.1 = Throw (Error "Failed to export data due to an error in fetching or saving data.") /\
   page_offsets (log run.2) = [0; 2] /\
   written (log run.2) = [] /\
   written (log run.2) <> [r1; r2]) /\
  (key n1 <> key n2 /\
   rowsToWrite (next_buffer (next_buffer no_buffer n1) n2) = [n1; n2] /\
   run'.1 = Ret tt /\
   sink_calls (log run'.2) = [([n1; n2], VStr "A", VStr "S2")] /\
   ~ Forall one_key_call (sink_calls (log run'.2))).
Proof.
  vm_compute. split_and!; try reflexivity; try discriminate.
  intros H. apply Forall_cons in H as [H _]. apply Forall_cons in H as [H _].
  discriminate H.
Qed.

(** C6, at rows whose session id is falsy (the empty string, [null], [0]):
    the stream has two maximal runs, and the export makes one sink call that
    covers both, under the key of the second. On the stream of three rows
    A/S1, two rows A/S2 and one row B/S2 it makes the three calls of the
    claim. *)
Theorem falsy_key_merges_two_runs :
  let export (rows : list row) :=
    handleDataExport (VStr "key") (VStr "u") (VStr "job-1") 0 500 3
      (replay_env [page_reply rows; page_reply []]) initial in
  let merged (v : value) :=
    let r1 := sample_row (VStr "A") v 1 in
    let r2 := sample_row (VStr "A") (VStr "S2") 2 in
    runs [r1; r2] = [[r1]; [r2]] /\
    (export [r1; r2]).1 = Ret tt /\
    sink_calls (log (export [r1; r2]).2) = [([r1; r2], VStr "A", VStr "S2")] in
  let a1 := sample_page (VStr "A") (VStr "S1") 3 in
  let a2 := sample_page (VStr "A") (VStr "S2") 2 in
  let b2 := sample_page (VStr "B") (VStr "S2") 1 in
  merged (VStr "") /\ merged VNull /\ merged (VNum 0) /\
  (export (a1 ++ a2 ++ b2)).1 = Ret tt /\
  sink_calls (log (export (a1 ++ a2 ++ b2)).2)
  = [(a1, VStr "A", VStr "S1"); (a2, VStr "A", VStr "S2"); (b2, VStr "B", VStr "S2")].
Proof. vm_compute. split_and!; reflexivity. Qed.

(** C4, at two categories whose jobs both hold a row of session S1 of
    athlete A: the second sink call finds the file of the session on disk
    and appends a second header record to it. *)
Theorem header_written_on_every_call :
  let r1 := sample_row (VStr "A") (VStr "S1") 1 in
  let r2 := sample_row (VStr "A") (VStr "S1") 2 in
  let E := replay_env [job_reply (VStr "job-1"); status_reply (VStr "COMPLETED");
                       page_reply [r1]; page_reply [];
                       job_reply (VStr "job-2"); status_reply (VStr "COMPLETED");
                       page_reply [r2]; page_reply []] in
  let run := handleExportProcess 3 E initial in
  run.1 = Ret tt /\
  sink_calls (log run.2) = [([r1], VStr "A", VStr "S1"); ([r2], VStr "A", VStr "S1")] /\
  files run.2 !! "./data/A/session_S1.csv"
  = Some [Header ["athleteid"; "sessionid"; "metric"];
          Data [VStr "A"; VStr "S1"; VNum 1];
          Header ["athleteid"; "sessionid"; "metric"];
          Data [VStr "A"; VStr "S1"; VNum 2]].
Proof. vm_compute. split_and!; reflexivity. Qed.

(** * Further properties *)

(** ** Operations without a job id *)

(** X1. Without a job id (a falsy one), [getJobStatus] and [getJobResults]
    return [undefined] without any request; so [checkJobStatus] throws
    "Unexpected Job Status: undefined" and [handleDataExport] returns, both
    leaving the state as it was. *)
Theorem missing_job_id_makes_no_request
    (apiKey dataURL jobId : value) (maxRetries retryDelay offset limit : Z)
    (fuel : nat) (E : environment) (st : state) :
  truthy jobId = false ->
  getJobStatus apiKey dataURL jobId maxRetries retryDelay E st = (Ret VUndefined, st) /\
  getJobResults apiKey dataURL jobId offset limit maxRetries retryDelay E st
    = (Ret None, st) /\
  checkJobStatus apiKey dataURL jobId (S fuel) E st
    = (Throw (Error "Unexpected Job Status: undefined"), st) /\
  handleDataExport apiKey dataURL jobId offset limit (S fuel) E st = (Ret tt, st).
Proof.
  intros Hj.
  assert (Hs : forall mr rd, getJobStatus apiKey dataURL jobId mr rd E st
                             = (Ret VUndefined, st))
    by (intros; unfold getJobStatus; by rewrite Hj).
  assert (Hr : forall mr rd, getJobResults apiKey dataURL jobId offset limit mr rd E st
                             = (Ret None, st))
    by (intros; unfold getJobResults; by rewrite Hj).
  split_and!; [apply Hs|apply Hr| |].
  - by rewrite checkJobStatus_eq, Hs.
  - unfold handleDataExport, try_catch. cbn [fetchPages]. unfold bind.
    by rewrite Hr.
Qed.

(** The job id is the empty string. *)
Lemma missing_job_id_makes_no_request_witness :
  let E := replay_env [status_reply (VStr "COMPLETED")] in
  checkJobStatus (VStr "key") (VStr "u") (VStr "") 1 E initial
    = (Throw (Error "Unexpected Job Status: undefined"), initial) /\
  handleDataExport (VStr "key") (VStr "u") (VStr "") 0 500 1 E initial = (Ret tt, initial).
Proof.
  intros E.
  destruct (missing_job_id_makes_no_request (VStr "key") (VStr "u") (VStr "")
              default_maxRetries default_retryDelay 0 500 0 E initial eq_refl)
    as (_ & _ & Hc & Hx).
  split; [exact Hc|exact Hx].
Defined.

(** ** Retries *)

Section Timeouts.
Context {A : Type}.
Variable extract : option body -> error + A.
Variables maxRetries retryDelay : Z.
Variable E : environment.

Lemma ncalls_after_timeouts rq n : forall retryCount st,
  ncalls (after_timeouts rq retryDelay E retryCount n st) = (ncalls st + n)%nat.
Proof.
  induction n as [|n IH]; intros retryCount st; cbn [after_timeouts]; [lia|].
  rewrite IH. cbn. lia.
Qed.

Lemma files_after_timeouts rq n : forall retryCount st,
  files (after_timeouts rq retryDelay E retryCount n st) = files st /\
  dirs (after_timeouts rq retryDelay E retryCount n st) = dirs st.
Proof.
  induction n as [|n IH]; intros retryCount st; cbn [after_timeouts]; [done|].
  by destruct (IH (retryCount + 1)
                 (add_event (EvDelay (retryDelay * 2 ^ (retryCount + 1 - 1)))
                    (add_event (EvHttp rq (server E (ncalls st))) (count_call st))))
    as [-> ->].
Qed.

(** What [n] retried attempts add to the trace: [n] calls of [rq], no sink
    call, and the delays [backoffs]. *)
Lemma log_after_timeouts rq n : forall retryCount st,
  exists t,
    log (after_timeouts rq retryDelay E retryCount n st) = log st ++ t /\
    requests t = replicate n rq /\
    delays t = backoffs retryDelay retryCount n /\
    sink_calls t = [] /\
    page_offsets t = match rq with
                     | GetJobPage _ _ offset _ => replicate n offset
                     | _ => []
                     end.
Proof.
  induction n as [|n IH]; intros retryCount st; cbn [after_timeouts].
  - exists []. rewrite app_nil_r. by destruct rq.
  - destruct (IH (retryCount + 1)
                (add_event (EvDelay (retryDelay * 2 ^ (retryCount + 1 - 1)))
                   (add_event (EvHttp rq (server E (ncalls st))) (count_call st))))
      as (t & Hl & Hq & Hd & Hc & Ho).
    exists (EvHttp rq (server E (ncalls st))
              :: EvDelay (retryDelay * 2 ^ (retryCount + 1 - 1)) :: t).
    split_and!.
    + rewrite Hl. cbn. by rewrite <- !app_assoc.
    + change (requests (?x :: ?y :: t)) with (rq :: requests t). by rewrite Hq.
    + change (delays (?x :: ?y :: t))
        with (retryDelay * 2 ^ (retryCount + 1 - 1) :: delays t). by rewrite Hd.
    + exact Hc.
    + destruct rq as [u a d|u a|u a o l]; [exact Ho|exact Ho|].
      change (page_offsets (?x :: ?y :: t)) with (o :: page_offsets t). by rewrite Ho.
Qed.

(** [n] attempts answered 504 while retries remain are retried: the closure
    goes on from the state after them with the counter advanced by [n]. *)
Lemma makeRequest_timeouts rq n : forall fuel retryCount st,
  times_out E (ncalls st) n ->
  retryCount + Z.of_nat n <= maxRetries ->
  makeRequest rq extract maxRetries retryDelay (n + fuel) retryCount E st
  = makeRequest rq extract maxRetries retryDelay fuel (retryCount + Z.of_nat n) E
      (after_timeouts rq retryDelay E retryCount n st).
Proof.
  induction n as [|n IH]; intros fuel retryCount st Hto Hle.
  - cbn [after_timeouts Nat.add]. by rewrite Z.add_0_r.
  - destruct (Hto 0%nat) as [m Hm]; [lia|]. rewrite Nat.add_0_r in Hm.
    cbn [Nat.add after_timeouts].
    rewrite (makeRequest_retry _ _ _ _ _ _ _ _ m Hm) by lia. rewrite Hm.
    rewrite IH; [f_equal; lia| |lia].
    intros i Hi. cbn [add_event count_call ncalls].
    destruct (Hto (S i)) as [m' Hm']; [lia|].
    exists m'. by replace (S (ncalls st) + i)%nat with (ncalls st + S i)%nat by lia.
Qed.
End Timeouts.

(** X2. When every call is answered 504, an operation gives up after
    [maxRetries + 1] calls: it has waited [retryDelay * 2^(k-1)] before
    retry [k], for [k] from 1 to [maxRetries], then it writes the console
    line of an unclassified status and throws the last 504. *)
Theorem retries_exhausted
    (apiKey dataURL jobId : value) (maxRetries retryDelay : Z)
    (E : environment) (st : state) :
  0 <= maxRetries ->
  truthy jobId = true ->
  times_out E (ncalls st) (S (Z.to_nat maxRetries)) ->
  exists m t,
    server E (ncalls st + Z.to_nat maxRetries) = Rejected m (Some 504) /\
    (getJobStatus apiKey dataURL jobId maxRetries retryDelay E st).1
      = Throw (AxiosError m (Some 504)) /\
    log (getJobStatus apiKey dataURL jobId maxRetries retryDelay E st).2
      = log st ++ t ++ [EvConsoleError "Error 504:"] /\
    length (requests t) = S (Z.to_nat maxRetries) /\
    delays t = backoffs retryDelay 0 (Z.to_nat maxRetries).
Proof.
  intros Hmr Hj Hto.
  destruct (Hto (Z.to_nat maxRetries)) as [m Hm]; [lia|].
  set (rq := GetJob (template dataURL +:+ "/job/" +:+ template jobId) (bearer apiKey)).
  destruct (log_after_timeouts retryDelay E rq (Z.to_nat maxRetries) 0 st)
    as (t & Hl & Hq & Hd & _).
  set (st1 := after_timeouts rq retryDelay E 0 (Z.to_nat maxRetries) st) in *.
  assert (Hm1 : server E (ncalls st1) = Rejected m (Some 504))
    by (subst st1; by rewrite ncalls_after_timeouts).
  assert (Hrun : getJobStatus apiKey dataURL jobId maxRetries retryDelay E st
                 = (Throw (AxiosError m (Some 504)),
                    add_event (EvConsoleError "Error 504:")
                      (add_event (EvHttp rq (Rejected m (Some 504))) (count_call st1)))).
  { unfold getJobStatus. rewrite Hj. cbn [negb]. fold rq.
    pose proof (makeRequest_timeouts read_status maxRetries retryDelay E rq
                  (Z.to_nat maxRetries) 0 0 st) as Hretry.
    rewrite Nat.add_0_r in Hretry. rewrite Hretry; [|intros i Hi; apply Hto; lia|lia].
    fold st1. rewrite makeRequest_eq. unfold settle. rewrite Hm1. cbv zeta.
    assert ((0 + Z.of_nat (Z.to_nat maxRetries) <? maxRetries) = false) as ->
      by (apply Z.ltb_ge; lia).
    by rewrite andb_false_r. }
  rewrite Hrun.
  exists m, (t ++ [EvHttp rq (Rejected m (Some 504))]).
  split_and!; [exact Hm|reflexivity| | |].
  - cbn. rewrite Hl. by rewrite <- !app_assoc.
  - rewrite requests_app, length_app, Hq, length_replicate. cbn. lia.
  - rewrite delays_app, Hd. cbn. by rewrite app_nil_r.
Qed.

(** The default three retries: four calls, and waits of 2, 4 and 8 s. *)
Lemma retries_exhausted_witness :
  let E := replay_env [gateway_timeout; gateway_timeout; gateway_timeout; gateway_timeout;
                       status_reply (VStr "COMPLETED")] in
  let run := getJobStatus (VStr "key") (VStr "u") (VStr "job-1")
               default_maxRetries default_retryDelay E initial in
  exists m t,
    run.1 = Throw (AxiosError m (Some 504)) /\
    log run.2 = t ++ [EvConsoleError "Error 504:"] /\
    length (requests t) = 4%nat /\
    delays t = [2000; 4000; 8000].
Proof.
  intros E run.
  destruct (retries_exhausted (VStr "key") (VStr "u") (VStr "job-1")
              default_maxRetries default_retryDelay E initial)
    as (m & t & _ & Hr & Hl & Hq & Hd).
  - discriminate.
  - reflexivity.
  - intros i Hi. change (S (Z.to_nat default_maxRetries)) with 4%nat in Hi.
    exists "Request failed with status code 504".
    destruct i as [|[|[|[|i]]]]; [reflexivity..|lia].
  - exists m, t. split_and!; [exact Hr|exact Hl|exact Hq|exact Hd].
Defined.

(** ** Pages fetched through gateway timeouts *)

Section RetriedExport.
Variable E : environment.
Hypothesis disk_ok : forall path, fs_fault E path = None.
Variables apiKey dataURL jobId : value.
Hypothesis job_known : truthy jobId = true.
Variable limit : Z.

(** A page request answered 504 at most three times and then fulfilled
    returns the body, after as many retries at the same offset. *)
Lemma getJobResults_after_timeouts n offset st d :
  (n <= 3)%nat ->
  times_out E (ncalls st) n ->
  server E (ncalls st + n) = Fulfilled d ->
  exists t st',
    getJobResults apiKey dataURL jobId offset limit default_maxRetries default_retryDelay
      E st = (Ret d, st') /\
    log st' = log st ++ t /\
    ncalls st' = (ncalls st + n + 1)%nat /\
    page_offsets t = replicate (S n) offset /\
    sink_calls t = [] /\
    delays t = backoffs default_retryDelay 0 n.
Proof.
  intros Hn Hto Hs. unfold getJobResults. rewrite job_known. cbn [negb].
  set (rq := GetJobPage _ _ offset limit).
  change (Z.to_nat default_maxRetries) with 3%nat.
  replace 3%nat with (n + (3 - n))%nat by lia.
  rewrite (makeRequest_timeouts read_data default_maxRetries default_retryDelay E rq
             n (3 - n) 0 st Hto) by (unfold default_maxRetries; lia).
  destruct (log_after_timeouts default_retryDelay E rq n 0 st) as (t & Hl & Hq & Hd & Hc & Ho).
  set (st1 := after_timeouts rq default_retryDelay E 0 n st) in *.
  assert (Hs1 : server E (ncalls st1) = Fulfilled d)
    by (subst st1; by rewrite ncalls_after_timeouts).
  erewrite makeRequest_fulfilled; [|exact Hs1|reflexivity].
  exists (t ++ [EvHttp rq (Fulfilled d)]), (add_event (EvHttp rq (Fulfilled d)) (count_call st1)).
  split_and!; [reflexivity| | | | |].
  - cbn. rewrite Hl. by rewrite <- app_assoc.
  - cbn. subst st1. rewrite ncalls_after_timeouts. lia.
  - rewrite page_offsets_app, Ho. subst rq. by rewrite replicate_S_end.
  - by rewrite sink_calls_app, Hc.
  - rewrite delays_app, Hd. cbn. by rewrite app_nil_r.
Qed.

Lemma fetchPages_run_retrying pages n_end : forall fuel offset p st,
  (length pages < fuel)%nat ->
  serves_pages_retrying E (ncalls st) pages n_end ->
  exists t st',
    fetchPages apiKey dataURL jobId limit fuel offset p E st
    = (Ret (partition p (concat pages.*2)).2, st') /\
    log st' = log st ++ t /\
    page_offsets t = retried_starts offset pages n_end /\
    sink_calls t = (partition p (concat pages.*2)).1.
Proof.
  induction pages as [|[n page] pages IH]; intros fuel offset p st Hfuel Hserve;
    (destruct fuel as [|fuel]; [cbn in Hfuel; lia|]); cbn [fetchPages].
  - cbn in Hserve. destruct Hserve as (Hn & Hto & Hend). unfold bind.
    destruct Hend as [Hs|(b & Hs & Hb)];
      destruct (getJobResults_after_timeouts n_end offset st _ Hn Hto Hs)
        as (t & st' & -> & Hl & _ & Ho & Hc & _); [|rewrite Hb];
      cbn [Z.of_nat length Z.eqb]; exists t, st'; by split_and!.
  - cbn [serves_pages_retrying] in Hserve.
    destruct Hserve as (Hn & Hto & Hne & (b & Hs & Hb) & Hrest).
    unfold bind at 1.
    destruct (getJobResults_after_timeouts n offset st _ Hn Hto Hs)
      as (t1 & st1 & -> & Hl1 & Hn1 & Ho1 & Hc1 & _).
    rewrite Hb.
    assert ((Z.of_nat (length page) =? 0) = false) as ->.
    { apply Z.eqb_neq. destruct page; [done|cbn; lia]. }
    unfold bind at 1. rewrite (processRows_run E disk_ok).
    unfold bind at 1. unfold delay, emit.
    set (st2 := add_event (EvDelay 1000) _).
    assert (Hn2 : ncalls st2 = (ncalls st + n + 1)%nat)
      by (subst st2; cbn; by rewrite ncalls_write_all).
    rewrite <- Hn2 in Hrest.
    destruct (IH fuel (offset + Z.of_nat (length page)) (partition p page).2 st2)
      as (t & st' & Hrun & Hl & Ho & Hc); [cbn in Hfuel; lia|done|].
    cbn [fmap list_fmap concat snd]. rewrite partition_app. cbn [fst snd].
    exists (t1 ++ map call_event (partition p page).1 ++ EvDelay 1000 :: t), st'.
    split_and!.
    + exact Hrun.
    + rewrite Hl. subst st2. cbn. rewrite log_write_all, Hl1. by rewrite <- !app_assoc.
    + rewrite !page_offsets_app, page_offsets_call_events, Ho1. cbn [app retried_starts].
      change (page_offsets (EvDelay 1000 :: t)) with (page_offsets t). by rewrite Ho.
    + rewrite !sink_calls_app, sink_calls_call_events, Hc1. cbn [app].
      change (sink_calls (EvDelay 1000 :: t)) with (sink_calls t). by rewrite Hc.
Qed.

(** X3. A page request that meets gateway timeouts is repeated at the same
    offset, and the page that finally arrives is processed once: an export
    whose requests are answered 504 up to three times each before the page
    arrives hands every row of the pages to the sink exactly once, in
    order, as the export without any timeout does. *)
Theorem timeouts_do_not_duplicate_rows
    (pages : list (nat * list row)) (n_end fuel : nat) (offset : Z) (st : state) :
  (length pages < fuel)%nat ->
  serves_pages_retrying E (ncalls st) pages n_end ->
  exists t st',
    handleDataExport apiKey dataURL jobId offset limit fuel E st = (Ret tt, st') /\
    log st' = log st ++ t /\
    page_offsets t = retried_starts offset pages n_end /\
    sink_calls t = export_calls (concat pages.*2) /\
    written t = concat pages.*2.
Proof.
  intros Hfuel Hserve.
  destruct (fetchPages_run_retrying pages n_end fuel offset no_buffer st Hfuel Hserve)
    as (t & st' & Hrun & Hl & Ho & Hc).
  unfold handleDataExport, try_catch. unfold bind at 1. rewrite Hrun.
  assert (Hcalls : sink_calls (t ++ map call_event
                                 (final_flush (partition no_buffer (concat pages.*2)).2))
                   = export_calls (concat pages.*2)).
  { by rewrite sink_calls_app, sink_calls_call_events, Hc. }
  unfold final_flush in *.
  destruct (rowsToWrite (partition no_buffer (concat pages.*2)).2) as [|r0 rs] eqn:Hbuf.
  - exists t, st'. cbn in Hcalls. rewrite app_nil_r in Hcalls.
    split_and!; try done. unfold written. by rewrite Hcalls, export_calls_conserve.
  - assert ((0 <? Z.of_nat (length (r0 :: rs))) = true) as Hlen by (by apply Z.ltb_lt).
    rewrite Hlen in Hcalls |- *.
    rewrite (writeCsvFile_ok E disk_ok) by done.
    eexists (t ++ [_]), _. split; [reflexivity|].
    unfold call_event in Hcalls. cbn [map fst snd] in Hcalls.
    split_and!.
    + cbn [after_write log]. by rewrite Hl, <- app_assoc.
    + by rewrite page_offsets_app, Ho, app_nil_r.
    + exact Hcalls.
    + unfold written. by rewrite Hcalls, export_calls_conserve.
Qed.
End RetriedExport.

(** The first page arrives after two timeouts, the second at once, the end
    of the export after one timeout. *)
Lemma timeouts_do_not_duplicate_rows_witness :
  let p1 := sample_page (VStr "A") (VStr "S1") 2 in
  let p2 := sample_page (VStr "B") (VStr "S2") 1 in
  let E := replay_env [gateway_timeout; gateway_timeout; page_reply p1; page_reply p2;
                       gateway_timeout; page_reply []] in
  exists t st',
    handleDataExport (VStr "key") (VStr "u") (VStr "job-1") 0 500 3 E initial
      = (Ret tt, st') /\
    log st' = log initial ++ t /\
    page_offsets t = [0; 0; 0; 2; 3; 3] /\
    sink_calls t = [(p1, VStr "A", VStr "S1"); (p2, VStr "B", VStr "S2")] /\
    written t = p1 ++ p2.
Proof.
  intros p1 p2 E.
  apply (timeouts_do_not_duplicate_rows E (fun _ => eq_refl)
           (VStr "key") (VStr "u") (VStr "job-1") eq_refl 500
           [(2%nat, p1); (0%nat, p2)] 1 3 0 initial).
  - cbn. lia.
  - assert (Hto : forall k n, (forall i, (i < n)%nat ->
                    replay [gateway_timeout; gateway_timeout; page_reply p1; page_reply p2;
                            gateway_timeout; page_reply []] (k + i) = gateway_timeout) ->
                  times_out E k n).
    { intros k n H i Hi. eexists. cbn [E replay_env server]. by rewrite H. }
    cbn [serves_pages_retrying]. split_and!; try lia; try discriminate.
    + apply Hto. intros [|[|i]] Hi; [reflexivity..|lia].
    + eexists. split; reflexivity.
    + apply Hto. intros i Hi. lia.
    + eexists. split; reflexivity.
    + apply Hto. intros [|i] Hi; [reflexivity|lia].
    + right. eexists. split; reflexivity.
Defined.

(** ** The sink, call by call *)

Lemma writeCsvFile_ok_at E rows a s st :
  (folder_of a ∈ dirs st \/ fs_fault E (folder_of a) = None) ->
  fs_fault E (file_of a s) = None ->
  rows <> [] ->
  writeCsvFile rows a s E st = (Ret tt, after_write rows a s st).
Proof.
  intros Hfolder Hfile Hrows. destruct rows as [|row0 rows]; [done|].
  unfold writeCsvFile, after_write, try_catch, bind, emit, existsSync, mkdirSync,
    appendFileSync, ret. cbn -[stringify bool_decide].
  fold (folder_of a). fold (file_of a s).
  case_bool_decide as Hin; cbn -[stringify].
  - by rewrite Hfile.
  - destruct Hfolder as [? | ->]; [done|]. cbn -[stringify]. by rewrite Hfile.
Qed.

Lemma ancestors_from_no_separator s : forall pre,
  no_separator s = true -> ancestors_from pre s = [].
Proof.
  induction s as [|c s IH]; intros pre Hs; [done|].
  cbn in Hs. apply andb_true_iff in Hs as [Hc Hs]. apply negb_true_iff in Hc.
  cbn [ancestors_from]. rewrite Hc. cbn [andb app]. by apply IH.
Qed.

(** Above the folder of an athlete whose id is a plain name, there is
    [./data]. *)
Lemma ancestors_folder_of a :
  no_separator (template a) = true -> ancestors (folder_of a) = ["./data"].
Proof.
  intros Ha. unfold ancestors, folder_of.
  change (ancestors_from "" ("./data/" +:+ template a))
    with (["./data"] ++ ancestors_from "./data/" (template a)).
  by rewrite (ancestors_from_no_separator _ _ Ha).
Qed.

(** X4. For ids that are plain names, a sink call that succeeds appends to
    the file of its session a header record and one record per row, after
    what the file held (the file is created when it did not exist); no file
    at another path changes. When the folder of the athlete was missing, it
    creates that folder and, with it, the folder [./data] above it, and no
    other folder; when the folder was there, it creates none. *)
Theorem writeCsvFile_appends_to_one_file
    (E : environment) (row0 : row) (rows : list row) (a s : value) (st : state) :
  plain_name (template a) ->
  plain_name (template s) ->
  (folder_of a ∈ dirs st \/ fs_fault E (folder_of a) = None) ->
  fs_fault E (file_of a s) = None ->
  exists st',
    writeCsvFile (row0 :: rows) a s E st = (Ret tt, st') /\
    files st' !! file_of a s
    = Some (default [] (files st !! file_of a s)
            ++ Header (keys row0)
               :: map (fun r => Data (map (fun c => prop c r) (keys row0))) (row0 :: rows)) /\
    (forall path, path <> file_of a s -> files st' !! path = files st !! path) /\
    (forall d, d ∈ dirs st' <->
               d ∈ dirs st \/
               ((folder_of a ∉ dirs st) /\ (d = folder_of a \/ d = "./data"))) /\
    ncalls st' = ncalls st.
Proof.
  intros [Ha _] _ Hfolder Hfile. eexists. split; [by apply writeCsvFile_ok_at|].
  cbn [after_write files dirs ncalls]. split_and!.
  - by rewrite lookup_insert_eq.
  - intros path Hpath. by rewrite lookup_insert_ne.
  - intros d. case_bool_decide as Hin.
    + split; [by left|]. by intros [?|[? _]].
    + rewrite (ancestors_folder_of a Ha), !elem_of_union, elem_of_singleton,
        elem_of_list_to_set, list_elem_of_singleton. tauto.
  - reflexivity.
Qed.

(** A first call for session S1 of athlete A, beside a file of athlete B. *)
Lemma writeCsvFile_appends_to_one_file_witness :
  let E := replay_env [] in
  let st := after_write [sample_row (VStr "B") (VStr "S9") 0] (VStr "B") (VStr "S9") initial in
  exists st',
    writeCsvFile [sample_row (VStr "A") (VStr "S1") 1] (VStr "A") (VStr "S1") E st
      = (Ret tt, st') /\
    files st' !! "./data/A/session_S1.csv"
      = Some [Header ["athleteid"; "sessionid"; "metric"];
              Data [VStr "A"; VStr "S1"; VNum 1]] /\
    files st' !! "./data/B/session_S9.csv" = files st !! "./data/B/session_S9.csv" /\
    "./data/A" ∈ dirs st'.
Proof.
  intros E st.
  destruct (writeCsvFile_appends_to_one_file E (sample_row (VStr "A") (VStr "S1") 1) []
              (VStr "A") (VStr "S1") st) as (st' & Hrun & Hfile & Hother & Hdirs & _).
  - by split_and!.
  - by split_and!.
  - right. reflexivity.
  - reflexivity.
  - exists st'. split_and!; [exact Hrun|exact Hfile| |].
    + apply Hother. discriminate.
    + apply Hdirs.
      destruct (decide (folder_of (VStr "A") ∈ dirs st)) as [Hin|Hout]; [by left|].
      right. split; [exact Hout|by left].
Defined.

(** X5. Called without rows, [writeCsvFile] throws a [TypeError] when it
    reads the keys of the first row; by then it has created the folder of
    the athlete when that did not exist, and it has written no file. *)
Theorem writeCsvFile_without_rows
    (E : environment) (a s : value) (st : state) :
  (folder_of a ∈ dirs st \/ fs_fault E (folder_of a) = None) ->
  exists m st',
    writeCsvFile [] a s E st = (Throw (TypeError m), st') /\
    files st' = files st /\
    folder_of a ∈ dirs st' /\
    log st' = log st ++ [EvWriteCsv [] a s].
Proof.
  intros Hfolder.
  unfold writeCsvFile, try_catch, bind, emit, existsSync, mkdirSync, ret, throw.
  cbn -[bool_decide]. fold (folder_of a).
  case_bool_decide as Hin; cbn.
  - eexists _, _. by split_and!.
  - destruct Hfolder as [? | ->]; [done|]. cbn.
    eexists _, _. split_and!; [reflexivity|reflexivity| |reflexivity].
    cbn. do 2 apply elem_of_union_l. by apply elem_of_singleton.
Qed.

(** On an empty disk. *)
Lemma writeCsvFile_without_rows_witness :
  exists m st',
    writeCsvFile [] (VStr "A") (VStr "S1") (replay_env []) initial
      = (Throw (TypeError m), st') /\
    files st' = files initial /\
    "./data/A" ∈ dirs st' /\
    log st' = log initial ++ [EvWriteCsv [] (VStr "A") (VStr "S1")].
Proof.
  apply (writeCsvFile_without_rows (replay_env []) (VStr "A") (VStr "S1") initial).
  right. reflexivity.
Defined.

(** X6. When the folder of the athlete cannot be created, [writeCsvFile]
    throws "Failed to create folder for athleteId ..." with the message of
    the file system. When the folder is there and the append fails, the
    error that [writeCsvFile] throws is the one of its outer [catch]:
    "Failed to stringify rows for CSV: Failed to write to CSV file: ...".
    In both cases no file has changed. *)
Theorem writeCsvFile_disk_failures
    (E : environment) (row0 : row) (rows : list row) (a s : value) (st : state)
    (m : string) :
  (folder_of a ∉ dirs st ->
   fs_fault E (folder_of a) = Some m ->
   exists st',
     writeCsvFile (row0 :: rows) a s E st
     = (Throw (Error ("Failed to create folder for athleteId " +:+ template a
                      +:+ ": " +:+ m)), st') /\
     files st' = files st /\ dirs st' = dirs st) /\
  ((folder_of a ∈ dirs st \/ fs_fault E (folder_of a) = None) ->
   fs_fault E (file_of a s) = Some m ->
   exists st',
     writeCsvFile (row0 :: rows) a s E st
     = (Throw (Error ("Failed to stringify rows for CSV: Failed to write to CSV file: "
                      +:+ m)), st') /\
     files st' = files st /\
     log st' = log st ++ [EvWriteCsv (row0 :: rows) a s;
                          EvConsoleError ("Error writing to file " +:+ file_of a s +:+ ":");
                          EvConsoleError "Error stringifying rows:"]).
Proof.
  split.
  - intros Hout Hfault.
    unfold writeCsvFile, try_catch, bind, emit, existsSync, mkdirSync, ret, throw.
    cbn -[bool_decide]. fold (folder_of a).
    rewrite bool_decide_eq_false_2 by done. cbn. rewrite Hfault. cbn.
    eexists. by split_and!.
  - intros Hfolder Hfault.
    unfold writeCsvFile, try_catch, bind, emit, existsSync, mkdirSync, appendFileSync,
      ret, throw.
    cbn -[bool_decide stringify]. fold (folder_of a). fold (file_of a s).
    case_bool_decide as Hin; cbn -[stringify].
    + rewrite Hfault. cbn. eexists. split_and!; [reflexivity|reflexivity|].
      cbn. by rewrite <- ?app_assoc.
    + destruct Hfolder as [? | ->]; [done|]. cbn -[stringify]. rewrite Hfault. cbn.
      eexists. split_and!; [reflexivity|reflexivity|]. cbn. by rewrite <- ?app_assoc.
Qed.

(** A disk on which the file of the session is read-only. *)
Lemma writeCsvFile_disk_failures_witness :
  let E := {| server := replay [];
              fs_fault := fun path => if String.eqb path "./data/A/session_S1.csv"
                                      then Some "EACCES: permission denied" else None;
              env_json := inr (VStr "key", VStr "u") |} in
  exists st',
    writeCsvFile [sample_row (VStr "A") (VStr "S1") 1] (VStr "A") (VStr "S1") E initial
    = (Throw (Error ("Failed to stringify rows for CSV: Failed to write to CSV file: "
                     +:+ "EACCES: permission denied")), st') /\
    files st' = files initial.
Proof.
  intros E.
  destruct (writeCsvFile_disk_failures E (sample_row (VStr "A") (VStr "S1") 1) []
              (VStr "A") (VStr "S1") initial "EACCES: permission denied") as [_ H].
  destruct H as (st' & Hrun & Hfiles & _).
  - right. reflexivity.
  - reflexivity.
  - exists st'. split; [exact Hrun|exact Hfiles].
Defined.

(** ** Exports that are empty, or that fail *)

(** X7. When the first page has no rows, or the reply has no body, the
    export makes that one request and nothing else: no sink call, no wait,
    no further request. *)
Theorem empty_first_page
    (apiKey dataURL jobId : value) (offset limit : Z) (fuel : nat)
    (E : environment) (st : state) :
  truthy jobId = true ->
  ends_export (server E (ncalls st)) ->
  handleDataExport apiKey dataURL jobId offset limit (S fuel) E st
  = (Ret tt,
     add_event
       (EvHttp (GetJobPage (template dataURL +:+ "/job/" +:+ template jobId +:+ "/results")
                  (bearer apiKey) offset limit)
          (server E (ncalls st)))
       (count_call st)).
Proof.
  intros Hj Hend. unfold handleDataExport, try_catch. cbn [fetchPages].
  unfold bind at 1 2.
  destruct Hend as [Hs|(b & Hs & Hb)];
    rewrite (getJobResults_fulfilled E apiKey dataURL jobId Hj limit offset st _ Hs);
    rewrite Hs; [|rewrite Hb]; reflexivity.
Qed.

(** The only reply is a page without rows. *)
Lemma empty_first_page_witness :
  let E := replay_env [page_reply []] in
  handleDataExport (VStr "key") (VStr "u") (VStr "job-1") 0 500 1 E initial
  = (Ret tt,
     add_event (EvHttp (GetJobPage "u/job/job-1/results" "Bearer key" 0 500) (page_reply []))
       (count_call initial)).
Proof.
  intros E.
  apply (empty_first_page (VStr "key") (VStr "u") (VStr "job-1") 0 500 0 E initial eq_refl).
  right. eexists. split; reflexivity.
Defined.

Section FailedExport.
Variable E : environment.
Hypothesis disk_ok : forall path, fs_fault E path = None.
Variables apiKey dataURL jobId : value.
Hypothesis job_known : truthy jobId = true.
Variable limit : Z.

Lemma getJobResults_fails offset st :
  fails_page (server E (ncalls st)) ->
  exists t st',
    log st' = log st ++ t /\ sink_calls t = [] /\
    ((exists e, getJobResults apiKey dataURL jobId offset limit default_maxRetries
                  default_retryDelay E st = (Throw e, st')) \/
     (exists b, getJobResults apiKey dataURL jobId offset limit default_maxRetries
                  default_retryDelay E st = (Ret (Some b), st') /\ data_rows b = None)).
Proof.
  intros [(m & status & Hs & Hno)|(b & Hs & Hb)].
  - unfold getJobResults. rewrite job_known. cbn [negb].
    edestruct (makeRequest_rejected
                 (GetJobPage (template dataURL +:+ "/job/" +:+ template jobId +:+ "/results")
                    (bearer apiKey) offset limit)
                 read_data default_maxRetries default_retryDelay
                 (Z.to_nat default_maxRetries) 0 E st m status)
      as (msg & _ & ->); [exact Hs|exact Hno|].
    exists [EvHttp (GetJobPage (template dataURL +:+ "/job/" +:+ template jobId
                                  +:+ "/results") (bearer apiKey) offset limit)
              (Rejected m status); EvConsoleError msg].
    eexists. split_and!; [|reflexivity|left; by eexists].
    cbn. by rewrite <- app_assoc.
  - rewrite (getJobResults_fulfilled E apiKey dataURL jobId job_known limit offset st _ Hs).
    exists [EvHttp (GetJobPage (template dataURL +:+ "/job/" +:+ template jobId
                                  +:+ "/results") (bearer apiKey) offset limit)
              (Fulfilled (Some b))].
    eexists. split_and!; [|reflexivity|right; by eexists]. reflexivity.
Qed.

Lemma fetchPages_fails pages last : forall fuel offset p st,
  (length pages < fuel)%nat ->
  serves_pages_then E (ncalls st) pages last ->
  fails_page last ->
  exists e t st',
    fetchPages apiKey dataURL jobId limit fuel offset p E st = (Throw e, st') /\
    log st' = log st ++ t /\
    sink_calls t = (partition p (concat pages)).1.
Proof.
  induction pages as [|page pages IH]; intros fuel offset p st Hfuel Hserve Hlast;
    (destruct fuel as [|fuel]; [cbn in Hfuel; lia|]); cbn [fetchPages].
  - cbn in Hserve. rewrite <- Hserve in Hlast.
    destruct (getJobResults_fails offset st Hlast)
      as (t & st' & Hl & Hc & [(e & Hrun)|(b & Hrun & Hb)]);
      unfold bind; rewrite Hrun; [|rewrite Hb]; by eexists _, t, st'.
  - cbn [serves_pages_then] in Hserve. destruct Hserve as (Hne & (b & Hs & Hb) & Hrest).
    unfold bind at 1.
    rewrite (getJobResults_fulfilled E apiKey dataURL jobId job_known limit offset st _ Hs), Hb.
    assert ((Z.of_nat (length page) =? 0) = false) as ->.
    { apply Z.eqb_neq. destruct page; [done|cbn; lia]. }
    unfold bind at 1. rewrite (processRows_run E disk_ok).
    unfold bind at 1. unfold delay, emit.
    set (st1 := add_event (EvDelay 1000) _).
    assert (Hn1 : ncalls st1 = S (ncalls st)) by (subst st1; cbn; by rewrite ncalls_write_all).
    rewrite <- Hn1 in Hrest.
    destruct (IH fuel (offset + Z.of_nat (length page)) (partition p page).2 st1)
      as (e & t & st' & Hrun & Hl & Hc); [cbn in Hfuel; lia|done|done|].
    cbn [concat]. rewrite partition_app. cbn [fst snd].
    exists e, (EvHttp (GetJobPage (template dataURL +:+ "/job/" +:+ template jobId
                                     +:+ "/results") (bearer apiKey) offset limit)
                 (Fulfilled (Some b))
               :: map call_event (partition p page).1 ++ EvDelay 1000 :: t), st'.
    split_and!; [exact Hrun| |].
    + rewrite Hl. subst st1. cbn. rewrite log_write_all. cbn. by rewrite <- !app_assoc.
    + change (sink_calls (EvHttp ?x ?y :: ?l)) with (sink_calls l).
      rewrite sink_calls_app, sink_calls_call_events. f_equal. exact Hc.
Qed.

(** X8. When, after some pages, a page request fails for good (a rejection
    other than 504, or a body without rows), the export throws "Failed to
    export data ..."; the sink has received the rows of the pages up to the
    last change of key, and the rows buffered since then are lost. With
    truthy ids, the sink calls are the maximal runs of the rows received,
    but for the last run. *)
Theorem failed_export_loses_last_run
    (pages : list (list row)) (last : reply) (fuel : nat) (offset : Z) (st : state) :
  (length pages < fuel)%nat ->
  serves_pages_then E (ncalls st) pages last ->
  fails_page last ->
  exists t st',
    handleDataExport apiKey dataURL jobId offset limit fuel E st
    = (Throw (Error "Failed to export data due to an error in fetching or saving data."),
       st') /\
    log st' = log st ++ t /\
    written t ++ rowsToWrite (partition no_buffer (concat pages)).2 = concat pages /\
    (Forall truthy_key (concat pages) ->
     sink_calls t = removelast (map call_of_run (runs (concat pages)))).
Proof.
  intros Hfuel Hserve Hlast.
  destruct (fetchPages_fails pages last fuel offset no_buffer st Hfuel Hserve Hlast)
    as (e & t & st' & Hrun & Hl & Hc).
  unfold handleDataExport, try_catch. unfold bind at 1. rewrite Hrun.
  exists (t ++ [EvConsoleError "Error during data export:"]).
  eexists. split; [reflexivity|]. split_and!.
  - cbn. by rewrite Hl, <- app_assoc.
  - unfold written. rewrite sink_calls_app, app_nil_r, Hc.
    apply (partition_conserves (concat pages) no_buffer).
  - intros Hkeys. rewrite sink_calls_app, app_nil_r, Hc.
    assert (Hopen : one_key_open no_buffer) by constructor.
    pose proof (partition_runs (concat pages) no_buffer Hopen Hkeys) as Hruns.
    change (rowsToWrite no_buffer ++ concat pages) with (concat pages) in Hruns.
    rewrite <- Hruns. unfold final_flush.
    destruct (rowsToWrite (partition no_buffer (concat pages)).2) as [|r0 rs] eqn:Hbuf.
    + cbn. rewrite app_nil_r.
      destruct (concat pages) as [|r rows] eqn:Hrows; [done|].
      by apply (partition_buffer_nonempty (r :: rows) no_buffer) in Hbuf.
    + assert ((0 <? Z.of_nat (length (r0 :: rs))) = true) as -> by (by apply Z.ltb_lt).
      by rewrite removelast_last.
Qed.
End FailedExport.

(** Three rows of A/S1 and one of A/S2, then a server error: the run of
    A/S1 is written, the row of A/S2 is lost. *)
Lemma failed_export_loses_last_run_witness :
  let a1 := sample_page (VStr "A") (VStr "S1") 3 in
  let a2 := sample_page (VStr "A") (VStr "S2") 1 in
  let E := replay_env [page_reply (a1 ++ a2);
                       Rejected "Request failed with status code 500" (Some 500)] in
  exists t st',
    handleDataExport (VStr "key") (VStr "u") (VStr "job-1") 0 500 3 E initial
    = (Throw (Error "Failed to export data due to an error in fetching or saving data."),
       st') /\
    log st' = log initial ++ t /\
    sink_calls t = [(a1, VStr "A", VStr "S1")].
Proof.
  intros a1 a2 E.
  destruct (failed_export_loses_last_run E (fun _ => eq_refl)
              (VStr "key") (VStr "u") (VStr "job-1") eq_refl 500
              [a1 ++ a2] (Rejected "Request failed with status code 500" (Some 500))
              3 0 initial) as (t & st' & Hrun & Hl & _ & Hc).
  - cbn. lia.
  - repeat split; try discriminate. eexists. split; reflexivity.
  - left. eexists _, _. split; [reflexivity|discriminate].
  - exists t, st'. split_and!; [exact Hrun|exact Hl|].
    rewrite Hc; [reflexivity|repeat constructor].
Defined.

(** ** The orchestrator at its edges *)

(** X9. [handleExportProcess] stops before any request when [env.json]
    cannot be read (it throws the error of [readEnvJson]) and when the API
    key or the data URL read from it is falsy (it throws "Missing API Key or
    Data URL from env.json."): the state is unchanged. *)
Theorem handleExportProcess_without_configuration
    (fuel : nat) (E : environment) (st : state) :
  (forall m, env_json E = inl m ->
     handleExportProcess fuel E st
     = (Throw (Error ("Error reading or parsing env.json: " +:+ m)), st)) /\
  (forall apiKey dataURL,
     env_json E = inr (apiKey, dataURL) ->
     truthy apiKey = false \/ truthy dataURL = false ->
     handleExportProcess fuel E st
     = (Throw (Error "Missing API Key or Data URL from env.json."), st)).
Proof.
  split.
  - intros m Hm. unfold handleExportProcess, bind, readEnvJson. by rewrite Hm.
  - intros apiKey dataURL Hkv Hmissing.
    unfold handleExportProcess, bind, readEnvJson. rewrite Hkv. cbn [fst snd].
    by destruct Hmissing as [-> | ->]; rewrite ?orb_true_r.
Qed.

(** An [env.json] without the data URL. *)
Lemma handleExportProcess_without_configuration_witness :
  let E := {| server := replay [job_reply (VStr "job-1")]; fs_fault := fun _ => None;
              env_json := inr (VStr "key", VUndefined) |} in
  handleExportProcess 3 E initial
  = (Throw (Error "Missing API Key or Data URL from env.json."), initial).
Proof.
  intros E.
  destruct (handleExportProcess_without_configuration 3 E initial) as [_ H].
  apply (H (VStr "key") VUndefined eq_refl). by right.
Defined.

(** X10. When the reply to a submission carries no job id (or a falsy
    one), the category ends there without an error: one request, no poll,
    no export; and the loop goes on with the categories that follow. *)
Theorem category_without_job_id_is_skipped
    (apiKey dataURL jobId : value) (category : string * string)
    (cs : list (string * string)) (fuel : nat) (E : environment) (st : state) :
  serves_job E (ncalls st) jobId ->
  truthy jobId = false ->
  let st1 :=
    add_event (EvHttp (PostExport (template dataURL) (bearer apiKey) (category_data category))
                 (server E (ncalls st)))
      (count_call st) in
  exportCategory apiKey dataURL category fuel E st = (Ret tt, st1) /\
  exportCategories apiKey dataURL (category :: cs) fuel E st
  = exportCategories apiKey dataURL cs fuel E st1.
Proof.
  intros (b & Hs & Hb) Hj st1.
  assert (Hrun : exportCategory apiKey dataURL category fuel E st = (Ret tt, st1)).
  { unfold exportCategory, try_catch. cbv zeta. fold (category_data category).
    unfold bind at 1. unfold createExportJob.
    erewrite makeRequest_fulfilled; [|exact Hs|reflexivity].
    rewrite Hb, Hj. subst st1. by rewrite Hs. }
  split; [exact Hrun|]. cbn [exportCategories]. unfold bind. by rewrite Hrun.
Qed.

(** The first submission is answered without a job id; the second category
    is submitted next. *)
Lemma category_without_job_id_is_skipped_witness :
  let E := replay_env [job_reply VUndefined; job_reply (VStr "job-2");
                       status_reply (VStr "COMPLETED"); page_reply []] in
  (handleExportProcess 3 E initial).1 = Ret tt /\
  requests (log (handleExportProcess 3 E initial).2)
  = [PostExport "https://data.example" "Bearer key" (category_data ("baseball", "hitting"));
     PostExport "https://data.example" "Bearer key" (category_data ("baseball", "pitching"));
     GetJob "https://data.example/job/job-2" "Bearer key";
     GetJobPage "https://data.example/job/job-2/results" "Bearer key" 0 500].
Proof.
  intros E.
  destruct (category_without_job_id_is_skipped (VStr "key") (VStr "https://data.example")
              VUndefined ("baseball", "hitting") [("baseball", "pitching")] 3 E initial)
    as [_ Hskip].
  - eexists. split; reflexivity.
  - reflexivity.
  - assert (Hrun : handleExportProcess 3 E initial
                   = exportCategories (VStr "key") (VStr "https://data.example")
                       categories 3 E initial) by reflexivity.
    rewrite Hrun. unfold categories. rewrite Hskip. vm_compute. by split.
Defined.

(** X11. A job reported RUNNING [n] times and then COMPLETED costs [n + 1]
    status requests and [n] waits of 5000 ms each: the interval does not
    grow with the number of polls. *)
Theorem polling_waits_five_seconds_per_poll
    (apiKey dataURL jobId : value) (n fuel : nat) (E : environment) (st : state) :
  truthy jobId = true ->
  (n < fuel)%nat ->
  serves_statuses E (ncalls st) (repeat (VStr "RUNNING") n ++ [VStr "COMPLETED"]) ->
  exists t st',
    checkJobStatus apiKey dataURL jobId fuel E st = (Ret (VBool true), st') /\
    log st' = log st ++ t /\
    ncalls st' = (ncalls st + S n)%nat /\
    polled_statuses t = repeat (VStr "RUNNING") n ++ [VStr "COMPLETED"] /\
    delays t = repeat 5000 n.
Proof.
  intros Hj Hfuel Hserve.
  destruct (checkJobStatus_completes E apiKey dataURL jobId Hj n fuel st Hfuel Hserve)
    as (t & st' & Hrun & Hl & Hn & Hp & Hd & _).
  by exists t, st'.
Qed.

(** Three polls answered RUNNING. *)
Lemma polling_waits_five_seconds_per_poll_witness :
  let E := replay_env [status_reply (VStr "RUNNING"); status_reply (VStr "RUNNING");
                       status_reply (VStr "RUNNING"); status_reply (VStr "COMPLETED")] in
  exists t st',
    checkJobStatus (VStr "key") (VStr "u") (VStr "job-1") 4 E initial
      = (Ret (VBool true), st') /\
    log st' = log initial ++ t /\
    ncalls st' = 4%nat /\
    polled_statuses t = [VStr "RUNNING"; VStr "RUNNING"; VStr "RUNNING"; VStr "COMPLETED"] /\
    delays t = [5000; 5000; 5000].
Proof.
  intros E.
  apply (polling_waits_five_seconds_per_poll (VStr "key") (VStr "u") (VStr "job-1")
           3 4 E initial eq_refl).
  - lia.
  - repeat split; eexists; split; reflexivity.
Defined.

(** ** Where the requests go *)

Section Addressed.
Variables apiKey dataURL : value.
Let Q := addressed_event apiKey dataURL.

Lemma addressed_getJobStatus jobId :
  emits Q (getJobStatus apiKey dataURL jobId default_maxRetries default_retryDelay).
Proof.
  unfold getJobStatus. destruct (truthy jobId) eqn:Hj; cbn [negb]; [|apply emits_ret].
  apply emits_makeRequest; try done.
  intros rp. cbn. split; [done|]. by exists jobId.
Qed.

Lemma addressed_checkJobStatus jobId fuel :
  emits Q (checkJobStatus apiKey dataURL jobId fuel).
Proof.
  induction fuel as [|fuel IH]; cbn [checkJobStatus]; [apply emits_diverge|].
  apply emits_bind; [apply addressed_getJobStatus|intros status].
  apply emits_bind.
  - repeat first
      [ apply emits_bind; [|intros ?] | apply emits_ret | apply emits_throw
      | (apply emits_delay; done) | case_match ].
  - intros [v|]; [apply emits_ret|]. case_match; [apply IH|apply emits_ret].
Qed.

Lemma addressed_fetchPages jobId fuel : forall offset p,
  0 <= offset ->
  emits Q (fetchPages apiKey dataURL jobId 500 fuel offset p).
Proof.
  induction fuel as [|fuel IH]; intros offset p Hoff; cbn [fetchPages];
    [apply emits_diverge|].
  apply emits_bind.
  - unfold getJobResults. destruct (truthy jobId) eqn:Hj; cbn [negb]; [|apply emits_ret].
    apply emits_makeRequest; try done.
    intros rp. cbn. split_and!; try done. by exists jobId.
  - intros [b|]; [|apply emits_ret].
    destruct (data_rows b) as [rows|]; [|apply emits_throw].
    case_match; [apply emits_ret|].
    apply emits_bind; [by apply emits_processRows|intros p'].
    apply emits_bind; [by apply emits_delay|intros _]. apply IH. lia.
Qed.

Lemma addressed_handleDataExport jobId fuel :
  emits Q (handleDataExport apiKey dataURL jobId 0 500 fuel).
Proof.
  unfold handleDataExport. apply emits_try_catch.
  - apply emits_bind; [by apply addressed_fetchPages|intros p].
    case_match; [by apply emits_writeCsvFile|apply emits_ret].
  - intros e. apply emits_bind; [by apply emits_emit|intros _; apply emits_throw].
Qed.

Lemma addressed_exportCategories cs fuel :
  emits Q (exportCategories apiKey dataURL cs fuel).
Proof.
  induction cs as [|category cs IH]; cbn [exportCategories]; [apply emits_ret|].
  apply emits_bind; [|by intros _].
  unfold exportCategory. apply emits_try_catch.
  - apply emits_bind; [by apply emits_makeRequest|intros jobId].
    case_match; [|apply emits_ret].
    apply emits_bind; [apply addressed_checkJobStatus|intros status].
    case_match; [apply addressed_handleDataExport|apply emits_ret].
  - intros e. apply emits_bind; [by apply emits_emit|intros _; apply emits_throw].
Qed.
End Addressed.

Lemma addressed_requests apiKey dataURL t :
  Forall (addressed_event apiKey dataURL) t ->
  Forall (addressed apiKey dataURL) (requests t).
Proof.
  induction 1 as [|ev t Hev _ IH]; [constructor|].
  destruct ev; try exact IH. by constructor.
Qed.

(** X12. Every request of a run of [handleExportProcess] carries the
    bearer token made of the API key of [env.json], and goes to the data URL
    of [env.json] (submissions), to the path of a job under it (polls), or to
    the results of a job under it (pages); every page request asks for 500
    rows at an offset that is not negative. *)
Theorem requests_carry_key_and_url
    (apiKey dataURL : value) (fuel : nat) (E : environment) (st : state) :
  env_json E = inr (apiKey, dataURL) ->
  exists t,
    log (handleExportProcess fuel E st).2 = log st ++ t /\
    Forall (addressed apiKey dataURL) (requests t).
Proof.
  intros Henv. unfold handleExportProcess, bind at 1, readEnvJson. rewrite Henv.
  cbn [fst snd]. case_match.
  - exists []. cbn. by rewrite app_nil_r.
  - destruct (addressed_exportCategories apiKey dataURL categories fuel E st)
      as (t & Hl & Ht).
    exists t. split; [exact Hl|]. by apply addressed_requests.
Qed.

(** A run that exports one page for the first category and is refused at
    the second submission. *)
Lemma requests_carry_key_and_url_witness :
  let E := replay_env [job_reply (VStr "job-1"); status_reply (VStr "COMPLETED");
                       page_reply [sample_row (VStr "A") (VStr "S1") 1]; page_reply [];
                       Rejected "Request failed with status code 403" (Some 403)] in
  exists t,
    log (handleExportProcess 3 E initial).2 = log initial ++ t /\
    Forall (addressed (VStr "key") (VStr "https://data.example")) (requests t).
Proof.
  intros E.
  exact (requests_carry_key_and_url (VStr "key") (VStr "https://data.example")
           3 E initial eq_refl).
Defined.

(** ** The disk only grows *)

Lemma disk_grows_refl st : disk_grows st st.
Proof.
  split_and!; [|by left|done].
  intros path old Hold. exists []. by rewrite app_nil_r.
Qed.

Lemma disk_grows_trans st1 st2 st3 :
  disk_grows st1 st2 -> disk_grows st2 st3 -> disk_grows st1 st3.
Proof.
  intros (Hf12 & Hp12 & Hd12) (Hf23 & Hp23 & Hd23). split_and!.
  - intros path old Hold. destruct (Hf12 path old Hold) as [more Hmore].
    destruct (Hf23 path _ Hmore) as [more' Hmore'].
    exists (more ++ more'). by rewrite app_assoc.
  - intros path. destruct (Hp23 path) as [H23|?]; [|by right].
    destruct (Hp12 path) as [H12|?]; [|by right]. left. congruence.
  - by etrans.
Qed.

Lemma disk_grows_same_disk st st' :
  files st' = files st -> dirs st' = dirs st -> disk_grows st st'.
Proof.
  intros Hf Hd. split_and!; [|left; by rewrite Hf|by rewrite Hd].
  intros path old Hold. exists []. by rewrite Hf, app_nil_r.
Qed.

Lemma append_only_same_disk {A} (c : M A) :
  (forall E st, files (c E st).2 = files st /\ dirs (c E st).2 = dirs st) ->
  append_only c.
Proof. intros Hc E st. destruct (Hc E st). by apply disk_grows_same_disk. Qed.

Lemma append_only_ret {A} (a : A) : append_only (ret a).
Proof. by apply append_only_same_disk. Qed.

Lemma append_only_throw {A} e : append_only (@throw A e).
Proof. by apply append_only_same_disk. Qed.

Lemma append_only_diverge {A} : append_only (@diverge A).
Proof. by apply append_only_same_disk. Qed.

Lemma append_only_emit ev : append_only (emit ev).
Proof. by apply append_only_same_disk. Qed.

Lemma append_only_http rq : append_only (http rq).
Proof. by apply append_only_same_disk. Qed.

Lemma append_only_bind {A B} (c : M A) (k : A -> M B) :
  append_only c -> (forall a, append_only (k a)) -> append_only (bind c k).
Proof.
  intros Hc Hk E st. unfold bind. specialize (Hc E st).
  destruct (c E st) as [[a|e|] st1]; cbn in *; [|done..].
  eapply disk_grows_trans; [exact Hc|apply Hk].
Qed.

Lemma append_only_try_catch {A} (c : M A) (h : error -> M A) :
  append_only c -> (forall e, append_only (h e)) -> append_only (try_catch c h).
Proof.
  intros Hc Hh E st. unfold try_catch. specialize (Hc E st).
  destruct (c E st) as [[a|e|] st1]; cbn in *; [done| |done].
  eapply disk_grows_trans; [exact Hc|apply Hh].
Qed.

Lemma append_only_mkdirSync path : append_only (mkdirSync path).
Proof.
  intros E st. unfold mkdirSync. destruct (fs_fault E path); [apply disk_grows_refl|].
  split_and!; cbn; [|by left|apply union_subseteq_r].
  intros p old Hold. exists []. by rewrite app_nil_r.
Qed.

Lemma append_only_appendFileSync a s out : append_only (appendFileSync (file_of a s) out).
Proof.
  intros E st. unfold appendFileSync.
  destruct (fs_fault E (file_of a s)); [apply disk_grows_refl|].
  split_and!; cbn; [| |done].
  - intros p old Hold. destruct (decide (p = file_of a s)) as [->|Hne].
    + rewrite lookup_insert_eq, Hold. by eexists.
    + rewrite lookup_insert_ne by done. exists []. by rewrite app_nil_r.
  - intros p. destruct (decide (p = file_of a s)) as [->|Hne]; [right; by eexists _, _|].
    left. by rewrite lookup_insert_ne.
Qed.

Ltac append_only_steps :=
  repeat first
    [ match goal with H : context [append_only] |- _ => apply H end
    | apply append_only_ret | apply append_only_throw | apply append_only_diverge
    | apply append_only_emit | apply append_only_http
    | apply append_only_mkdirSync | apply append_only_appendFileSync
    | (apply append_only_same_disk; by intros)
    | apply append_only_bind; [|intros ?]
    | apply append_only_try_catch; [|intros ?]
    | progress cbv zeta
    | case_match ].

Lemma append_only_handleError e : append_only (handleError e).
Proof. destruct (handleError_emits e) as [msg ->]. apply append_only_emit. Qed.

Lemma append_only_makeRequest {A} rq (extract : option body -> error + A)
    maxRetries retryDelay fuel : forall retryCount,
  append_only (makeRequest rq extract maxRetries retryDelay fuel retryCount).
Proof.
  induction fuel as [|fuel IH]; intros retryCount; cbn [makeRequest];
    (apply append_only_try_catch; [append_only_steps|intros e]);
    (case_match; [|apply append_only_bind;
                    [apply append_only_handleError|intros _; apply append_only_throw]]);
    (apply append_only_bind; [apply append_only_emit|intros _]);
    [apply append_only_diverge|apply IH].
Qed.

Lemma append_only_writeCsvFile rows a s : append_only (writeCsvFile rows a s).
Proof.
  unfold writeCsvFile. fold (folder_of a). fold (file_of a s). append_only_steps.
Qed.

Lemma append_only_processRows rows : forall p, append_only (processRows p rows).
Proof.
  induction rows as [|r rows IH]; intros p; cbn [processRows]; [apply append_only_ret|].
  apply append_only_bind; [|intros p'; apply IH].
  unfold processRow, saveAccumulated.
  pose proof append_only_writeCsvFile. append_only_steps.
Qed.

Lemma append_only_getJobStatus apiKey dataURL jobId maxRetries retryDelay :
  append_only (getJobStatus apiKey dataURL jobId maxRetries retryDelay).
Proof.
  unfold getJobStatus. case_match; [apply append_only_ret|apply append_only_makeRequest].
Qed.

Lemma append_only_checkJobStatus apiKey dataURL jobId fuel :
  append_only (checkJobStatus apiKey dataURL jobId fuel).
Proof.
  induction fuel as [|fuel IH]; cbn [checkJobStatus]; [apply append_only_diverge|].
  apply append_only_bind; [apply append_only_getJobStatus|intros status].
  unfold delay. append_only_steps.
Qed.

Lemma append_only_fetchPages apiKey dataURL jobId limit fuel : forall offset p,
  append_only (fetchPages apiKey dataURL jobId limit fuel offset p).
Proof.
  induction fuel as [|fuel IH]; intros offset p; cbn [fetchPages];
    [apply append_only_diverge|].
  apply append_only_bind.
  - unfold getJobResults. case_match; [apply append_only_ret|apply append_only_makeRequest].
  - intros result. pose proof append_only_processRows. unfold delay.
    append_only_steps.
Qed.

Lemma append_only_handleDataExport apiKey dataURL jobId offset limit fuel :
  append_only (handleDataExport apiKey dataURL jobId offset limit fuel).
Proof.
  unfold handleDataExport.
  pose proof append_only_fetchPages. pose proof append_only_writeCsvFile.
  append_only_steps.
Qed.

Lemma append_only_exportCategories apiKey dataURL cs fuel :
  append_only (exportCategories apiKey dataURL cs fuel).
Proof.
  induction cs as [|category cs IH]; cbn [exportCategories]; [apply append_only_ret|].
  apply append_only_bind; [|by intros _].
  unfold exportCategory, createExportJob.
  pose proof append_only_handleDataExport. pose proof append_only_checkJobStatus.
  pose proof (@append_only_makeRequest value). append_only_steps.
Qed.

(** X13. Whatever the service answers and whatever fails, a run of
    [handleExportProcess] only extends the disk: every file that existed
    keeps its content as a prefix of its new content, every file that is
    created or extended is the CSV file of a session, and no folder is
    removed. *)
Theorem run_only_appends_to_session_files (fuel : nat) (E : environment) (st : state) :
  disk_grows st (handleExportProcess fuel E st).2.
Proof.
  revert E st. change (append_only (handleExportProcess fuel)).
  unfold handleExportProcess. apply append_only_bind.
  - apply append_only_same_disk. intros E st. unfold readEnvJson. by case_match.
  - intros kv. case_match; [apply append_only_throw|apply append_only_exportCategories].
Qed.

(** ** The version of api.js without retries *)

Lemma makeRequest_single_attempt {A} rq (extract : option body -> error + A)
    maxRetries retryDelay fuel E st :
  (forall d e, extract d = inl e -> is_504 e = false) ->
  maxRetries <= 0 \/ (forall m, server E (ncalls st) <> Rejected m (Some 504)) ->
  makeRequest rq extract maxRetries retryDelay fuel 0 E st = single_attempt rq extract E st.
Proof.
  intros Hextract Hno. rewrite makeRequest_eq. cbv zeta.
  unfold single_attempt, try_catch, bind, http, settle, throw, ret. cbn beta.
  destruct (server E (ncalls st)) as [d|m status] eqn:Hrp.
  - destruct (extract d) as [e|a] eqn:Hd; [|done].
    by rewrite (Hextract d e Hd).
  - destruct (is_504 (AxiosError m status) && (0 <? maxRetries)) eqn:Hretry; [|done].
    apply andb_true_iff in Hretry as [H504 Hlt]. apply Z.ltb_lt in Hlt.
    destruct Hno as [?|Hno]; [lia|]. exfalso. apply (Hno m).
    unfold is_504 in H504. cbn in H504. destruct status as [z|]; [|done].
    apply Z.eqb_eq in H504. by subst z.
Qed.

(** X14. The version of [api.js] with retries behaves as the version without
    them, request for request and line for line, when no retry is allowed
    ([maxRetries] is not positive) or when the reply to the first attempt
    is not a 504. *)
Theorem retries_only_matter_on_timeouts
    (apiKey dataURL jobId : value) (data : export_data) (offset limit : Z)
    (maxRetries retryDelay : Z) (E : environment) (st : state) :
  maxRetries <= 0 \/ (forall m, server E (ncalls st) <> Rejected m (Some 504)) ->
  createExportJob apiKey dataURL data maxRetries retryDelay E st
    = NoRetry.createExportJob apiKey dataURL data E st /\
  getJobStatus apiKey dataURL jobId maxRetries retryDelay E st
    = NoRetry.getJobStatus apiKey dataURL jobId E st /\
  getJobResults apiKey dataURL jobId offset limit maxRetries retryDelay E st
    = NoRetry.getJobResults apiKey dataURL jobId offset limit E st.
Proof.
  intros Hno.
  unfold createExportJob, getJobStatus, getJobResults,
    NoRetry.createExportJob, NoRetry.getJobStatus, NoRetry.getJobResults.
  split_and!.
  - rewrite makeRequest_single_attempt; [done| |done].
    intros [b|] e Hd; cbn in Hd; by simplify_eq.
  - destruct (truthy jobId); cbn [negb]; [|done]. cbv zeta.
    rewrite makeRequest_single_attempt; [done| |done].
    intros [b|] e Hd; cbn in Hd; by simplify_eq.
  - destruct (truthy jobId); cbn [negb]; [|done]. cbv zeta.
    rewrite makeRequest_single_attempt; [|done|done].
    unfold single_attempt, read_data, try_catch, bind. by repeat case_match.
Qed.

(** A submission rejected with 403, with the default three retries. *)
Lemma retries_only_matter_on_timeouts_witness :
  let E := replay_env [Rejected "Request failed with status code 403" (Some 403)] in
  let data := category_data ("baseball", "hitting") in
  createExportJob (VStr "key") (VStr "u") data 3 2000 E initial
    = NoRetry.createExportJob (VStr "key") (VStr "u") data E initial /\
  getJobStatus (VStr "key") (VStr "u") (VStr "job-1") 3 2000 E initial
    = NoRetry.getJobStatus (VStr "key") (VStr "u") (VStr "job-1") E initial /\
  getJobResults (VStr "key") (VStr "u") (VStr "job-1") 0 500 3 2000 E initial
    = NoRetry.getJobResults (VStr "key") (VStr "u") (VStr "job-1") 0 500 E initial.
Proof.
  intros E data.
  apply (retries_only_matter_on_timeouts (VStr "key") (VStr "u") (VStr "job-1") data
           0 500 3 2000 E initial).
  right. intros m. vm_compute. congruence.
Defined.

(** ** The demo script *)

Lemma demo_handleError_line e E st :
  exists msg, Demo.handleError e E st = (Ret tt, add_event (EvConsoleError msg) st).
Proof.
  unfold Demo.handleError. destruct e as [m [z|]|m|m];
    repeat case_match; by eexists.
Qed.

(** A status poll of the demo: one request; the status read from the reply
    ([undefined] when the reply has no body), or the rejection after one
    console line. *)
Lemma demo_getJobStatus_run token exportUrl jobId E st :
  truthy jobId = true ->
  let rq := GetJob (template exportUrl +:+ "/job/" +:+ template jobId) (bearer token) in
  let st1 := add_event (EvHttp rq (server E (ncalls st))) (count_call st) in
  match server E (ncalls st) with
  | Fulfilled d =>
      Demo.getJobStatus token exportUrl jobId E st
      = (Ret (match d with Some b => data_status b | None => VUndefined end), st1)
  | Rejected m status =>
      exists msg,
        Demo.getJobStatus token exportUrl jobId E st
        = (Throw (AxiosError m status), add_event (EvConsoleError msg) st1)
  end.
Proof.
  intros Hj rq st1.
  destruct (server E (ncalls st)) as [[b|]|m status] eqn:Hrp;
    unfold Demo.getJobStatus; rewrite Hj; cbn [negb]; cbv zeta;
    unfold try_catch, bind, http; rewrite Hrp; cbn [read_status]; unfold ret, throw.
  - done.
  - done.
  - destruct (demo_handleError_line (AxiosError m status) E st1) as [msg Hmsg].
    exists msg. subst st1 rq. by rewrite Hmsg.
Qed.

(** A page request of the demo. *)
Lemma demo_getJobResult_run token exportUrl jobId offset limit E st :
  truthy jobId = true ->
  let rq := GetJobPage (template exportUrl +:+ "/job/" +:+ template jobId +:+ "/result")
              (bearer token) offset limit in
  let st1 := add_event (EvHttp rq (server E (ncalls st))) (count_call st) in
  match server E (ncalls st) with
  | Fulfilled d =>
      Demo.getJobResult token exportUrl jobId offset limit E st = (Ret d, st1)
  | Rejected m status =>
      exists msg,
        Demo.getJobResult token exportUrl jobId offset limit E st
        = (Throw (AxiosError m status), add_event (EvConsoleError msg) st1)
  end.
Proof.
  intros Hj rq st1.
  destruct (server E (ncalls st)) as [d|m status] eqn:Hrp;
    unfold Demo.getJobResult; rewrite Hj; cbn [negb]; cbv zeta;
    unfold try_catch, bind, http; rewrite Hrp; unfold ret, throw.
  - done.
  - destruct (demo_handleError_line (AxiosError m status) E st1) as [msg Hmsg].
    exists msg. subst st1 rq. by rewrite Hmsg.
Qed.

(** [getExportData] has no way to throw: what its [try] block throws, its
    [catch] turns into a console line. *)
Lemma demo_getExportData_never_throws token exportUrl jobId offset limit fuel E st e :
  (Demo.getExportData token exportUrl jobId offset limit fuel E st).1 <> Throw e.
Proof.
  unfold Demo.getExportData, try_catch.
  by destruct (Demo.pollAndFetch token exportUrl jobId offset limit fuel E st)
    as [[a|e'|] st'].
Qed.

Lemma demo_readPages_throws token exportUrl jobId limit fuel : forall offset E st e st',
  Demo.readPages token exportUrl jobId limit fuel offset E st = (Throw e, st') ->
  e = TypeError "Cannot read properties of undefined (reading 'length')".
Proof.
  induction fuel as [|fuel IH]; intros offset E st e st'; [done|].
  cbn [Demo.readPages]. unfold bind at 1.
  pose proof (demo_getExportData_never_throws token exportUrl jobId offset limit
                (S fuel) E st) as Hnever.
  destruct (Demo.getExportData token exportUrl jobId offset limit (S fuel) E st)
    as [[[b|]|e'|] st1]; cbn in Hnever; [| |by destruct (Hnever e')|]; try done.
  destruct (data_rows b) as [rows|]; [|by intros [= <- _]].
  cbv zeta. case_match; [apply IH|done].
Qed.

(** A round of [getExportData] on a job reported COMPLETED: one poll, then
    one page request, whose body is returned. *)
Lemma demo_getExportData_completed token exportUrl jobId offset limit fuel E st b d :
  truthy jobId = true ->
  server E (ncalls st) = Fulfilled (Some b) ->
  data_status b = VStr "COMPLETED" ->
  server E (S (ncalls st)) = Fulfilled d ->
  Demo.getExportData token exportUrl jobId offset limit (S fuel) E st
  = (Ret d,
     add_event
       (EvHttp (GetJobPage (template exportUrl +:+ "/job/" +:+ template jobId +:+ "/result")
                  (bearer token) offset limit) (Fulfilled d))
       (count_call
          (add_event
             (EvHttp (GetJob (template exportUrl +:+ "/job/" +:+ template jobId)
                        (bearer token)) (Fulfilled (Some b)))
             (count_call st)))).
Proof.
  intros Hj Hpoll Hstatus Hpage.
  unfold Demo.getExportData, try_catch. cbn [Demo.pollAndFetch]. unfold bind at 1.
  pose proof (demo_getJobStatus_run token exportUrl jobId E st Hj) as Hrun.
  cbv zeta in Hrun. rewrite Hpoll in Hrun. cbv iota in Hrun. rewrite Hrun, Hstatus.
  change (strict_eq (VStr "COMPLETED") (VStr "COMPLETED")) with true. cbv iota.
  unfold bind at 1. unfold bind at 1.
  match goal with
  | |- context [Demo.getJobResult _ _ _ _ _ E ?st1] =>
      pose proof (demo_getJobResult_run token exportUrl jobId offset limit E st1 Hj)
        as Hres
  end.
  cbv zeta in Hres. cbn [ncalls add_event count_call] in Hres.
  rewrite Hpage in Hres. by rewrite Hres.
Qed.

(** A round of [getExportData] on a poll that makes it give up: one request,
    console lines, and [undefined]. *)
Lemma demo_getExportData_gives_up token exportUrl jobId offset limit fuel E st :
  truthy jobId = true ->
  gives_up (server E (ncalls st)) ->
  exists t st',
    Demo.getExportData token exportUrl jobId offset limit (S fuel) E st = (Ret None, st') /\
    log st' = log st ++ t /\
    ncalls st' = S (ncalls st) /\
    requests t = [GetJob (template exportUrl +:+ "/job/" +:+ template jobId)
                    (bearer token)].
Proof.
  intros Hj Hgive.
  unfold Demo.getExportData, try_catch. cbn [Demo.pollAndFetch]. unfold bind at 1.
  pose proof (demo_getJobStatus_run token exportUrl jobId E st Hj) as Hrun.
  cbv zeta in Hrun.
  destruct (server E (ncalls st)) as [[b|]|m status] eqn:Hrp.
  - destruct (Hgive b eq_refl) as [Hc Hr].
    rewrite Hrun. unfold strict_eq.
    rewrite (bool_decide_eq_false_2 _ Hc), (bool_decide_eq_false_2 _ Hr).
    destruct (bool_decide (data_status b = VStr "FAILED")
              || bool_decide (data_status b = VStr "CANCELED"));
      eexists [_; _], _; cbn; (split; [reflexivity|]); cbn;
      rewrite <- app_assoc; by split_and!.
  - rewrite Hrun. eexists [_; _], _. cbn.
    split; [reflexivity|]. cbn. rewrite <- !app_assoc. by split_and!.
  - destruct Hrun as (msg & ->). eexists [_; _; _], _. cbn.
    split; [reflexivity|]. cbn. rewrite <- !app_assoc. by split_and!.
Qed.

(** X15. The demo gives a job up without failing: when the reply to the
    status poll is a rejection, has no body, or reports anything but
    COMPLETED or RUNNING, the category ends after the submission and that
    one poll, and the loop goes on with the next category. *)
Theorem demo_gives_job_up_and_goes_on
    (token exportUrl jobId : value) (c : string * string) (cs : list (string * string))
    (fuel : nat) (E : environment) (st : state) :
  (0 < fuel)%nat ->
  serves_job E (ncalls st) jobId ->
  truthy jobId = true ->
  gives_up (server E (S (ncalls st))) ->
  exists t st',
    Demo.exportCategory token exportUrl c fuel E st = (Ret tt, st') /\
    log st' = log st ++ t /\
    ncalls st' = (ncalls st + 2)%nat /\
    requests t = [PostExport (template exportUrl) (bearer token) (category_data c);
                  GetJob (template exportUrl +:+ "/job/" +:+ template jobId)
                    (bearer token)] /\
    Demo.exportCategories token exportUrl (c :: cs) fuel E st
    = Demo.exportCategories token exportUrl cs fuel E st'.
Proof.
  intros Hfuel (b & Hjob & Hid) Hj Hgive.
  destruct fuel as [|fuel]; [lia|].
  set (st1 := add_event
                (EvHttp (PostExport (template exportUrl) (bearer token) (category_data c))
                   (Fulfilled (Some b))) (count_call st)).
  assert (Hsubmit : Demo.createExportJob token exportUrl (category_data c) E st
                    = (Ret jobId, st1)).
  { unfold Demo.createExportJob, try_catch, bind, http. rewrite Hjob. cbn.
    by rewrite Hid. }
  destruct (demo_getExportData_gives_up token exportUrl jobId 0 500 fuel E st1 Hj Hgive)
    as (t & st' & Hdata & Hlog & Hn & Hreq).
  assert (Hcat : Demo.exportCategory token exportUrl c (S fuel) E st = (Ret tt, st')).
  { unfold Demo.exportCategory. cbv zeta. unfold bind at 1.
    change {| activity := c.1; movement := c.2; startTime := 1604807785;
              endTime := VUndefined; dateMode := "last_modified" |}
      with (category_data c).
    rewrite Hsubmit, Hj. cbn [Demo.readPages]. unfold bind at 1. by rewrite Hdata. }
  exists (EvHttp (PostExport (template exportUrl) (bearer token) (category_data c))
            (Fulfilled (Some b)) :: t), st'.
  split_and!.
  - done.
  - rewrite Hlog. subst st1. cbn. by rewrite <- app_assoc.
  - rewrite Hn. subst st1. cbn. lia.
  - unfold requests in *. cbn. by rewrite Hreq.
  - cbn [Demo.exportCategories]. unfold bind at 1. by rewrite Hcat.
Qed.

(** Two categories; the job of the first is reported FAILED. *)
Lemma demo_gives_job_up_and_goes_on_witness :
  let E := replay_env [job_reply (VStr "job-1"); status_reply (VStr "FAILED")] in
  exists t st',
    Demo.exportCategory (VStr "key") (VStr "u") ("baseball", "hitting") 2 E initial
      = (Ret tt, st') /\
    log st' = log initial ++ t /\
    ncalls st' = 2%nat /\
    requests t = [PostExport "u" "Bearer key" (category_data ("baseball", "hitting"));
                  GetJob "u/job/job-1" "Bearer key"] /\
    Demo.exportCategories (VStr "key") (VStr "u")
      [("baseball", "hitting"); ("baseball", "pitching")] 2 E initial
    = Demo.exportCategories (VStr "key") (VStr "u") [("baseball", "pitching")] 2 E st'.
Proof.
  intros E.
  apply (demo_gives_job_up_and_goes_on (VStr "key") (VStr "u") (VStr "job-1")
           ("baseball", "hitting") [("baseball", "pitching")] 2 E initial).
  - lia.
  - by eexists.
  - reflexivity.
  - intros b [= <-]. by split.
Defined.

(** X16. A category of the demo fails only in its submission, or on a page
    whose body has no [rows]: no failure of a status poll or of a page
    request reaches the loop. *)
Theorem demo_category_fails_only_at_submission
    (token exportUrl : value) (c : string * string) (fuel : nat)
    (E : environment) (st : state) (e : error) (st' : state) :
  Demo.exportCategory token exportUrl c fuel E st = (Throw e, st') ->
  Demo.createExportJob token exportUrl (category_data c) E st = (Throw e, st') \/
  e = TypeError "Cannot read properties of undefined (reading 'length')".
Proof.
  unfold Demo.exportCategory. cbv zeta. unfold bind at 1.
  change {| activity := c.1; movement := c.2; startTime := 1604807785;
            endTime := VUndefined; dateMode := "last_modified" |}
    with (category_data c).
  destruct (Demo.createExportJob token exportUrl (category_data c) E st)
    as [[jobId|e'|] st1]; [|intros [= -> ->]; by left|done].
  destruct (truthy jobId); [|done].
  intros Hpages. right. by eapply demo_readPages_throws.
Qed.

(** A submission rejected with 401. *)
Lemma demo_category_fails_only_at_submission_witness :
  let E := replay_env [Rejected "Request failed with status code 401" (Some 401)] in
  let e := AxiosError "Request failed with status code 401" (Some 401) in
  let st' := (Demo.exportCategory (VStr "key") (VStr "u") ("baseball", "hitting")
                2 E initial).2 in
  Demo.createExportJob (VStr "key") (VStr "u") (category_data ("baseball", "hitting"))
    E initial = (Throw e, st') \/
  e = TypeError "Cannot read properties of undefined (reading 'length')".
Proof.
  intros E e st'.
  apply (demo_category_fails_only_at_submission (VStr "key") (VStr "u")
           ("baseball", "hitting") 2 E initial e st').
  reflexivity.
Defined.

(** X17. The demo polls the status of the job again before every page: a
    completed job of [n] pages costs [2 * (n + 1)] requests, the page
    requests start where the pages received so far end, and nothing is
    waited for, printed as an error, or written to the disk. *)
Theorem demo_polls_before_every_page
    (token exportUrl jobId : value) (limit : Z) (pages : list (list row))
    (fuel : nat) (offset : Z) (E : environment) (st : state) :
  truthy jobId = true ->
  (length pages < fuel)%nat ->
  serves_polled_pages E (ncalls st) pages ->
  exists t st',
    Demo.readPages token exportUrl jobId limit fuel offset E st = (Ret tt, st') /\
    log st' = log st ++ t /\
    ncalls st' = (ncalls st + 2 * S (length pages))%nat /\
    page_offsets t = page_starts offset pages /\
    polled_statuses t = repeat (VStr "COMPLETED") (S (length pages)) /\
    Forall (fun ev => exists rq rp, ev = EvHttp rq rp) t /\
    files st' = files st.
Proof.
  intros Hj. revert fuel offset st.
  set (poll := GetJob (template exportUrl +:+ "/job/" +:+ template jobId) (bearer token)).
  set (page_at := GetJobPage
                    (template exportUrl +:+ "/job/" +:+ template jobId +:+ "/result")
                    (bearer token)).
  induction pages as [|page pages IH]; intros fuel offset st Hfuel Hserve;
    (destruct fuel as [|fuel]; [cbn in Hfuel; lia|]); cbn [Demo.readPages];
    unfold bind at 1.
  - destruct Hserve as [(b & Hpoll & Hstatus) Hend].
    assert (Hdone : exists d, server E (S (ncalls st)) = Fulfilled d /\
              match d with
              | None => True
              | Some b' => data_rows b' = Some []
              end).
    { destruct Hend as [->|(b' & -> & Hrows)]; by eexists. }
    destruct Hdone as (d & Hpage & Hd).
    rewrite (demo_getExportData_completed token exportUrl jobId offset limit fuel E st b d
               Hj Hpoll Hstatus Hpage).
    fold poll. fold page_at.
    exists [EvHttp poll (Fulfilled (Some b)); EvHttp (page_at offset limit) (Fulfilled d)].
    eexists.
    split; [destruct d as [b'|]; [rewrite Hd|]; reflexivity|].
    cbn. rewrite <- app_assoc, Hstatus. split_and!; try done; [lia|].
    repeat constructor; by eexists _, _.
  - destruct Hserve as (Hne & (b & Hpoll & Hstatus) & (b' & Hpage & Hrows) & Hrest).
    rewrite (demo_getExportData_completed token exportUrl jobId offset limit fuel E st b
               (Some b') Hj Hpoll Hstatus Hpage).
    fold poll. fold page_at.
    rewrite Hrows. cbv zeta.
    assert ((0 <? Z.of_nat (length page)) = true) as ->.
    { apply Z.ltb_lt. destruct page; [done|cbn; lia]. }
    match goal with
    | |- context [Demo.readPages _ _ _ _ _ ?o E ?st2] =>
        destruct (IH fuel o st2) as (t & st' & Hrun & Hlog & Hn & Hoff & Hst & Hev & Hfiles);
          [cbn in Hfuel; lia|exact Hrest|]
    end.
    exists (EvHttp poll (Fulfilled (Some b))
            :: EvHttp (page_at offset limit) (Fulfilled (Some b')) :: t), st'.
    split; [exact Hrun|].
    cbn in Hlog, Hn, Hfiles.
    unfold page_offsets, polled_statuses in *. cbn. split_and!.
    + rewrite Hlog, <- !app_assoc. reflexivity.
    + rewrite Hn. lia.
    + by rewrite Hoff.
    + rewrite Hstatus. by rewrite Hst.
    + repeat constructor; [by eexists _, _..|done].
    + done.
Qed.

(** A job of two pages, of 500 and of 137 rows. *)
Lemma demo_polls_before_every_page_witness :
  let E := replay_env
             [status_reply (VStr "COMPLETED");
              page_reply (sample_page (VStr "A") (VStr "S1") 500);
              status_reply (VStr "COMPLETED");
              page_reply (sample_page (VStr "A") (VStr "S2") 137);
              status_reply (VStr "COMPLETED"); page_reply []] in
  exists t st',
    Demo.readPages (VStr "key") (VStr "u") (VStr "job-1") 500 3 0 E initial
      = (Ret tt, st') /\
    log st' = log initial ++ t /\
    ncalls st' = 6%nat /\
    page_offsets t = [0; 500; 637] /\
    polled_statuses t = [VStr "COMPLETED"; VStr "COMPLETED"; VStr "COMPLETED"] /\
    Forall (fun ev => exists rq rp, ev = EvHttp rq rp) t /\
    files st' = files initial.
Proof.
  intros E.
  apply (demo_polls_before_every_page (VStr "key") (VStr "u") (VStr "job-1") 500
           [sample_page (VStr "A") (VStr "S1") 500; sample_page (VStr "A") (VStr "S2") 137]
           3 0 E initial eq_refl).
  - cbn. lia.
  - cbn [serves_polled_pages]. split_and!; try done;
      try (eexists; split; reflexivity).
    right. eexists. split; reflexivity.
Defined.
